(** * The Vulkan backend of love.graphics: a shallow embedding

    This development embeds the parts of
    [src/modules/graphics/vulkan/Graphics.cpp] that decide how adapters are
    rated, how the present mode is chosen, how vertex layouts are turned into
    Vulkan vertex input descriptions, how draws are recorded, how the object
    caches are consulted and how the ring of frame slots runs its deferred
    clean-ups, and proves properties of them.  It also embeds the choice of
    the swap chain's parameters, the sized pixel formats, and from
    [src/modules/mouse/sdl/Mouse.cpp] the test of the buttons and the
    global position of the pointer.

    Conventions.
    - A C++ [int] or [uint32_t] is a [Z]; arithmetic that can leave the range
      of the type has its wrap-around written out ([wrap_int]).
    - A [float] is a [spec_float] (IEEE 754 values with their comparisons).
    - Calls into the Vulkan driver are recorded, in program order, in the
      [trace] of the backend; what the driver answers is given by a [Driver],
      an arbitrary function of the calls made so far.
    - A function that can throw returns an [outcome]; a member function that
      changes the backend is a state transformer with results [Done],
      [Thrown] and [Unfinished] (the last one for a retry loop that has not
      come to an end within the given number of rounds). *)

From Stdlib Require Import ZArith Lia Bool List.
From Stdlib Require Import SpecFloat.
From stdpp Require Import base option list gmap strings.

Local Open Scope Z_scope.

(** ** Exceptions *)

(** [love::Exception], with its message, and the [std::out_of_range] that
    [std::vector::at] throws. *)
Inductive Exception : Type :=
| love_Exception (what : string)
| std_out_of_range.

(** The result of a function that either returns or throws. *)
Inductive outcome (A : Type) : Type :=
| Returns (a : A)
| Throws (e : Exception).
Arguments Returns {A} a.
Arguments Throws {A} e.

(** ** Machine integers *)

Definition INT_MIN : Z := - 2 ^ 31.
Definition INT_MAX : Z := 2 ^ 31 - 1.

(** The value an [int] holds after an arithmetic result [z]: two's
    complement wrap-around.  (For the language an overflow of [int] is
    undefined; the theorems below keep every intermediate result in range.) *)
Definition wrap_int (z : Z) : Z := (z + 2 ^ 31) mod 2 ^ 32 - 2 ^ 31.

(** [static_cast<uint32_t>]. *)
Definition to_uint32 (z : Z) : Z := z mod 2 ^ 32.

(** [bits & flag] is not zero. *)
Definition has_flag (bits : Z) (flag : Z) : bool :=
  negb (Z.land bits flag =? 0).

(** [bits & (1u << i)] is not zero. *)
Definition has_bit (bits : Z) (i : Z) : bool :=
  has_flag bits (Z.shiftl 1 i).

(** ** Index types *)

(** [IndexDataType] of graphics/vertex.h. *)
Inductive IndexDataType : Type :=
| INDEX_UINT16
| INDEX_UINT32
| INDEX_MAX_ENUM.

Inductive VkIndexType : Type :=
| VK_INDEX_TYPE_UINT16
| VK_INDEX_TYPE_UINT32.

Definition getVulkanIndexBufferType (type : IndexDataType) : outcome VkIndexType :=
  match type with
  | INDEX_UINT16 => Returns VK_INDEX_TYPE_UINT16
  | INDEX_UINT32 => Returns VK_INDEX_TYPE_UINT32
  | _ => Throws (love_Exception "unknown Index Data type")
  end.

(** ** Present modes *)

Inductive VkPresentModeKHR : Type :=
| VK_PRESENT_MODE_IMMEDIATE_KHR
| VK_PRESENT_MODE_MAILBOX_KHR
| VK_PRESENT_MODE_FIFO_KHR
| VK_PRESENT_MODE_FIFO_RELAXED_KHR
| VK_PRESENT_MODE_SHARED_DEMAND_REFRESH_KHR
| VK_PRESENT_MODE_SHARED_CONTINUOUS_REFRESH_KHR.

#[global] Instance VkPresentModeKHR_eq_dec : EqDecision VkPresentModeKHR.
Proof. solve_decision. Defined.

(** [std::find(v.begin(), v.end(), x)]: the position of the first element
    equal to [x]; [None] stands for [v.end()]. *)
Fixpoint std_find {A : Type} `{EqDecision A} (v : list A) (x : A) : option nat :=
  match v with
  | [] => None
  | y :: v' => if decide (y = x) then Some O else S <$> std_find v' x
  end.

(** The three labels of the [switch] of [chooseSwapPresentMode].  No case
    ends in a [break]: a case whose mode is not found runs on into the next
    one. *)
Definition chooseSwapPresentMode_default : VkPresentModeKHR :=
  VK_PRESENT_MODE_FIFO_KHR.

Definition chooseSwapPresentMode_case_0
    (availablePresentModes : list VkPresentModeKHR) : VkPresentModeKHR :=
  match std_find availablePresentModes VK_PRESENT_MODE_IMMEDIATE_KHR with
  | Some _ => VK_PRESENT_MODE_IMMEDIATE_KHR
  | None => chooseSwapPresentMode_default
  end.

Definition chooseSwapPresentMode_case_1
    (availablePresentModes : list VkPresentModeKHR) : VkPresentModeKHR :=
  match std_find availablePresentModes VK_PRESENT_MODE_MAILBOX_KHR with
  | Some _ => VK_PRESENT_MODE_MAILBOX_KHR
  | None => chooseSwapPresentMode_case_0 availablePresentModes
  end.

Definition chooseSwapPresentMode_case_m1
    (availablePresentModes : list VkPresentModeKHR) : VkPresentModeKHR :=
  match std_find availablePresentModes VK_PRESENT_MODE_FIFO_RELAXED_KHR with
  | Some _ => VK_PRESENT_MODE_FIFO_RELAXED_KHR
  | None => chooseSwapPresentMode_case_1 availablePresentModes
  end.

(** [vsync] is what [Vulkan::getVsync()] returns: -1 adaptive, 1 on, 0 off. *)
Definition chooseSwapPresentMode (vsync : Z)
    (availablePresentModes : list VkPresentModeKHR) : VkPresentModeKHR :=
  if decide (vsync = -1) then chooseSwapPresentMode_case_m1 availablePresentModes
  else if decide (vsync = 1) then chooseSwapPresentMode_case_1 availablePresentModes
  else if decide (vsync = 0) then chooseSwapPresentMode_case_0 availablePresentModes
  else chooseSwapPresentMode_default.

Definition vsync_adaptive : Z := -1.
Definition vsync_on : Z := 1.
Definition vsync_off : Z := 0.

(** ** Rating and picking the physical device *)

Inductive VkPhysicalDeviceType : Type :=
| VK_PHYSICAL_DEVICE_TYPE_OTHER
| VK_PHYSICAL_DEVICE_TYPE_INTEGRATED_GPU
| VK_PHYSICAL_DEVICE_TYPE_DISCRETE_GPU
| VK_PHYSICAL_DEVICE_TYPE_VIRTUAL_GPU
| VK_PHYSICAL_DEVICE_TYPE_CPU.

#[global] Instance VkPhysicalDeviceType_eq_dec : EqDecision VkPhysicalDeviceType.
Proof. solve_decision. Defined.

Definition VK_QUEUE_GRAPHICS_BIT : Z := 1.

(** One queue family as the two queries of [findQueueFamilies] see it:
    [vkGetPhysicalDeviceQueueFamilyProperties] gives the flags,
    [vkGetPhysicalDeviceSurfaceSupportKHR] says whether it can present. *)
Record QueueFamily : Type := {
  queueFlags : Z;
  presentSupport : bool;
}.

Record VkSurfaceFormatKHR : Type := {
  format : Z;
  colorSpace : Z;
}.

(** What the driver reports about one [VkPhysicalDevice] (and the surface):
    the answers to the queries made by [rateDeviceSuitability] and the
    functions it calls. *)
Record VkPhysicalDevice : Type := {
  deviceName : string;
  deviceType : VkPhysicalDeviceType;
  samplerAnisotropy : bool;
  fillModeNonSolid : bool;
  queueFamilies : list QueueFamily;
  availableExtensions : list string;
  formats : list VkSurfaceFormatKHR;
  presentModes : list VkPresentModeKHR;
}.

(** [QueueFamilyIndices] holds two [std::optional<uint32_t>]. *)
Record QueueFamilyIndices : Type := {
  graphicsFamily : option Z;
  presentFamily : option Z;
}.

(** Modelled from the spec: [QueueFamilyIndices::isComplete] is declared in
    Graphics.h, which is not among the sources.  A device is disqualified
    when "it lacks a queue family supporting both graphics and presentation
    (may be two different families)": the indices are complete when both
    families have been found. *)
Definition isComplete (indices : QueueFamilyIndices) : bool :=
  bool_decide (is_Some (graphicsFamily indices))
  && bool_decide (is_Some (presentFamily indices)).

(** The range-for of [findQueueFamilies], with its counter [i] and its
    [break]. *)
Fixpoint findQueueFamilies_loop (families : list QueueFamily) (i : Z)
    (indices : QueueFamilyIndices) : QueueFamilyIndices :=
  match families with
  | [] => indices
  | queueFamily :: rest =>
      let indices :=
        if has_flag (queueFlags queueFamily) VK_QUEUE_GRAPHICS_BIT
        then {| graphicsFamily := Some i; presentFamily := presentFamily indices |}
        else indices in
      let indices :=
        if presentSupport queueFamily
        then {| graphicsFamily := graphicsFamily indices; presentFamily := Some i |}
        else indices in
      if isComplete indices then indices
      else findQueueFamilies_loop rest (i + 1) indices
  end.

Definition findQueueFamilies (device : VkPhysicalDevice) : QueueFamilyIndices :=
  findQueueFamilies_loop (queueFamilies device) 0
    {| graphicsFamily := None; presentFamily := None |}.

Definition VK_KHR_SWAPCHAIN_EXTENSION_NAME : string := "VK_KHR_swapchain".

Definition deviceExtensions : list string := [VK_KHR_SWAPCHAIN_EXTENSION_NAME].

(** The required names are put in a [std::set]; every available name is
    erased from it; the device supports them all when nothing is left. *)
Definition checkDeviceExtensionSupport (device : VkPhysicalDevice) : bool :=
  let requiredExtensions : gset string := list_to_set deviceExtensions in
  let requiredExtensions :=
    foldl (λ required extension, required ∖ {[extension]})
      requiredExtensions (availableExtensions device) in
  bool_decide (requiredExtensions = ∅).

(** The score is kept in a local variable that the successive tests
    overwrite. *)
Definition rateDeviceSuitability (device : VkPhysicalDevice) : Z :=
  let score := 1 in
  let score :=
    if decide (deviceType device = VK_PHYSICAL_DEVICE_TYPE_DISCRETE_GPU)
    then score + 1000 else score in
  let score :=
    if decide (deviceType device = VK_PHYSICAL_DEVICE_TYPE_INTEGRATED_GPU)
    then score + 100 else score in
  let score :=
    if decide (deviceType device = VK_PHYSICAL_DEVICE_TYPE_VIRTUAL_GPU)
    then score + 10 else score in
  let indices := findQueueFamilies device in
  let score := if negb (isComplete indices) then 0 else score in
  let extensionsSupported := checkDeviceExtensionSupport device in
  let score := if negb extensionsSupported then 0 else score in
  let score :=
    if extensionsSupported then
      let swapChainAdequate :=
        negb (bool_decide (formats device = []))
        && negb (bool_decide (presentModes device = [])) in
      if negb swapChainAdequate then 0 else score
    else score in
  let score := if negb (samplerAnisotropy device) then 0 else score in
  let score := if negb (fillModeNonSolid device) then 0 else score in
  score.

(** [std::multimap<int, VkPhysicalDevice>::insert]: the entries are kept in
    the order of their keys, a new entry going after the entries with an
    equal key. *)
Fixpoint multimap_insert {V : Type} (candidates : list (Z * V)) (entry : Z * V)
    : list (Z * V) :=
  match candidates with
  | [] => [entry]
  | c :: rest =>
      if decide (entry.1 < c.1) then entry :: c :: rest
      else c :: multimap_insert rest entry
  end.

(** [candidates.rbegin()]: the last entry. *)
Definition rbegin {V : Type} (candidates : list (Z * V)) : option (Z * V) :=
  last candidates.

(** [devices] is what [vkEnumeratePhysicalDevices] lists.  The function
    returns the device it stores in [physicalDevice]. *)
Definition pickPhysicalDevice (devices : list VkPhysicalDevice)
    : outcome VkPhysicalDevice :=
  if decide (length devices = 0%nat) then
    Throws (love_Exception "failed to find GPUs with Vulkan support")
  else
    let candidates :=
      foldl (λ candidates device,
               multimap_insert candidates (rateDeviceSuitability device, device))
        [] devices in
    match rbegin candidates with
    | Some (score, device) =>
        if decide (score > 0) then Returns device
        else Throws (love_Exception "failed to find a suitable gpu")
    | None => Throws (love_Exception "failed to find a suitable gpu")
    end.

(** ** Floats and colours *)

Definition float : Type := spec_float.

(** [0.0f] and [1.0f] (24 bits of mantissa: 1.0f is 2^23 * 2^-23). *)
Definition float_0 : float := S754_zero false.
Definition float_1 : float := S754_finite false 8388608 (-23).

(** [std::max(a, b)] is [(a < b) ? b : a] and [std::min(a, b)] is
    [(b < a) ? b : a]. *)
Definition std_max (a b : float) : float := if SFltb a b then b else a.
Definition std_min (a b : float) : float := if SFltb b a then b else a.

(** [a != b] on floats. *)
Definition float_ne (a b : float) : bool := negb (SFeqb a b).

Definition is_nan (f : float) : bool :=
  match f with S754_nan => true | _ => false end.

(** [0 <= f <= 1]. *)
Definition in_unit_interval (f : float) : bool :=
  SFleb float_0 f && SFleb f float_1.

Module Colorf.
Record t : Type := mk { r : float; g : float; b : float; a : float }.
End Colorf.

Module ColorChannelMask.
Record t : Type := mk { r : bool; g : bool; b : bool; a : bool }.
End ColorChannelMask.

Inductive Winding : Type := WINDING_CW | WINDING_CCW.

Inductive CullMode : Type := CULL_NONE | CULL_BACK | CULL_FRONT.

Inductive PrimitiveType : Type :=
| PRIMITIVE_TRIANGLES
| PRIMITIVE_TRIANGLE_STRIP
| PRIMITIVE_TRIANGLE_FAN
| PRIMITIVE_POINTS.

(** [BlendState] with the fields that [createGraphicsPipeline] reads; the
    operations and factors are kept as the values of their enumerations. *)
Record BlendState : Type := {
  operationRGB : Z;
  operationA : Z;
  srcFactorRGB : Z;
  srcFactorA : Z;
  dstFactorRGB : Z;
  dstFactorA : Z;
  enable : bool;
}.

Module Rect.
Record t : Type := mk { x : Z; y : Z; w : Z; h : Z }.
End Rect.

(** The top of the stack of display states, [states.back()], with the
    fields this backend reads and writes. *)
Record DisplayState : Type := {
  color : Colorf.t;
  blend : BlendState;
  colorMask : ColorChannelMask.t;
  winding : Winding;
  scissor : bool;
  scissorRect : Rect.t;
  wireframe : bool;
  pointSize : float;
}.

(** ** Vertex layouts *)

Record VertexAttributeInfo : Type := {
  bufferIndex : Z;        (* uint8 *)
  attrib_format : Z;      (* DataFormat *)
  offsetFromVertex : Z;   (* uint16 *)
}.

Record VertexBufferLayout : Type := {
  stride : Z;             (* uint16 *)
}.

(** [VertexAttributes]: two bit sets and two arrays of [MAX] entries. *)
Record VertexAttributes : Type := {
  enableBits : Z;
  instanceBits : Z;
  attribs : list VertexAttributeInfo;
  bufferLayouts : list VertexBufferLayout;
}.

Definition VkBuffer : Type := Z.

Record BufferInfo : Type := {
  buffer : VkBuffer;      (* buffer->getHandle() *)
  offset : Z;
}.

Record BufferBindings : Type := {
  useBits : Z;
  info : list BufferInfo;
}.

(** Constants and conversions that the functions below use and that are
    declared in headers which are not among the sources (common/int.h,
    graphics/vertex.h, Vulkan.h, graphics/Graphics.h).  The embedding takes
    them as parameters. *)
Class LoveHeaders : Type := {
  LOVE_UINT16_MAX : Z;
  ATTRIB_COLOR : nat;
  VertexAttributes_MAX : nat;
  getVulkanVertexFormat : Z → Z;
  gammaCorrectColor : Colorf.t → Colorf.t;
}.

(** The values of love's headers: [LOVE_UINT16_MAX] is the largest value of
    a 16-bit unsigned integer, [0xFFFF]; the built-in attributes are
    position, texture coordinates and colour, in this order; a layout has
    room for 32 attributes.  Without gamma correction
    [gammaCorrectColor] leaves a colour as it is. *)
Definition love_headers : LoveHeaders := {|
  LOVE_UINT16_MAX := 65535;
  ATTRIB_COLOR := 2;
  VertexAttributes_MAX := 32;
  getVulkanVertexFormat := λ f, f;
  gammaCorrectColor := λ c, c;
|}.

Inductive VkVertexInputRate : Type :=
| VK_VERTEX_INPUT_RATE_VERTEX
| VK_VERTEX_INPUT_RATE_INSTANCE.

Record VkVertexInputBindingDescription : Type := {
  vb_binding : Z;
  vb_stride : Z;
  vb_inputRate : VkVertexInputRate;
}.

Record VkVertexInputAttributeDescription : Type := {
  va_location : Z;
  va_binding : Z;
  va_format : Z;
  va_offset : Z;
}.

Definition VK_FORMAT_R32G32B32A32_SFLOAT : Z := 109.

(** [a[i]] for an array kept as a list. *)
Definition at_index {A : Type} (d : A) (a : list A) (i : Z) : A :=
  default d (a !! Z.to_nat i).

Definition VertexAttributeInfo_zero : VertexAttributeInfo :=
  {| bufferIndex := 0; attrib_format := 0; offsetFromVertex := 0 |}.

Definition VertexBufferLayout_zero : VertexBufferLayout := {| stride := 0 |}.

Definition BufferInfo_zero : BufferInfo := {| buffer := 0; offset := 0 |}.

(** The locals of [createVulkanVertexFormat] that its loop updates, with the
    two output vectors. *)
Record VertexFormatLoop : Type := {
  usedBuffers : gset Z;
  usesColor : bool;
  highestBufferBinding : Z;
  bindingDescriptions : list VkVertexInputBindingDescription;
  attributeDescriptions : list VkVertexInputAttributeDescription;
}.

Section VertexFormat.
Context `{LoveHeaders}.

Definition usesConstantVertexColor (vertexAttributes : VertexAttributes) : bool :=
  has_bit (enableBits vertexAttributes) (Z.of_nat ATTRIB_COLOR).

(** One round of the loop over the attribute slots, for slot [i]. *)
Definition createVulkanVertexFormat_body (vertexAttributes : VertexAttributes)
    (st : VertexFormatLoop) (i : nat) : VertexFormatLoop :=
  let allBits := enableBits vertexAttributes in
  if has_bit allBits (Z.of_nat i) then
    let usesColor' := if decide (i = ATTRIB_COLOR) then true else usesColor st in
    let attrib := at_index VertexAttributeInfo_zero (attribs vertexAttributes) (Z.of_nat i) in
    let bufferBinding := bufferIndex attrib in
    let fresh := bool_decide (bufferBinding ∉ usedBuffers st) in
    let bindingDescription := {|
      vb_binding := bufferBinding;
      vb_stride :=
        stride (at_index VertexBufferLayout_zero (bufferLayouts vertexAttributes) bufferBinding);
      vb_inputRate :=
        if has_bit (instanceBits vertexAttributes) bufferBinding
        then VK_VERTEX_INPUT_RATE_INSTANCE else VK_VERTEX_INPUT_RATE_VERTEX |} in
    let attributeDescription := {|
      va_location := Z.of_nat i;
      va_binding := bufferBinding;
      va_format := getVulkanVertexFormat (attrib_format attrib);
      va_offset := offsetFromVertex attrib |} in
    {| usedBuffers :=
         if fresh then {[bufferBinding]} ∪ usedBuffers st else usedBuffers st;
       usesColor := usesColor';
       highestBufferBinding :=
         if fresh then Z.max (highestBufferBinding st) bufferBinding
         else highestBufferBinding st;
       bindingDescriptions :=
         if fresh then bindingDescriptions st ++ [bindingDescription]
         else bindingDescriptions st;
       attributeDescriptions := attributeDescriptions st ++ [attributeDescription] |}
  else st.

(** The state of the locals when the loop is left. *)
Definition createVulkanVertexFormat_loop (vertexAttributes : VertexAttributes)
    : VertexFormatLoop :=
  foldl (createVulkanVertexFormat_body vertexAttributes)
    {| usedBuffers := ∅; usesColor := false; highestBufferBinding := 0;
       bindingDescriptions := []; attributeDescriptions := [] |}
    (seq 0 VertexAttributes_MAX).

(** The binding and the attribute that are added when the layout has no
    colour attribute. *)
Definition constantColorBinding (constantColorBufferBinding : Z)
    : VkVertexInputBindingDescription :=
  {| vb_binding := constantColorBufferBinding;
     vb_stride := 0;
     vb_inputRate := VK_VERTEX_INPUT_RATE_VERTEX |}.

Definition constantColorAttribute (constantColorBufferBinding : Z)
    : VkVertexInputAttributeDescription :=
  {| va_location := Z.of_nat ATTRIB_COLOR;
     va_binding := constantColorBufferBinding;
     va_format := VK_FORMAT_R32G32B32A32_SFLOAT;
     va_offset := 0 |}.

(** The two vectors are passed in empty by [createGraphicsPipeline], the
    only caller; the function returns what it has pushed onto them. *)
Definition createVulkanVertexFormat (vertexAttributes : VertexAttributes)
    : list VkVertexInputBindingDescription
      * list VkVertexInputAttributeDescription :=
  let st := createVulkanVertexFormat_loop vertexAttributes in
  if negb (usesColor st) then
    let constantColorBufferBinding := highestBufferBinding st + 1 in
    (bindingDescriptions st ++ [constantColorBinding constantColorBufferBinding],
     attributeDescriptions st ++ [constantColorAttribute constantColorBufferBinding])
  else (bindingDescriptions st, attributeDescriptions st).

(** The loop of [prepareDraw] over the buffer slots: the handles and the
    offsets of the buffers in use, in the order of their slots. *)
Definition prepareDraw_buffers (buffers : BufferBindings)
    : list VkBuffer * list Z :=
  foldl (λ '(bufferVector, offsets) i,
           if has_bit (useBits buffers) (Z.of_nat i) then
             let bi := at_index BufferInfo_zero (info buffers) (Z.of_nat i) in
             (bufferVector ++ [buffer bi], offsets ++ [offset bi])
           else (bufferVector, offsets))
    ([], []) (seq 0 VertexAttributes_MAX).
End VertexFormat.

(** [static_cast<float>] of an unsigned integer: rounding to the nearest
    single-precision value. *)
Definition float_of_uint32 (w : Z) : float := binary_normalize 24 128 w 0 false.

(** ** Handles, cache keys and recorded calls *)

Definition VK_NULL_HANDLE : Z := 0.
Definition VkRenderPass : Type := Z.
Definition VkFramebuffer : Type := Z.
Definition VkPipeline : Type := Z.
Definition VkSampler : Type := Z.
Definition VkImage : Type := Z.
Definition VkImageView : Type := Z.

(** A [Shader*], by its identity. *)
Definition Shader : Type := Z.

(** A vulkan [Texture], by what its getters return: [getHandle],
    [getRenderTargetHandle] and the internal format that
    [Vulkan::getTextureFormat] gives for its pixel format. *)
Record Texture : Type := {
  tex_handle : VkImage;
  tex_renderTargetHandle : VkImageView;
  tex_internalFormat : Z;
}.

(** A deferred clean-up, [std::function<void()>], by its identity.  What a
    closure does when it is called is not visible to [Graphics.cpp]: the
    call is recorded in the trace and leaves the members of the backend as
    they are. *)
Definition CleanUp : Type := nat.

Inductive VkResult : Type :=
| VK_SUCCESS
| VK_NOT_READY
| VK_TIMEOUT
| VK_SUBOPTIMAL_KHR
| VK_ERROR_OUT_OF_DATE_KHR
| VK_ERROR_OUT_OF_HOST_MEMORY
| VK_ERROR_OUT_OF_DEVICE_MEMORY
| VK_ERROR_DEVICE_LOST
| VK_ERROR_SURFACE_LOST_KHR.

#[global] Instance VkResult_eq_dec : EqDecision VkResult.
Proof. solve_decision. Defined.

Inductive VkImageLayout : Type :=
| VK_IMAGE_LAYOUT_UNDEFINED
| VK_IMAGE_LAYOUT_COLOR_ATTACHMENT_OPTIMAL
| VK_IMAGE_LAYOUT_SHADER_READ_ONLY_OPTIMAL
| VK_IMAGE_LAYOUT_PRESENT_SRC_KHR.

Record RenderPassConfiguration : Type := {
  frameBufferFormat : Z;
}.

Record FramebufferConfiguration : Type := {
  fb_renderPass : VkRenderPass;
  fb_imageView : VkImageView;
  fb_width : Z;
  fb_height : Z;
}.

(** [SamplerState] with the fields that [createSampler] reads. *)
Record SamplerState : Type := {
  minFilter : Z;
  magFilter : Z;
  mipmapFilter : Z;
  wrapU : Z;
  wrapV : Z;
  wrapW : Z;
  lodBias : float;
  maxAnisotropy : Z;
  minLod : Z;
  maxLod : Z;
  depthSampleMode : option Z;
}.

Record GraphicsPipelineConfiguration : Type := {
  renderPass : VkRenderPass;
  vertexAttributes : VertexAttributes;
  shader : Shader;
  primitiveType : PrimitiveType;
  wireFrame : bool;
  blendState : BlendState;
  colorChannelMask : ColorChannelMask.t;
  cfg_winding : Winding;
  cullmode : CullMode;
  viewportWidth : float;
  viewportHeight : float;
  cfg_scissorRect : option Rect.t;
}.

(** The keys of the four caches are compared field by field ("keyed by
    structural-equality of their configuration"); the comparison and the
    hash functions themselves are declared in Graphics.h. *)
#[global] Instance spec_float_eq_dec : EqDecision spec_float.
Proof. solve_decision. Defined.
#[global] Instance spec_float_countable : Countable spec_float.
Proof.
  refine (inj_countable'
    (λ f, match f with
          | S754_zero s => inl (inl s)
          | S754_infinity s => inl (inr s)
          | S754_nan => inr (inl ())
          | S754_finite s m e => inr (inr (s, m, e))
          end)
    (λ c, match c with
          | inl (inl s) => S754_zero s
          | inl (inr s) => S754_infinity s
          | inr (inl _) => S754_nan
          | inr (inr (s, m, e)) => S754_finite s m e
          end) _).
  by intros [].
Defined.

#[global] Instance Winding_eq_dec : EqDecision Winding.
Proof. solve_decision. Defined.
#[global] Instance Winding_countable : Countable Winding.
Proof.
  refine (inj_countable'
    (λ w, match w with WINDING_CW => false | WINDING_CCW => true end)
    (λ c, if c then WINDING_CCW else WINDING_CW) _).
  by intros [].
Defined.

#[global] Instance CullMode_eq_dec : EqDecision CullMode.
Proof. solve_decision. Defined.
#[global] Instance CullMode_countable : Countable CullMode.
Proof.
  refine (inj_countable'
    (λ m, match m with CULL_NONE => 0%nat | CULL_BACK => 1%nat | CULL_FRONT => 2%nat end)
    (λ n, match n with 0%nat => CULL_NONE | 1%nat => CULL_BACK | _ => CULL_FRONT end) _).
  by intros [].
Defined.

#[global] Instance PrimitiveType_eq_dec : EqDecision PrimitiveType.
Proof. solve_decision. Defined.
#[global] Instance PrimitiveType_countable : Countable PrimitiveType.
Proof.
  refine (inj_countable'
    (λ p, match p with
          | PRIMITIVE_TRIANGLES => 0%nat
          | PRIMITIVE_TRIANGLE_STRIP => 1%nat
          | PRIMITIVE_TRIANGLE_FAN => 2%nat
          | PRIMITIVE_POINTS => 3%nat
          end)
    (λ n, match n with
          | 0%nat => PRIMITIVE_TRIANGLES
          | 1%nat => PRIMITIVE_TRIANGLE_STRIP
          | 2%nat => PRIMITIVE_TRIANGLE_FAN
          | _ => PRIMITIVE_POINTS
          end) _).
  by intros [].
Defined.

#[global] Instance Colorf_eq_dec : EqDecision Colorf.t.
Proof. solve_decision. Defined.

#[global] Instance ColorChannelMask_eq_dec : EqDecision ColorChannelMask.t.
Proof. solve_decision. Defined.
#[global] Instance ColorChannelMask_countable : Countable ColorChannelMask.t.
Proof.
  refine (inj_countable'
    (λ m, (ColorChannelMask.r m, ColorChannelMask.g m,
           ColorChannelMask.b m, ColorChannelMask.a m))
    (λ '(r, g, b, a), ColorChannelMask.mk r g b a) _).
  by intros [].
Defined.

#[global] Instance Rect_eq_dec : EqDecision Rect.t.
Proof. solve_decision. Defined.
#[global] Instance Rect_countable : Countable Rect.t.
Proof.
  refine (inj_countable'
    (λ q, (Rect.x q, Rect.y q, Rect.w q, Rect.h q))
    (λ '(x, y, w, h), Rect.mk x y w h) _).
  by intros [].
Defined.

#[global] Instance BlendState_eq_dec : EqDecision BlendState.
Proof. solve_decision. Defined.
#[global] Instance BlendState_countable : Countable BlendState.
Proof.
  refine (inj_countable'
    (λ s, (operationRGB s, operationA s, srcFactorRGB s, srcFactorA s,
           dstFactorRGB s, dstFactorA s, enable s))
    (λ '(o1, o2, s1, s2, d1, d2, e),
       Build_BlendState o1 o2 s1 s2 d1 d2 e) _).
  by intros [].
Defined.

#[global] Instance DisplayState_eq_dec : EqDecision DisplayState.
Proof. solve_decision. Defined.

#[global] Instance VertexAttributeInfo_eq_dec : EqDecision VertexAttributeInfo.
Proof. solve_decision. Defined.
#[global] Instance VertexAttributeInfo_countable : Countable VertexAttributeInfo.
Proof.
  refine (inj_countable'
    (λ i, (bufferIndex i, attrib_format i, offsetFromVertex i))
    (λ '(b, f, o), Build_VertexAttributeInfo b f o) _).
  by intros [].
Defined.

#[global] Instance VertexBufferLayout_eq_dec : EqDecision VertexBufferLayout.
Proof. solve_decision. Defined.
#[global] Instance VertexBufferLayout_countable : Countable VertexBufferLayout.
Proof.
  refine (inj_countable' stride Build_VertexBufferLayout _).
  by intros [].
Defined.

#[global] Instance VertexAttributes_eq_dec : EqDecision VertexAttributes.
Proof. solve_decision. Defined.
#[global] Instance VertexAttributes_countable : Countable VertexAttributes.
Proof.
  refine (inj_countable'
    (λ v, (enableBits v, instanceBits v, attribs v, bufferLayouts v))
    (λ '(e, i, a, l), Build_VertexAttributes e i a l) _).
  by intros [].
Defined.

#[global] Instance RenderPassConfiguration_eq_dec : EqDecision RenderPassConfiguration.
Proof. solve_decision. Defined.
#[global] Instance RenderPassConfiguration_countable : Countable RenderPassConfiguration.
Proof.
  refine (inj_countable' frameBufferFormat Build_RenderPassConfiguration _).
  by intros [].
Defined.

#[global] Instance FramebufferConfiguration_eq_dec : EqDecision FramebufferConfiguration.
Proof. solve_decision. Defined.
#[global] Instance FramebufferConfiguration_countable : Countable FramebufferConfiguration.
Proof.
  refine (inj_countable'
    (λ c, (fb_renderPass c, fb_imageView c, fb_width c, fb_height c))
    (λ '(r, i, w, h), Build_FramebufferConfiguration r i w h) _).
  by intros [].
Defined.

#[global] Instance SamplerState_eq_dec : EqDecision SamplerState.
Proof. solve_decision. Defined.
#[global] Instance SamplerState_countable : Countable SamplerState.
Proof.
  refine (inj_countable'
    (λ s, ((((minFilter s, magFilter s), (mipmapFilter s, wrapU s)),
            ((wrapV s, wrapW s), (lodBias s, maxAnisotropy s))),
           ((minLod s, maxLod s), depthSampleMode s)))
    (λ '((((a1, a2), (a3, a4)), ((a5, a6), (a7, a8))), ((a9, a10), a11)),
       Build_SamplerState a1 a2 a3 a4 a5 a6 a7 a8 a9 a10 a11) _).
  by intros [].
Defined.

#[global] Instance GraphicsPipelineConfiguration_eq_dec :
  EqDecision GraphicsPipelineConfiguration.
Proof. solve_decision. Defined.
#[global] Instance GraphicsPipelineConfiguration_countable :
  Countable GraphicsPipelineConfiguration.
Proof.
  refine (inj_countable'
    (λ c, ((((renderPass c, shader c), (primitiveType c, wireFrame c)),
            ((blendState c, colorChannelMask c), (cfg_winding c, cullmode c))),
           (((viewportWidth c, viewportHeight c), cfg_scissorRect c),
            vertexAttributes c)))
    (λ '((((a1, a3), (a4, a5)), ((a6, a7), (a8, a9))), (((a10, a11), a12), a2)),
       Build_GraphicsPipelineConfiguration a1 a2 a3 a4 a5 a6 a7 a8 a9 a10 a11 a12) _).
  by intros [].
Defined.

(** The part of [Shader::BuiltinUniformData] that does not come from the
    transformation stack: the point size stored in [normalMatrix[1].w], the
    size of the screen and the constant colour.  (The three matrices are
    computed by the base class and by [Matrix4] from state that this file
    never writes; they are left out.) *)
Record BuiltinUniformData : Type := {
  normalMatrix_1_w : float;
  screenSizeParams_x : float;
  screenSizeParams_y : float;
  constantColor : Colorf.t;
}.

(** What [createGraphicsPipeline] hands to [vkCreateGraphicsPipelines]. *)
Record VkGraphicsPipelineCreateInfo : Type := {
  ci_shader : Shader;
  ci_vertexBindingDescriptions : list VkVertexInputBindingDescription;
  ci_vertexAttributeDescriptions : list VkVertexInputAttributeDescription;
  ci_topology : PrimitiveType;
  ci_viewport : float * float;
  ci_scissor_offset : Z * Z;
  ci_scissor_extent : Z * Z;
  ci_polygonMode : bool;
  ci_cullMode : CullMode;
  ci_frontFace : Winding;
  ci_colorWriteMask : ColorChannelMask.t;
  ci_blend : BlendState;
  ci_renderPass : VkRenderPass;
}.

Record VkSurfaceCapabilitiesKHR : Type := {
  minImageCount : Z;
  maxImageCount : Z;
  currentExtent : Z * Z;
  minImageExtent : Z * Z;
  maxImageExtent : Z * Z;
  currentTransform : Z;
}.

Record SwapChainSupportDetails : Type := {
  capabilities : VkSurfaceCapabilitiesKHR;
  support_formats : list VkSurfaceFormatKHR;
  support_presentModes : list VkPresentModeKHR;
}.

Record VkSwapchainCreateInfoKHR : Type := {
  sci_minImageCount : Z;
  sci_imageFormat : Z;
  sci_imageColorSpace : Z;
  sci_imageExtent : Z * Z;
  sci_preTransform : Z;
  sci_presentMode : VkPresentModeKHR;
}.

(** The calls that the backend makes, in the order in which it makes them:
    commands recorded into the command buffer of a frame slot, calls on
    queues, fences and the swap chain, calls into the current shader, calls
    of deferred clean-ups.  A fence is named by the frame slot it belongs
    to; a command buffer by its slot and by whether it is the data transfer
    buffer. *)
Inductive Event : Type :=
| CmdBindPipeline (slot : nat) (pipeline : VkPipeline)
| CmdBindVertexBuffers (slot : nat) (firstBinding : Z)
    (buffers : list VkBuffer) (offsets : list Z)
| CmdBindIndexBuffer (slot : nat) (indexBuffer : VkBuffer) (offset : Z)
    (indexType : VkIndexType)
| CmdDraw (slot : nat) (vertexCount instanceCount firstVertex firstInstance : Z)
| CmdDrawIndexed (slot : nat)
    (indexCount instanceCount firstIndex vertexOffset firstInstance : Z)
| CmdBeginRenderPass (slot : nat) (renderPass : VkRenderPass)
    (framebuffer : VkFramebuffer) (w h : Z)
| CmdEndRenderPass (slot : nat)
| CmdTransitionImageLayout (slot : nat) (image : VkImage)
    (oldLayout newLayout : VkImageLayout)
| SetUniformData (shader : Shader) (data : BuiltinUniformData)
| SetMainTex (shader : Shader) (texture : Texture)
| CmdPushDescriptorSets (shader : Shader) (slot : nat) (frameIndex : Z)
| ResetShaderSwitches
| WaitForFences (fence : nat)
| ResetFences (fence : nat)
| AcquireNextImage (semaphore : nat) (result : VkResult) (index : nat)
| BeginCommandBuffer (transfer : bool) (slot : nat) (result : VkResult)
| EndCommandBuffer (transfer : bool) (slot : nat) (result : VkResult)
| QueueSubmit (slot : nat) (result : VkResult)
| QueuePresent (index : nat) (result : VkResult)
| DeviceWaitIdle
| DestroyFramebuffer (framebuffer : VkFramebuffer)
| DestroyImageView (imageView : VkImageView)
| DestroySwapchain
| CreateSwapchain (createInfo : VkSwapchainCreateInfoKHR) (result : VkResult)
| CreateImageView (image : VkImage) (result : VkResult) (imageView : VkImageView)
| CreateRenderPass (configuration : RenderPassConfiguration)
    (result : VkResult) (created : VkRenderPass)
| CreateFramebuffer (configuration : FramebufferConfiguration)
    (result : VkResult) (created : VkFramebuffer)
| CreateSampler (samplerState : SamplerState)
    (result : VkResult) (created : VkSampler)
| CreateGraphicsPipelines (createInfo : VkGraphicsPipelineCreateInfo)
    (result : VkResult) (created : VkPipeline)
| StreamBufferNextFrame (streamBuffer : VkBuffer)
| FlushBatchedDraws (state : DisplayState) (pending : nat)
| CleanUpFn (cleanUp : CleanUp).

(** The driver (and, for the size of the window, SDL): what each call that
    gives something back answers, as a function of the calls made so far. *)
Class Driver : Type := {
  vkAcquireNextImageKHR : list Event → VkResult * nat;
  vkBeginCommandBuffer : list Event → bool → nat → VkResult;
  vkEndCommandBuffer : list Event → bool → nat → VkResult;
  vkQueueSubmit : list Event → VkResult;
  vkQueuePresentKHR : list Event → VkResult;
  querySwapChainSupport : list Event → SwapChainSupportDetails;
  SDL_Vulkan_GetDrawableSize : list Event → Z * Z;
  vkCreateSwapchainKHR : list Event → VkSwapchainCreateInfoKHR → VkResult;
  vkGetSwapchainImagesKHR : list Event → list VkImage;
  vkCreateImageView : list Event → VkImage → VkResult * VkImageView;
  vkCreateRenderPass : list Event → RenderPassConfiguration → VkResult * VkRenderPass;
  vkCreateFramebuffer : list Event → FramebufferConfiguration → VkResult * VkFramebuffer;
  vkCreateSampler : list Event → SamplerState → VkResult * VkSampler;
  vkCreateGraphicsPipelines :
    list Event → VkGraphicsPipelineCreateInfo → VkResult * VkPipeline;
}.

(** ** The backend *)

Definition MAX_FRAMES_IN_FLIGHT : nat := 2.

(** The stream buffers of one frame slot, by their handles. *)
Record BatchedDrawBuffers : Type := {
  vertexBuffer1 : VkBuffer;
  vertexBuffer2 : VkBuffer;
  indexBuffer : VkBuffer;
  constantColorBuffer : VkBuffer;
}.

Record SwapChain : Type := {
  swapChainImages : list VkImage;
  swapChainImageViews : list VkImageView;
  swapChainImageFormat : Z;
  swapChainExtent : Z * Z;
}.

(** The members of [Graphics] (and of its base class, and the two globals
    [Shader::current] and the vsync setting of [Vulkan]) that the embedded
    functions read or write, with the [trace] of the calls made so far.

    Modelled from the spec: the batched draw state lives in the base class,
    whose source is not included; [batchedDrawState_pending] is the number
    of batched draws that are waiting to be flushed. *)
Record Graphics : Type := mkGraphics {
  active : bool;
  states_back : DisplayState;
  batchedDrawState_pending : nat;
  Shader_current : Shader;
  Vulkan_vsync : Z;
  standardTexture : Texture;
  quadIndexBuffer : VkBuffer;
  batchedDrawBuffers : list BatchedDrawBuffers;
  currentFrame : nat;
  imageIndex : nat;
  framebufferResized : bool;
  imagesInFlight : list (option nat);
  cleanUpFunctions : list (list CleanUp);
  swapChain : SwapChain;
  renderPasses : gmap RenderPassConfiguration VkRenderPass;
  framebuffers : gmap FramebufferConfiguration VkFramebuffer;
  graphicsPipelines : gmap GraphicsPipelineConfiguration VkPipeline;
  samplers : gmap SamplerState VkSampler;
  currentRenderPass : VkRenderPass;
  currentGraphicsPipeline : VkPipeline;
  renderTargetTexture : option Texture;
  currentViewportWidth : float;
  currentViewportHeight : float;
  trace : list Event;
}.

(** The assignments to single members. *)

Definition set_states_back (v : DisplayState) (g : Graphics) : Graphics :=
  {| active := active g; states_back := v;
     batchedDrawState_pending := batchedDrawState_pending g;
     Shader_current := Shader_current g; Vulkan_vsync := Vulkan_vsync g;
     standardTexture := standardTexture g;
     quadIndexBuffer := quadIndexBuffer g;
     batchedDrawBuffers := batchedDrawBuffers g;
     currentFrame := currentFrame g; imageIndex := imageIndex g;
     framebufferResized := framebufferResized g;
     imagesInFlight := imagesInFlight g;
     cleanUpFunctions := cleanUpFunctions g; swapChain := swapChain g;
     renderPasses := renderPasses g; framebuffers := framebuffers g;
     graphicsPipelines := graphicsPipelines g; samplers := samplers g;
     currentRenderPass := currentRenderPass g;
     currentGraphicsPipeline := currentGraphicsPipeline g;
     renderTargetTexture := renderTargetTexture g;
     currentViewportWidth := currentViewportWidth g;
     currentViewportHeight := currentViewportHeight g; trace := trace g |}.

Definition set_batchedDrawState_pending (v : nat) (g : Graphics) : Graphics :=
  {| active := active g; states_back := states_back g;
     batchedDrawState_pending := v; Shader_current := Shader_current g;
     Vulkan_vsync := Vulkan_vsync g; standardTexture := standardTexture g;
     quadIndexBuffer := quadIndexBuffer g;
     batchedDrawBuffers := batchedDrawBuffers g;
     currentFrame := currentFrame g; imageIndex := imageIndex g;
     framebufferResized := framebufferResized g;
     imagesInFlight := imagesInFlight g;
     cleanUpFunctions := cleanUpFunctions g; swapChain := swapChain g;
     renderPasses := renderPasses g; framebuffers := framebuffers g;
     graphicsPipelines := graphicsPipelines g; samplers := samplers g;
     currentRenderPass := currentRenderPass g;
     currentGraphicsPipeline := currentGraphicsPipeline g;
     renderTargetTexture := renderTargetTexture g;
     currentViewportWidth := currentViewportWidth g;
     currentViewportHeight := currentViewportHeight g; trace := trace g |}.

Definition set_currentFrame (v : nat) (g : Graphics) : Graphics :=
  {| active := active g; states_back := states_back g;
     batchedDrawState_pending := batchedDrawState_pending g;
     Shader_current := Shader_current g; Vulkan_vsync := Vulkan_vsync g;
     standardTexture := standardTexture g;
     quadIndexBuffer := quadIndexBuffer g;
     batchedDrawBuffers := batchedDrawBuffers g; currentFrame := v;
     imageIndex := imageIndex g; framebufferResized := framebufferResized g;
     imagesInFlight := imagesInFlight g;
     cleanUpFunctions := cleanUpFunctions g; swapChain := swapChain g;
     renderPasses := renderPasses g; framebuffers := framebuffers g;
     graphicsPipelines := graphicsPipelines g; samplers := samplers g;
     currentRenderPass := currentRenderPass g;
     currentGraphicsPipeline := currentGraphicsPipeline g;
     renderTargetTexture := renderTargetTexture g;
     currentViewportWidth := currentViewportWidth g;
     currentViewportHeight := currentViewportHeight g; trace := trace g |}.

Definition set_imageIndex (v : nat) (g : Graphics) : Graphics :=
  {| active := active g; states_back := states_back g;
     batchedDrawState_pending := batchedDrawState_pending g;
     Shader_current := Shader_current g; Vulkan_vsync := Vulkan_vsync g;
     standardTexture := standardTexture g;
     quadIndexBuffer := quadIndexBuffer g;
     batchedDrawBuffers := batchedDrawBuffers g;
     currentFrame := currentFrame g; imageIndex := v;
     framebufferResized := framebufferResized g;
     imagesInFlight := imagesInFlight g;
     cleanUpFunctions := cleanUpFunctions g; swapChain := swapChain g;
     renderPasses := renderPasses g; framebuffers := framebuffers g;
     graphicsPipelines := graphicsPipelines g; samplers := samplers g;
     currentRenderPass := currentRenderPass g;
     currentGraphicsPipeline := currentGraphicsPipeline g;
     renderTargetTexture := renderTargetTexture g;
     currentViewportWidth := currentViewportWidth g;
     currentViewportHeight := currentViewportHeight g; trace := trace g |}.

Definition set_framebufferResized (v : bool) (g : Graphics) : Graphics :=
  {| active := active g; states_back := states_back g;
     batchedDrawState_pending := batchedDrawState_pending g;
     Shader_current := Shader_current g; Vulkan_vsync := Vulkan_vsync g;
     standardTexture := standardTexture g;
     quadIndexBuffer := quadIndexBuffer g;
     batchedDrawBuffers := batchedDrawBuffers g;
     currentFrame := currentFrame g; imageIndex := imageIndex g;
     framebufferResized := v; imagesInFlight := imagesInFlight g;
     cleanUpFunctions := cleanUpFunctions g; swapChain := swapChain g;
     renderPasses := renderPasses g; framebuffers := framebuffers g;
     graphicsPipelines := graphicsPipelines g; samplers := samplers g;
     currentRenderPass := currentRenderPass g;
     currentGraphicsPipeline := currentGraphicsPipeline g;
     renderTargetTexture := renderTargetTexture g;
     currentViewportWidth := currentViewportWidth g;
     currentViewportHeight := currentViewportHeight g; trace := trace g |}.

Definition set_imagesInFlight (v : list (option nat))
    (g : Graphics) : Graphics :=
  {| active := active g; states_back := states_back g;
     batchedDrawState_pending := batchedDrawState_pending g;
     Shader_current := Shader_current g; Vulkan_vsync := Vulkan_vsync g;
     standardTexture := standardTexture g;
     quadIndexBuffer := quadIndexBuffer g;
     batchedDrawBuffers := batchedDrawBuffers g;
     currentFrame := currentFrame g; imageIndex := imageIndex g;
     framebufferResized := framebufferResized g; imagesInFlight := v;
     cleanUpFunctions := cleanUpFunctions g; swapChain := swapChain g;
     renderPasses := renderPasses g; framebuffers := framebuffers g;
     graphicsPipelines := graphicsPipelines g; samplers := samplers g;
     currentRenderPass := currentRenderPass g;
     currentGraphicsPipeline := currentGraphicsPipeline g;
     renderTargetTexture := renderTargetTexture g;
     currentViewportWidth := currentViewportWidth g;
     currentViewportHeight := currentViewportHeight g; trace := trace g |}.

Definition set_cleanUpFunctions (v : list (list CleanUp))
    (g : Graphics) : Graphics :=
  {| active := active g; states_back := states_back g;
     batchedDrawState_pending := batchedDrawState_pending g;
     Shader_current := Shader_current g; Vulkan_vsync := Vulkan_vsync g;
     standardTexture := standardTexture g;
     quadIndexBuffer := quadIndexBuffer g;
     batchedDrawBuffers := batchedDrawBuffers g;
     currentFrame := currentFrame g; imageIndex := imageIndex g;
     framebufferResized := framebufferResized g;
     imagesInFlight := imagesInFlight g; cleanUpFunctions := v;
     swapChain := swapChain g; renderPasses := renderPasses g;
     framebuffers := framebuffers g;
     graphicsPipelines := graphicsPipelines g; samplers := samplers g;
     currentRenderPass := currentRenderPass g;
     currentGraphicsPipeline := currentGraphicsPipeline g;
     renderTargetTexture := renderTargetTexture g;
     currentViewportWidth := currentViewportWidth g;
     currentViewportHeight := currentViewportHeight g; trace := trace g |}.

Definition set_swapChain (v : SwapChain) (g : Graphics) : Graphics :=
  {| active := active g; states_back := states_back g;
     batchedDrawState_pending := batchedDrawState_pending g;
     Shader_current := Shader_current g; Vulkan_vsync := Vulkan_vsync g;
     standardTexture := standardTexture g;
     quadIndexBuffer := quadIndexBuffer g;
     batchedDrawBuffers := batchedDrawBuffers g;
     currentFrame := currentFrame g; imageIndex := imageIndex g;
     framebufferResized := framebufferResized g;
     imagesInFlight := imagesInFlight g;
     cleanUpFunctions := cleanUpFunctions g; swapChain := v;
     renderPasses := renderPasses g; framebuffers := framebuffers g;
     graphicsPipelines := graphicsPipelines g; samplers := samplers g;
     currentRenderPass := currentRenderPass g;
     currentGraphicsPipeline := currentGraphicsPipeline g;
     renderTargetTexture := renderTargetTexture g;
     currentViewportWidth := currentViewportWidth g;
     currentViewportHeight := currentViewportHeight g; trace := trace g |}.

Definition set_renderPasses (v : gmap RenderPassConfiguration VkRenderPass)
    (g : Graphics) : Graphics :=
  {| active := active g; states_back := states_back g;
     batchedDrawState_pending := batchedDrawState_pending g;
     Shader_current := Shader_current g; Vulkan_vsync := Vulkan_vsync g;
     standardTexture := standardTexture g;
     quadIndexBuffer := quadIndexBuffer g;
     batchedDrawBuffers := batchedDrawBuffers g;
     currentFrame := currentFrame g; imageIndex := imageIndex g;
     framebufferResized := framebufferResized g;
     imagesInFlight := imagesInFlight g;
     cleanUpFunctions := cleanUpFunctions g; swapChain := swapChain g;
     renderPasses := v; framebuffers := framebuffers g;
     graphicsPipelines := graphicsPipelines g; samplers := samplers g;
     currentRenderPass := currentRenderPass g;
     currentGraphicsPipeline := currentGraphicsPipeline g;
     renderTargetTexture := renderTargetTexture g;
     currentViewportWidth := currentViewportWidth g;
     currentViewportHeight := currentViewportHeight g; trace := trace g |}.

Definition set_framebuffers (v : gmap FramebufferConfiguration VkFramebuffer)
    (g : Graphics) : Graphics :=
  {| active := active g; states_back := states_back g;
     batchedDrawState_pending := batchedDrawState_pending g;
     Shader_current := Shader_current g; Vulkan_vsync := Vulkan_vsync g;
     standardTexture := standardTexture g;
     quadIndexBuffer := quadIndexBuffer g;
     batchedDrawBuffers := batchedDrawBuffers g;
     currentFrame := currentFrame g; imageIndex := imageIndex g;
     framebufferResized := framebufferResized g;
     imagesInFlight := imagesInFlight g;
     cleanUpFunctions := cleanUpFunctions g; swapChain := swapChain g;
     renderPasses := renderPasses g; framebuffers := v;
     graphicsPipelines := graphicsPipelines g; samplers := samplers g;
     currentRenderPass := currentRenderPass g;
     currentGraphicsPipeline := currentGraphicsPipeline g;
     renderTargetTexture := renderTargetTexture g;
     currentViewportWidth := currentViewportWidth g;
     currentViewportHeight := currentViewportHeight g; trace := trace g |}.

Definition set_graphicsPipelines (v : gmap GraphicsPipelineConfiguration VkPipeline)
    (g : Graphics) : Graphics :=
  {| active := active g; states_back := states_back g;
     batchedDrawState_pending := batchedDrawState_pending g;
     Shader_current := Shader_current g; Vulkan_vsync := Vulkan_vsync g;
     standardTexture := standardTexture g;
     quadIndexBuffer := quadIndexBuffer g;
     batchedDrawBuffers := batchedDrawBuffers g;
     currentFrame := currentFrame g; imageIndex := imageIndex g;
     framebufferResized := framebufferResized g;
     imagesInFlight := imagesInFlight g;
     cleanUpFunctions := cleanUpFunctions g; swapChain := swapChain g;
     renderPasses := renderPasses g; framebuffers := framebuffers g;
     graphicsPipelines := v; samplers := samplers g;
     currentRenderPass := currentRenderPass g;
     currentGraphicsPipeline := currentGraphicsPipeline g;
     renderTargetTexture := renderTargetTexture g;
     currentViewportWidth := currentViewportWidth g;
     currentViewportHeight := currentViewportHeight g; trace := trace g |}.

Definition set_samplers (v : gmap SamplerState VkSampler)
    (g : Graphics) : Graphics :=
  {| active := active g; states_back := states_back g;
     batchedDrawState_pending := batchedDrawState_pending g;
     Shader_current := Shader_current g; Vulkan_vsync := Vulkan_vsync g;
     standardTexture := standardTexture g;
     quadIndexBuffer := quadIndexBuffer g;
     batchedDrawBuffers := batchedDrawBuffers g;
     currentFrame := currentFrame g; imageIndex := imageIndex g;
     framebufferResized := framebufferResized g;
     imagesInFlight := imagesInFlight g;
     cleanUpFunctions := cleanUpFunctions g; swapChain := swapChain g;
     renderPasses := renderPasses g; framebuffers := framebuffers g;
     graphicsPipelines := graphicsPipelines g; samplers := v;
     currentRenderPass := currentRenderPass g;
     currentGraphicsPipeline := currentGraphicsPipeline g;
     renderTargetTexture := renderTargetTexture g;
     currentViewportWidth := currentViewportWidth g;
     currentViewportHeight := currentViewportHeight g; trace := trace g |}.

Definition set_currentRenderPass (v : VkRenderPass) (g : Graphics) : Graphics :=
  {| active := active g; states_back := states_back g;
     batchedDrawState_pending := batchedDrawState_pending g;
     Shader_current := Shader_current g; Vulkan_vsync := Vulkan_vsync g;
     standardTexture := standardTexture g;
     quadIndexBuffer := quadIndexBuffer g;
     batchedDrawBuffers := batchedDrawBuffers g;
     currentFrame := currentFrame g; imageIndex := imageIndex g;
     framebufferResized := framebufferResized g;
     imagesInFlight := imagesInFlight g;
     cleanUpFunctions := cleanUpFunctions g; swapChain := swapChain g;
     renderPasses := renderPasses g; framebuffers := framebuffers g;
     graphicsPipelines := graphicsPipelines g; samplers := samplers g;
     currentRenderPass := v;
     currentGraphicsPipeline := currentGraphicsPipeline g;
     renderTargetTexture := renderTargetTexture g;
     currentViewportWidth := currentViewportWidth g;
     currentViewportHeight := currentViewportHeight g; trace := trace g |}.

Definition set_currentGraphicsPipeline (v : VkPipeline)
    (g : Graphics) : Graphics :=
  {| active := active g; states_back := states_back g;
     batchedDrawState_pending := batchedDrawState_pending g;
     Shader_current := Shader_current g; Vulkan_vsync := Vulkan_vsync g;
     standardTexture := standardTexture g;
     quadIndexBuffer := quadIndexBuffer g;
     batchedDrawBuffers := batchedDrawBuffers g;
     currentFrame := currentFrame g; imageIndex := imageIndex g;
     framebufferResized := framebufferResized g;
     imagesInFlight := imagesInFlight g;
     cleanUpFunctions := cleanUpFunctions g; swapChain := swapChain g;
     renderPasses := renderPasses g; framebuffers := framebuffers g;
     graphicsPipelines := graphicsPipelines g; samplers := samplers g;
     currentRenderPass := currentRenderPass g; currentGraphicsPipeline := v;
     renderTargetTexture := renderTargetTexture g;
     currentViewportWidth := currentViewportWidth g;
     currentViewportHeight := currentViewportHeight g; trace := trace g |}.

Definition set_renderTargetTexture (v : option Texture)
    (g : Graphics) : Graphics :=
  {| active := active g; states_back := states_back g;
     batchedDrawState_pending := batchedDrawState_pending g;
     Shader_current := Shader_current g; Vulkan_vsync := Vulkan_vsync g;
     standardTexture := standardTexture g;
     quadIndexBuffer := quadIndexBuffer g;
     batchedDrawBuffers := batchedDrawBuffers g;
     currentFrame := currentFrame g; imageIndex := imageIndex g;
     framebufferResized := framebufferResized g;
     imagesInFlight := imagesInFlight g;
     cleanUpFunctions := cleanUpFunctions g; swapChain := swapChain g;
     renderPasses := renderPasses g; framebuffers := framebuffers g;
     graphicsPipelines := graphicsPipelines g; samplers := samplers g;
     currentRenderPass := currentRenderPass g;
     currentGraphicsPipeline := currentGraphicsPipeline g;
     renderTargetTexture := v;
     currentViewportWidth := currentViewportWidth g;
     currentViewportHeight := currentViewportHeight g; trace := trace g |}.

Definition set_currentViewport (v : float * float) (g : Graphics) : Graphics :=
  {| active := active g; states_back := states_back g;
     batchedDrawState_pending := batchedDrawState_pending g;
     Shader_current := Shader_current g; Vulkan_vsync := Vulkan_vsync g;
     standardTexture := standardTexture g;
     quadIndexBuffer := quadIndexBuffer g;
     batchedDrawBuffers := batchedDrawBuffers g;
     currentFrame := currentFrame g; imageIndex := imageIndex g;
     framebufferResized := framebufferResized g;
     imagesInFlight := imagesInFlight g;
     cleanUpFunctions := cleanUpFunctions g; swapChain := swapChain g;
     renderPasses := renderPasses g; framebuffers := framebuffers g;
     graphicsPipelines := graphicsPipelines g; samplers := samplers g;
     currentRenderPass := currentRenderPass g;
     currentGraphicsPipeline := currentGraphicsPipeline g;
     renderTargetTexture := renderTargetTexture g;
     currentViewportWidth := v.1; currentViewportHeight := v.2;
     trace := trace g |}.

Definition set_trace (v : list Event) (g : Graphics) : Graphics :=
  {| active := active g; states_back := states_back g;
     batchedDrawState_pending := batchedDrawState_pending g;
     Shader_current := Shader_current g; Vulkan_vsync := Vulkan_vsync g;
     standardTexture := standardTexture g;
     quadIndexBuffer := quadIndexBuffer g;
     batchedDrawBuffers := batchedDrawBuffers g;
     currentFrame := currentFrame g; imageIndex := imageIndex g;
     framebufferResized := framebufferResized g;
     imagesInFlight := imagesInFlight g;
     cleanUpFunctions := cleanUpFunctions g; swapChain := swapChain g;
     renderPasses := renderPasses g; framebuffers := framebuffers g;
     graphicsPipelines := graphicsPipelines g; samplers := samplers g;
     currentRenderPass := currentRenderPass g;
     currentGraphicsPipeline := currentGraphicsPipeline g;
     renderTargetTexture := renderTargetTexture g;
     currentViewportWidth := currentViewportWidth g;
     currentViewportHeight := currentViewportHeight g; trace := v |}.

(** ** Member functions as state transformers *)

Inductive Res (A : Type) : Type :=
| Done (a : A) (g : Graphics)
| Thrown (e : Exception) (g : Graphics)
| Unfinished.
Arguments Done {A} a g.
Arguments Thrown {A} e g.
Arguments Unfinished {A}.

Definition M (A : Type) : Type := Graphics → Res A.

#[global] Instance M_ret : MRet M := λ A a g, Done a g.
#[global] Instance M_bind : MBind M := λ A B k m g,
  match m g with
  | Done a g' => k a g'
  | Thrown e g' => Thrown e g'
  | Unfinished => Unfinished
  end.

Definition get : M Graphics := λ g, Done g g.
Definition modify (f : Graphics → Graphics) : M unit := λ g, Done () (f g).
Definition throw {A : Type} (what : string) : M A :=
  λ g, Thrown (love_Exception what) g.
Definition lift_outcome {A : Type} (o : outcome A) : M A :=
  λ g, match o with Returns a => Done a g | Throws e => Thrown e g end.

(** The call [e] is made. *)
Definition emit (e : Event) : M unit :=
  modify (λ g, set_trace (trace g ++ [e]) g).

(** [for (auto x : xs) body(x);] *)
Fixpoint for_each {A : Type} (xs : list A) (body : A → M unit) : M unit :=
  match xs with
  | [] => mret ()
  | x :: xs' => body x;; for_each xs' body
  end.

(** [std::vector::at] throws [std::out_of_range] past the end. *)
Definition vector_at {A : Type} (v : list A) (i : nat) : M A :=
  match v !! i with
  | Some x => mret x
  | None => λ g, Thrown std_out_of_range g
  end.

Definition set_color (v : Colorf.t) (s : DisplayState) : DisplayState :=
  {| color := v; blend := blend s; colorMask := colorMask s; winding := winding s;
     scissor := scissor s; scissorRect := scissorRect s; wireframe := wireframe s;
     pointSize := pointSize s |}.
Definition set_blend (v : BlendState) (s : DisplayState) : DisplayState :=
  {| color := color s; blend := v; colorMask := colorMask s; winding := winding s;
     scissor := scissor s; scissorRect := scissorRect s; wireframe := wireframe s;
     pointSize := pointSize s |}.
Definition set_colorMask (v : ColorChannelMask.t) (s : DisplayState) : DisplayState :=
  {| color := color s; blend := blend s; colorMask := v; winding := winding s;
     scissor := scissor s; scissorRect := scissorRect s; wireframe := wireframe s;
     pointSize := pointSize s |}.
Definition set_winding (v : Winding) (s : DisplayState) : DisplayState :=
  {| color := color s; blend := blend s; colorMask := colorMask s; winding := v;
     scissor := scissor s; scissorRect := scissorRect s; wireframe := wireframe s;
     pointSize := pointSize s |}.
Definition set_scissor (v : bool) (s : DisplayState) : DisplayState :=
  {| color := color s; blend := blend s; colorMask := colorMask s; winding := winding s;
     scissor := v; scissorRect := scissorRect s; wireframe := wireframe s;
     pointSize := pointSize s |}.
Definition set_scissorRect (v : Rect.t) (s : DisplayState) : DisplayState :=
  {| color := color s; blend := blend s; colorMask := colorMask s; winding := winding s;
     scissor := scissor s; scissorRect := v; wireframe := wireframe s;
     pointSize := pointSize s |}.
Definition set_wireframe (v : bool) (s : DisplayState) : DisplayState :=
  {| color := color s; blend := blend s; colorMask := colorMask s; winding := winding s;
     scissor := scissor s; scissorRect := scissorRect s; wireframe := v;
     pointSize := pointSize s |}.
Definition set_pointSize (v : float) (s : DisplayState) : DisplayState :=
  {| color := color s; blend := blend s; colorMask := colorMask s; winding := winding s;
     scissor := scissor s; scissorRect := scissorRect s; wireframe := wireframe s;
     pointSize := v |}.

Definition set_swapChainImages (v : list VkImage) (s : SwapChain) : SwapChain :=
  {| swapChainImages := v; swapChainImageViews := swapChainImageViews s;
     swapChainImageFormat := swapChainImageFormat s;
     swapChainExtent := swapChainExtent s |}.
Definition set_swapChainImageViews (v : list VkImageView) (s : SwapChain) : SwapChain :=
  {| swapChainImages := swapChainImages s; swapChainImageViews := v;
     swapChainImageFormat := swapChainImageFormat s;
     swapChainExtent := swapChainExtent s |}.
Definition set_swapChainImageFormat (v : Z) (s : SwapChain) : SwapChain :=
  {| swapChainImages := swapChainImages s;
     swapChainImageViews := swapChainImageViews s;
     swapChainImageFormat := v; swapChainExtent := swapChainExtent s |}.
Definition set_swapChainExtent (v : Z * Z) (s : SwapChain) : SwapChain :=
  {| swapChainImages := swapChainImages s;
     swapChainImageViews := swapChainImageViews s;
     swapChainImageFormat := swapChainImageFormat s; swapChainExtent := v |}.

(** The arguments of the three draw entry points. *)
Record DrawCommand : Type := {
  dc_attributes : VertexAttributes;
  dc_buffers : BufferBindings;
  dc_texture : option Texture;
  dc_primitiveType : PrimitiveType;
  dc_cullMode : CullMode;
  dc_vertexStart : Z;
  dc_vertexCount : Z;
  dc_instanceCount : Z;
}.

Record DrawIndexedCommand : Type := {
  dic_attributes : VertexAttributes;
  dic_buffers : BufferBindings;
  dic_texture : option Texture;
  dic_primitiveType : PrimitiveType;
  dic_cullMode : CullMode;
  dic_indexType : IndexDataType;
  dic_indexBuffer : VkBuffer;
  dic_indexBufferOffset : Z;
  dic_indexCount : Z;
  dic_instanceCount : Z;
}.

Definition VK_FORMAT_B8G8R8A8_UNORM : Z := 44.
Definition VK_COLOR_SPACE_SRGB_NONLINEAR_KHR : Z := 0.
Definition VK_SURFACE_TRANSFORM_ROTATE_90_BIT_KHR : Z := 2.
Definition VK_SURFACE_TRANSFORM_ROTATE_270_BIT_KHR : Z := 8.
Definition UINT32_MAX : Z := 2 ^ 32 - 1.

Definition VkSurfaceFormatKHR_zero : VkSurfaceFormatKHR :=
  {| format := 0; colorSpace := 0 |}.

Fixpoint chooseSwapSurfaceFormat_loop (availableFormats : list VkSurfaceFormatKHR)
    : option VkSurfaceFormatKHR :=
  match availableFormats with
  | [] => None
  | availableFormat :: rest =>
      if bool_decide (format availableFormat = VK_FORMAT_B8G8R8A8_UNORM)
         && bool_decide (colorSpace availableFormat = VK_COLOR_SPACE_SRGB_NONLINEAR_KHR)
      then Some availableFormat
      else chooseSwapSurfaceFormat_loop rest
  end.

Definition chooseSwapSurfaceFormat (availableFormats : list VkSurfaceFormatKHR)
    : VkSurfaceFormatKHR :=
  match chooseSwapSurfaceFormat_loop availableFormats with
  | Some availableFormat => availableFormat
  | None => at_index VkSurfaceFormatKHR_zero availableFormats 0
  end.

(** [std::clamp(v, lo, hi)]. *)
Definition std_clamp (v lo hi : Z) : Z :=
  if v <? lo then lo else if hi <? v then hi else v.

(** [drawable] is the size that [SDL_Vulkan_GetDrawableSize] reports. *)
Definition chooseSwapExtent (capabilities : VkSurfaceCapabilitiesKHR)
    (drawable : Z * Z) : Z * Z :=
  if negb ((currentExtent capabilities).1 =? UINT32_MAX) then
    currentExtent capabilities
  else
    (std_clamp (to_uint32 drawable.1) (minImageExtent capabilities).1
       (maxImageExtent capabilities).1,
     std_clamp (to_uint32 drawable.2) (minImageExtent capabilities).2
       (maxImageExtent capabilities).2).

Section Backend.
Context `{LoveHeaders} `{Driver}.

(** [commandBuffers.at(currentFrame)], and likewise for the other vectors
    that have one entry per frame slot: the slot, or [std::out_of_range]. *)
Definition at_currentFrame : M nat :=
  g ← get;
  if decide (currentFrame g < MAX_FRAMES_IN_FLIGHT)%nat then mret (currentFrame g)
  else λ g, Thrown std_out_of_range g.

(** Modelled from the spec: [flushBatchedDraws] belongs to the base class,
    whose source is not included.  It "flushes any pending batched draws":
    when draws are pending they are submitted under the display state that
    is current at this moment, and none is pending afterwards. *)
Definition flushBatchedDraws : M unit :=
  g ← get;
  if decide (batchedDrawState_pending g = 0%nat) then mret ()
  else
    emit (FlushBatchedDraws (states_back g) (batchedDrawState_pending g));;
    modify (set_batchedDrawState_pending 0).

(** *** Object caches *)

Definition createFramebuffer (configuration : FramebufferConfiguration)
    : M VkFramebuffer :=
  g ← get;
  let '(result, frameBuffer) := vkCreateFramebuffer (trace g) configuration in
  emit (CreateFramebuffer configuration result frameBuffer);;
  if decide (result ≠ VK_SUCCESS) then throw "failed to create framebuffer"
  else mret frameBuffer.

Definition getFramebuffer (configuration : FramebufferConfiguration)
    : M VkFramebuffer :=
  g ← get;
  match framebuffers g !! configuration with
  | Some it_second => mret it_second
  | None =>
      framebuffer ← createFramebuffer configuration;
      modify (λ g, set_framebuffers (<[configuration := framebuffer]> (framebuffers g)) g);;
      mret framebuffer
  end.

Definition createRenderPass (configuration : RenderPassConfiguration)
    : M VkRenderPass :=
  g ← get;
  let '(result, renderPass) := vkCreateRenderPass (trace g) configuration in
  emit (CreateRenderPass configuration result renderPass);;
  if decide (result ≠ VK_SUCCESS) then throw "failed to create render pass"
  else mret renderPass.

Definition createSampler (samplerState : SamplerState) : M VkSampler :=
  g ← get;
  let '(result, sampler) := vkCreateSampler (trace g) samplerState in
  emit (CreateSampler samplerState result sampler);;
  if decide (result ≠ VK_SUCCESS) then throw "failed to create sampler"
  else mret sampler.

(** [samplers.insert({k, v})] only runs when [k] has not been found, where
    it adds the entry. *)
Definition getCachedSampler (samplerState : SamplerState) : M VkSampler :=
  g ← get;
  match samplers g !! samplerState with
  | Some it_second => mret it_second
  | None =>
      sampler ← createSampler samplerState;
      modify (λ g, set_samplers (<[samplerState := sampler]> (samplers g)) g);;
      mret sampler
  end.

Definition createGraphicsPipeline (configuration : GraphicsPipelineConfiguration)
    : M VkPipeline :=
  g ← get;
  let '(bindingDescriptions, attributeDescriptions) :=
    createVulkanVertexFormat (vertexAttributes configuration) in
  let scissor :=
    match cfg_scissorRect configuration with
    | Some rect =>
        ((Rect.x rect, Rect.y rect),
         (to_uint32 (Rect.w rect), to_uint32 (Rect.h rect)))
    | None => ((0, 0), swapChainExtent (swapChain g))
    end in
  let pipelineInfo := {|
    ci_shader := shader configuration;
    ci_vertexBindingDescriptions := bindingDescriptions;
    ci_vertexAttributeDescriptions := attributeDescriptions;
    ci_topology := primitiveType configuration;
    ci_viewport := (viewportWidth configuration, viewportHeight configuration);
    ci_scissor_offset := scissor.1;
    ci_scissor_extent := scissor.2;
    ci_polygonMode := wireFrame configuration;
    ci_cullMode := cullmode configuration;
    ci_frontFace := cfg_winding configuration;
    ci_colorWriteMask := colorChannelMask configuration;
    ci_blend := blendState configuration;
    ci_renderPass := renderPass configuration |} in
  let '(result, graphicsPipeline) := vkCreateGraphicsPipelines (trace g) pipelineInfo in
  emit (CreateGraphicsPipelines pipelineInfo result graphicsPipeline);;
  if decide (result ≠ VK_SUCCESS) then throw "failed to create graphics pipeline"
  else mret graphicsPipeline.

Definition ensureGraphicsPipelineConfiguration
    (configuration : GraphicsPipelineConfiguration) : M unit :=
  g ← get;
  match graphicsPipelines g !! configuration with
  | Some it_second =>
      if decide (it_second ≠ currentGraphicsPipeline g) then
        cb ← at_currentFrame;
        emit (CmdBindPipeline cb it_second);;
        modify (set_currentGraphicsPipeline it_second)
      else mret ()
  | None =>
      pipeline ← createGraphicsPipeline configuration;
      modify (λ g, set_graphicsPipelines
                     (<[configuration := pipeline]> (graphicsPipelines g)) g);;
      cb ← at_currentFrame;
      emit (CmdBindPipeline cb pipeline);;
      modify (set_currentGraphicsPipeline pipeline)
  end.

(** *** Render passes *)

Definition startRenderPass (texture : option Texture) (w h : Z) : M unit :=
  g ← get;
  let renderPassConfiguration := {|
    frameBufferFormat :=
      match texture with
      | Some t => tex_internalFormat t
      | None => swapChainImageFormat (swapChain g)
      end |} in
  modify (set_renderTargetTexture texture);;
  renderPass ←
    match renderPasses g !! renderPassConfiguration with
    | Some it_second => mret it_second
    | None =>
        renderPass ← createRenderPass renderPassConfiguration;
        modify (λ g, set_renderPasses
                       (<[renderPassConfiguration := renderPass]> (renderPasses g)) g);;
        mret renderPass
    end;
  imageView ←
    match texture with
    | None => g ← get; vector_at (swapChainImageViews (swapChain g)) (imageIndex g)
    | Some t => mret (tex_renderTargetHandle t)
    end;
  let configuration := {|
    fb_renderPass := renderPass; fb_imageView := imageView;
    fb_width := w; fb_height := h |} in
  framebuffer ← getFramebuffer configuration;
  match texture with
  | Some t =>
      cb ← at_currentFrame;
      emit (CmdTransitionImageLayout cb (tex_handle t)
              VK_IMAGE_LAYOUT_SHADER_READ_ONLY_OPTIMAL
              VK_IMAGE_LAYOUT_COLOR_ATTACHMENT_OPTIMAL)
  | None => mret ()
  end;;
  cb ← at_currentFrame;
  emit (CmdBeginRenderPass cb renderPass framebuffer w h);;
  modify (set_currentRenderPass renderPass);;
  modify (set_currentGraphicsPipeline VK_NULL_HANDLE);;
  modify (set_currentViewport (float_of_uint32 w, float_of_uint32 h)).

Definition endRenderPass : M unit :=
  cb ← at_currentFrame;
  emit (CmdEndRenderPass cb);;
  modify (set_currentRenderPass VK_NULL_HANDLE);;
  g ← get;
  match renderTargetTexture g with
  | Some t =>
      cb ← at_currentFrame;
      emit (CmdTransitionImageLayout cb (tex_handle t)
              VK_IMAGE_LAYOUT_COLOR_ATTACHMENT_OPTIMAL
              VK_IMAGE_LAYOUT_SHADER_READ_ONLY_OPTIMAL);;
      modify (set_renderTargetTexture None)
  | None => mret ()
  end.

(** [rts] lists the textures of [rts.colors]. *)
Definition setRenderTargetsInternal (rts : list Texture) (pixelw pixelh : Z)
    : M unit :=
  endRenderPass;;
  match rts with
  | [] =>
      g ← get;
      startRenderPass None (swapChainExtent (swapChain g)).1
        (swapChainExtent (swapChain g)).2
  | firstRenderTarget :: _ =>
      startRenderPass (Some firstRenderTarget) (to_uint32 pixelw) (to_uint32 pixelh)
  end.

(** *** The swap chain *)

(** The map keeps its entries: the framebuffers are destroyed, not
    forgotten. *)
Definition cleanupSwapChain : M unit :=
  g ← get;
  for_each (map_to_list (framebuffers g)) (λ kv, emit (DestroyFramebuffer kv.2));;
  for_each (swapChainImageViews (swapChain g)) (λ v, emit (DestroyImageView v));;
  emit DestroySwapchain.

(** The rotation matrix [displayRotation], which only enters the
    projection matrix, is left out with the matrices of the uniform data. *)
Definition createSwapChain : M unit :=
  g ← get;
  let swapChainSupport := querySwapChainSupport (trace g) in
  let caps := capabilities swapChainSupport in
  let surfaceFormat := chooseSwapSurfaceFormat (support_formats swapChainSupport) in
  let presentMode :=
    chooseSwapPresentMode (Vulkan_vsync g) (support_presentModes swapChainSupport) in
  let extent := chooseSwapExtent caps (SDL_Vulkan_GetDrawableSize (trace g)) in
  let extent :=
    if has_flag (currentTransform caps) VK_SURFACE_TRANSFORM_ROTATE_90_BIT_KHR
       || has_flag (currentTransform caps) VK_SURFACE_TRANSFORM_ROTATE_270_BIT_KHR
    then (extent.2, extent.1) else extent in
  let imageCount := to_uint32 (minImageCount caps + 1) in
  let imageCount :=
    if (0 <? maxImageCount caps) && (maxImageCount caps <? imageCount)
    then maxImageCount caps else imageCount in
  let createInfo := {|
    sci_minImageCount := imageCount;
    sci_imageFormat := format surfaceFormat;
    sci_imageColorSpace := colorSpace surfaceFormat;
    sci_imageExtent := extent;
    sci_preTransform := currentTransform caps;
    sci_presentMode := presentMode |} in
  let result := vkCreateSwapchainKHR (trace g) createInfo in
  emit (CreateSwapchain createInfo result);;
  if decide (result ≠ VK_SUCCESS) then throw "failed to create swap chain"
  else
    g ← get;
    modify (λ g, set_swapChain
      (set_swapChainExtent extent
         (set_swapChainImageFormat (format surfaceFormat)
            (set_swapChainImages (vkGetSwapchainImagesKHR (trace g)) (swapChain g)))) g).

(** [swapChainImageViews.resize(n)] keeps the first [n] views and fills up
    with null handles. *)
Definition createImageViews : M unit :=
  modify (λ g, set_swapChain
    (set_swapChainImageViews
       (take (length (swapChainImages (swapChain g)))
          (swapChainImageViews (swapChain g)
           ++ replicate (length (swapChainImages (swapChain g))) VK_NULL_HANDLE))
       (swapChain g)) g);;
  g ← get;
  for_each (seq 0 (length (swapChainImages (swapChain g)))) (λ i,
    g ← get;
    image ← vector_at (swapChainImages (swapChain g)) i;
    let '(result, view) := vkCreateImageView (trace g) image in
    emit (CreateImageView image result view);;
    if decide (result ≠ VK_SUCCESS) then throw "failed to create image views"
    else
      modify (λ g, set_swapChain
        (set_swapChainImageViews (<[i := view]> (swapChainImageViews (swapChain g)))
           (swapChain g)) g)).

Definition recreateSwapChain : M unit :=
  emit DeviceWaitIdle;;
  cleanupSwapChain;;
  createSwapChain;;
  createImageViews.
(** *** Preparing and recording draws *)

(** [getPointSize] and [getColor] of the base class read the current
    display state. *)
Definition getCurrentBuiltinUniformData : M BuiltinUniformData :=
  g ← get;
  mret {|
    normalMatrix_1_w := pointSize (states_back g);
    screenSizeParams_x := float_of_uint32 (swapChainExtent (swapChain g)).1;
    screenSizeParams_y := float_of_uint32 (swapChainExtent (swapChain g)).2;
    constantColor := gammaCorrectColor (color (states_back g)) |}.

Definition BatchedDrawBuffers_zero : BatchedDrawBuffers :=
  {| vertexBuffer1 := 0; vertexBuffer2 := 0; indexBuffer := 0;
     constantColorBuffer := 0 |}.

(** The local [configuration] of [prepareDraw], as it is filled in from the
    arguments and from the members of the backend. *)
Definition prepareDraw_configuration (g : Graphics) (attributes : VertexAttributes)
    (primitiveType : PrimitiveType) (cullmode : CullMode)
    : GraphicsPipelineConfiguration :=
  {| renderPass := currentRenderPass g;
     vertexAttributes := attributes;
     shader := Shader_current g;
     primitiveType := primitiveType;
     wireFrame := wireframe (states_back g);
     blendState := blend (states_back g);
     colorChannelMask := colorMask (states_back g);
     cfg_winding := winding (states_back g);
     cullmode := cullmode;
     viewportWidth := currentViewportWidth g;
     viewportHeight := currentViewportHeight g;
     cfg_scissorRect :=
       if scissor (states_back g) then Some (scissorRect (states_back g))
       else None |}.

(** The locals [bufferVector] and [offsets] of [prepareDraw] when it binds
    them: the buffers in use and, under the test of
    [usesConstantVertexColor], the constant colour buffer of the current
    frame slot. *)
Definition prepareDraw_bufferVector (g : Graphics) (attributes : VertexAttributes)
    (buffers : BufferBindings) : list VkBuffer * list Z :=
  let '(bufferVector, offsets) := prepareDraw_buffers buffers in
  if usesConstantVertexColor attributes then
    (bufferVector
       ++ [constantColorBuffer
             (at_index BatchedDrawBuffers_zero (batchedDrawBuffers g)
                (Z.of_nat (currentFrame g)))],
     offsets ++ [0])
  else (bufferVector, offsets).

Definition prepareDraw (attributes : VertexAttributes) (buffers : BufferBindings)
    (texture : option Texture) (primitiveType : PrimitiveType)
    (cullmode : CullMode) : M unit :=
  g ← get;
  let configuration := prepareDraw_configuration g attributes primitiveType cullmode in
  let bound := prepareDraw_bufferVector g attributes buffers in
  currentUniformData ← getCurrentBuiltinUniformData;
  emit (SetUniformData (shader configuration) currentUniformData);;
  emit (SetMainTex (shader configuration)
          match texture with
          | None => standardTexture g
          | Some t => t
          end);;
  ensureGraphicsPipelineConfiguration configuration;;
  cb ← at_currentFrame;
  emit (CmdPushDescriptorSets (shader configuration) cb
          (to_uint32 (Z.of_nat cb)));;
  cb ← at_currentFrame;
  emit (CmdBindVertexBuffers cb 0 bound.1 bound.2).

Definition draw (cmd : DrawCommand) : M unit :=
  prepareDraw (dc_attributes cmd) (dc_buffers cmd) (dc_texture cmd)
    (dc_primitiveType cmd) (dc_cullMode cmd);;
  cb ← at_currentFrame;
  emit (CmdDraw cb (to_uint32 (dc_vertexCount cmd))
          (to_uint32 (dc_instanceCount cmd)) (to_uint32 (dc_vertexStart cmd)) 0).

Definition draw_indexed (cmd : DrawIndexedCommand) : M unit :=
  prepareDraw (dic_attributes cmd) (dic_buffers cmd) (dic_texture cmd)
    (dic_primitiveType cmd) (dic_cullMode cmd);;
  cb ← at_currentFrame;
  indexType ← lift_outcome (getVulkanIndexBufferType (dic_indexType cmd));
  emit (CmdBindIndexBuffer cb (dic_indexBuffer cmd)
          (dic_indexBufferOffset cmd) indexType);;
  cb ← at_currentFrame;
  emit (CmdDrawIndexed cb (to_uint32 (dic_indexCount cmd))
          (to_uint32 (dic_instanceCount cmd)) 0 0 0).

Definition MAX_VERTICES_PER_DRAW : Z := LOVE_UINT16_MAX.
Definition MAX_QUADS_PER_DRAW : Z := MAX_VERTICES_PER_DRAW ÷ 4.

(** The [for] loop of [drawQuads], entered with the current values of
    [quadindex] and [baseVertex]; [rounds] bounds the number of times the
    body runs. *)
Fixpoint drawQuads_loop (rounds : nat) (count quadindex baseVertex : Z) : M unit :=
  if quadindex <? count then
    match rounds with
    | O => λ _, Unfinished
    | S rounds' =>
        let quadcount := Z.min MAX_QUADS_PER_DRAW (wrap_int (count - quadindex)) in
        cb ← at_currentFrame;
        emit (CmdDrawIndexed cb (to_uint32 (wrap_int (quadcount * 6))) 1 0
                baseVertex 0);;
        drawQuads_loop rounds' count
          (wrap_int (quadindex + MAX_QUADS_PER_DRAW))
          (wrap_int (baseVertex + wrap_int (quadcount * 4)))
    end
  else mret ().

Definition drawQuads (rounds : nat) (start count : Z)
    (attributes : VertexAttributes) (buffers : BufferBindings)
    (texture : option Texture) : M unit :=
  prepareDraw attributes buffers texture PRIMITIVE_TRIANGLES CULL_BACK;;
  cb ← at_currentFrame;
  indexType ← lift_outcome (getVulkanIndexBufferType INDEX_UINT16);
  g ← get;
  emit (CmdBindIndexBuffer cb (quadIndexBuffer g) 0 indexType);;
  let baseVertex := wrap_int (start * 4) in
  drawQuads_loop rounds count 0 baseVertex.

(** *** The setters of the display state *)

Definition setFrontFaceWinding (winding' : Winding) : M unit :=
  g ← get;
  if decide (winding (states_back g) = winding') then mret ()
  else
    flushBatchedDraws;;
    modify (λ g, set_states_back (set_winding winding' (states_back g)) g).

Definition setColorMask (mask : ColorChannelMask.t) : M unit :=
  flushBatchedDraws;;
  modify (λ g, set_states_back (set_colorMask mask (states_back g)) g).

Definition setBlendState (blend' : BlendState) : M unit :=
  flushBatchedDraws;;
  modify (λ g, set_states_back (set_blend blend' (states_back g)) g).

Definition setPointSize (size : float) : M unit :=
  g ← get;
  (if float_ne size (pointSize (states_back g)) then flushBatchedDraws
   else mret ());;
  modify (λ g, set_states_back (set_pointSize size (states_back g)) g).

(** The four components are clamped one after the other, in place. *)
Definition setColor (c : Colorf.t) : M unit :=
  let c := {|
    Colorf.r := std_min (std_max (Colorf.r c) float_0) float_1;
    Colorf.g := std_min (std_max (Colorf.g c) float_0) float_1;
    Colorf.b := std_min (std_max (Colorf.b c) float_0) float_1;
    Colorf.a := std_min (std_max (Colorf.a c) float_0) float_1 |} in
  modify (λ g, set_states_back (set_color c (states_back g)) g).

(** [setScissor(const Rect &)] and [setScissor()]. *)
Definition setScissor (rect : Rect.t) : M unit :=
  flushBatchedDraws;;
  modify (λ g, set_states_back (set_scissor true (states_back g)) g);;
  modify (λ g, set_states_back (set_scissorRect rect (states_back g)) g).

Definition setScissor_off : M unit :=
  flushBatchedDraws;;
  modify (λ g, set_states_back (set_scissor false (states_back g)) g).

Definition setWireframe (enable : bool) : M unit :=
  flushBatchedDraws;;
  modify (λ g, set_states_back (set_wireframe enable (states_back g)) g).

(** *** The ring of frame slots *)

Definition queueCleanUp (cleanUp : CleanUp) : M unit :=
  g ← get;
  queue ← vector_at (cleanUpFunctions g) (currentFrame g);
  modify (λ g, set_cleanUpFunctions
                 (<[currentFrame g := queue ++ [cleanUp]]> (cleanUpFunctions g)) g).

(** The three assignments to [batchedDrawState], a member of the base
    class, are not kept; the calls of [nextFrame] are. *)
Definition updatedBatchedDrawBuffers : M unit :=
  g ← get;
  let buffers :=
    at_index BatchedDrawBuffers_zero (batchedDrawBuffers g)
      (Z.of_nat (currentFrame g)) in
  emit (StreamBufferNextFrame (vertexBuffer1 buffers));;
  emit (StreamBufferNextFrame (vertexBuffer2 buffers));;
  emit (StreamBufferNextFrame (indexBuffer buffers)).

(** The [while (true)] around [vkAcquireNextImageKHR]; [rounds] bounds the
    number of attempts.  The image index is taken over when the driver
    hands out an image. *)
Fixpoint acquireNextImage_loop (rounds : nat) : M unit :=
  match rounds with
  | O => λ _, Unfinished
  | S rounds' =>
      g ← get;
      let '(result, index) := vkAcquireNextImageKHR (trace g) in
      emit (AcquireNextImage (currentFrame g) result index);;
      if decide (result = VK_ERROR_OUT_OF_DATE_KHR) then
        recreateSwapChain;;
        acquireNextImage_loop rounds'
      else if decide (result ≠ VK_SUCCESS ∧ result ≠ VK_SUBOPTIMAL_KHR) then
        throw "failed to acquire swap chain image"
      else modify (set_imageIndex index)
  end.

Definition startRecordingGraphicsCommands (rounds : nat) : M unit :=
  g ← get;
  emit (WaitForFences (currentFrame g));;
  acquireNextImage_loop rounds;;
  g ← get;
  queue ← vector_at (cleanUpFunctions g) (currentFrame g);
  for_each queue (λ cleanUpFn, emit (CleanUpFn cleanUpFn));;
  g ← get;
  _ ← vector_at (cleanUpFunctions g) (currentFrame g);
  modify (λ g, set_cleanUpFunctions
                 (<[currentFrame g := []]> (cleanUpFunctions g)) g);;
  cb ← at_currentFrame;
  g ← get;
  let result := vkBeginCommandBuffer (trace g) false cb in
  emit (BeginCommandBuffer false cb result);;
  if decide (result ≠ VK_SUCCESS) then
    throw "failed to begin recording command buffer"
  else
  cb ← at_currentFrame;
  g ← get;
  let result := vkBeginCommandBuffer (trace g) true cb in
  emit (BeginCommandBuffer true cb result);;
  if decide (result ≠ VK_SUCCESS) then
    throw "failed to begin recording data transfer command buffer"
  else
  cb ← at_currentFrame;
  g ← get;
  emit (CmdTransitionImageLayout cb
          (at_index VK_NULL_HANDLE (swapChainImages (swapChain g))
             (Z.of_nat (imageIndex g)))
          VK_IMAGE_LAYOUT_UNDEFINED VK_IMAGE_LAYOUT_COLOR_ATTACHMENT_OPTIMAL);;
  startRenderPass None (swapChainExtent (swapChain g)).1
    (swapChainExtent (swapChain g)).2;;
  emit ResetShaderSwitches.

Definition endRecordingGraphicsCommands : M unit :=
  endRenderPass;;
  cb ← at_currentFrame;
  g ← get;
  emit (CmdTransitionImageLayout cb
          (at_index VK_NULL_HANDLE (swapChainImages (swapChain g))
             (Z.of_nat (imageIndex g)))
          VK_IMAGE_LAYOUT_COLOR_ATTACHMENT_OPTIMAL VK_IMAGE_LAYOUT_PRESENT_SRC_KHR);;
  cb ← at_currentFrame;
  g ← get;
  let result := vkEndCommandBuffer (trace g) false cb in
  emit (EndCommandBuffer false cb result);;
  if decide (result ≠ VK_SUCCESS) then throw "failed to record command buffer"
  else
  cb ← at_currentFrame;
  g ← get;
  let result := vkEndCommandBuffer (trace g) true cb in
  emit (EndCommandBuffer true cb result);;
  if decide (result ≠ VK_SUCCESS) then
    throw "failed to record data transfer command buffer"
  else mret ().

Definition present (rounds : nat) : M unit :=
  g ← get;
  if negb (active g) then mret ()
  else
    flushBatchedDraws;;
    endRecordingGraphicsCommands;;
    g ← get;
    match default None (imagesInFlight g !! imageIndex g) with
    | Some fence => emit (WaitForFences fence)
    | None => mret ()
    end;;
    modify (λ g, set_imagesInFlight
                   (<[imageIndex g := Some (currentFrame g)]> (imagesInFlight g)) g);;
    slot ← at_currentFrame;
    emit (ResetFences slot);;
    g ← get;
    let submitted := vkQueueSubmit (trace g) in
    emit (QueueSubmit slot submitted);;
    if decide (submitted ≠ VK_SUCCESS) then
      throw "failed to submit draw command buffer"
    else
    g ← get;
    let result := vkQueuePresentKHR (trace g) in
    emit (QueuePresent (imageIndex g) result);;
    (if bool_decide (result = VK_ERROR_OUT_OF_DATE_KHR)
        || bool_decide (result = VK_SUBOPTIMAL_KHR)
        || framebufferResized g
     then
       modify (set_framebufferResized false);;
       recreateSwapChain
     else if decide (result ≠ VK_SUCCESS) then
       throw "failed to present swap chain image"
     else mret ());;
    modify (λ g, set_currentFrame
                   ((currentFrame g + 1) `mod` MAX_FRAMES_IN_FLIGHT)%nat g);;
    updatedBatchedDrawBuffers;;
    startRecordingGraphicsCommands rounds.
End Backend.

(** ** A driver and a backend to run the functions on *)

(** A driver under which every call succeeds: it hands out image 0, and a
    created object gets a handle that no earlier call has returned. *)
Definition fresh_handle (calls : list Event) : Z := Z.of_nat (S (length calls)).

Definition sample_support : SwapChainSupportDetails := {|
  capabilities := {|
    minImageCount := 2; maxImageCount := 3;
    currentExtent := (800, 600);
    minImageExtent := (1, 1); maxImageExtent := (4096, 4096);
    currentTransform := 1 |};
  support_formats := [{| format := 44; colorSpace := 0 |}];
  support_presentModes := [VK_PRESENT_MODE_FIFO_KHR; VK_PRESENT_MODE_MAILBOX_KHR] |}.

Definition ideal_driver : Driver := {|
  vkAcquireNextImageKHR := λ _, (VK_SUCCESS, 0%nat);
  vkBeginCommandBuffer := λ _ _ _, VK_SUCCESS;
  vkEndCommandBuffer := λ _ _ _, VK_SUCCESS;
  vkQueueSubmit := λ _, VK_SUCCESS;
  vkQueuePresentKHR := λ _, VK_SUCCESS;
  querySwapChainSupport := λ _, sample_support;
  SDL_Vulkan_GetDrawableSize := λ _, (800, 600);
  vkCreateSwapchainKHR := λ _ _, VK_SUCCESS;
  vkGetSwapchainImagesKHR := λ _, [11; 12; 13];
  vkCreateImageView := λ _ image, (VK_SUCCESS, image + 10);
  vkCreateRenderPass := λ calls _, (VK_SUCCESS, fresh_handle calls);
  vkCreateFramebuffer := λ calls _, (VK_SUCCESS, fresh_handle calls);
  vkCreateSampler := λ calls _, (VK_SUCCESS, fresh_handle calls);
  vkCreateGraphicsPipelines := λ calls _, (VK_SUCCESS, fresh_handle calls);
|}.

Definition white : Colorf.t := Colorf.mk float_1 float_1 float_1 float_1.

Definition sample_state : DisplayState := {|
  color := white;
  blend := {| operationRGB := 0; operationA := 0; srcFactorRGB := 1;
              srcFactorA := 1; dstFactorRGB := 7; dstFactorA := 7; enable := true |};
  colorMask := ColorChannelMask.mk true true true true;
  winding := WINDING_CCW;
  scissor := false;
  scissorRect := Rect.mk 0 0 0 0;
  wireframe := false;
  pointSize := float_1;
|}.

(** A backend as [setMode] leaves it: slot 0 current, nothing cached, no
    clean-up queued, the first render pass not yet begun. *)
Definition sample_backend : Graphics := {|
  active := true;
  states_back := sample_state;
  batchedDrawState_pending := 0;
  Shader_current := 500;
  Vulkan_vsync := 1;
  standardTexture :=
    {| tex_handle := 600; tex_renderTargetHandle := 601; tex_internalFormat := 37 |};
  quadIndexBuffer := 700;
  batchedDrawBuffers :=
    [ {| vertexBuffer1 := 710; vertexBuffer2 := 711; indexBuffer := 712;
         constantColorBuffer := 713 |};
      {| vertexBuffer1 := 720; vertexBuffer2 := 721; indexBuffer := 722;
         constantColorBuffer := 723 |} ];
  currentFrame := 0;
  imageIndex := 0;
  framebufferResized := false;
  imagesInFlight := [None; None; None];
  cleanUpFunctions := [[]; []];
  swapChain :=
    {| swapChainImages := [11; 12; 13]; swapChainImageViews := [21; 22; 23];
       swapChainImageFormat := 44; swapChainExtent := (800, 600) |};
  renderPasses := ∅;
  framebuffers := ∅;
  graphicsPipelines := ∅;
  samplers := ∅;
  currentRenderPass := VK_NULL_HANDLE;
  currentGraphicsPipeline := VK_NULL_HANDLE;
  renderTargetTexture := None;
  currentViewportWidth := float_0;
  currentViewportHeight := float_0;
  trace := [];
|}.

(** Two vertex layouts over one vertex buffer: positions only, and
    positions with colours.  (The entries of the arrays that are not listed
    are zero.) *)
Definition sample_attribs : list VertexAttributeInfo :=
  [ {| bufferIndex := 0; attrib_format := 103; offsetFromVertex := 0 |};
    {| bufferIndex := 0; attrib_format := 103; offsetFromVertex := 8 |};
    {| bufferIndex := 0; attrib_format := 37; offsetFromVertex := 16 |} ].

Definition sample_layouts : list VertexBufferLayout :=
  [ {| stride := 20 |} ].

Definition layout_position : VertexAttributes := {|
  enableBits := 1; instanceBits := 0;
  attribs := sample_attribs; bufferLayouts := sample_layouts |}.

Definition layout_position_color : VertexAttributes := {|
  enableBits := 5; instanceBits := 0;
  attribs := sample_attribs; bufferLayouts := sample_layouts |}.

Definition sample_buffers : BufferBindings := {|
  useBits := 1;
  info := [ {| buffer := 800; offset := 0 |} ] |}.

(** ** The words of the specification about the rating *)

Definition has_graphics_family (device : VkPhysicalDevice) : Prop :=
  ∃ family, family ∈ queueFamilies device
            ∧ has_flag (queueFlags family) VK_QUEUE_GRAPHICS_BIT = true.

Definition has_present_family (device : VkPhysicalDevice) : Prop :=
  ∃ family, family ∈ queueFamilies device ∧ presentSupport family = true.

Definition has_required_extensions (device : VkPhysicalDevice) : Prop :=
  ∀ extension, extension ∈ deviceExtensions →
               extension ∈ availableExtensions device.

(** The adapter "lacks a queue family supporting both graphics and
    presentation (may be two different families), lacks required
    extensions, lacks adequate presentation format/mode support, or lacks
    two specific required device features". *)
Definition disqualified (device : VkPhysicalDevice) : Prop :=
  ¬ (has_graphics_family device ∧ has_present_family device)
  ∨ ¬ has_required_extensions device
  ∨ formats device = []
  ∨ presentModes device = []
  ∨ samplerAnisotropy device = false
  ∨ fillModeNonSolid device = false.

(** What the kind of the device adds to the base score. *)
Definition deviceTypeBonus (type : VkPhysicalDeviceType) : Z :=
  match type with
  | VK_PHYSICAL_DEVICE_TYPE_DISCRETE_GPU => 1000
  | VK_PHYSICAL_DEVICE_TYPE_INTEGRATED_GPU => 100
  | VK_PHYSICAL_DEVICE_TYPE_VIRTUAL_GPU => 10
  | _ => 0
  end.

(** The score "equals base 1 plus exactly one of +1000 (discrete GPU), +100
    (integrated GPU), or +10 (virtual GPU), and is forced to 0 exactly when"
    the adapter is disqualified. *)
Definition rated_as_claimed (device : VkPhysicalDevice) : Prop :=
  (rateDeviceSuitability device = 0 ↔ disqualified device)
  ∧ (¬ disqualified device →
     (deviceType device = VK_PHYSICAL_DEVICE_TYPE_DISCRETE_GPU
      ∧ rateDeviceSuitability device = 1 + 1000)
     ∨ (deviceType device = VK_PHYSICAL_DEVICE_TYPE_INTEGRATED_GPU
        ∧ rateDeviceSuitability device = 1 + 100)
     ∨ (deviceType device = VK_PHYSICAL_DEVICE_TYPE_VIRTUAL_GPU
        ∧ rateDeviceSuitability device = 1 + 10)).

(** Adapters to rate: a software rasterizer, which reports the device type
    CPU and has everything that is required, and a discrete GPU whose only
    queue family cannot present. *)
Definition software_rasterizer : VkPhysicalDevice := {|
  deviceName := "llvmpipe";
  deviceType := VK_PHYSICAL_DEVICE_TYPE_CPU;
  samplerAnisotropy := true;
  fillModeNonSolid := true;
  queueFamilies := [{| queueFlags := 7; presentSupport := true |}];
  availableExtensions := ["VK_KHR_maintenance1"; "VK_KHR_swapchain"];
  formats := [{| format := 44; colorSpace := 0 |}];
  presentModes := [VK_PRESENT_MODE_FIFO_KHR];
|}.

Definition headless_gpu : VkPhysicalDevice := {|
  deviceName := "compute only";
  deviceType := VK_PHYSICAL_DEVICE_TYPE_DISCRETE_GPU;
  samplerAnisotropy := true;
  fillModeNonSolid := true;
  queueFamilies := [{| queueFlags := 7; presentSupport := false |}];
  availableExtensions := ["VK_KHR_swapchain"];
  formats := [{| format := 44; colorSpace := 0 |}];
  presentModes := [VK_PRESENT_MODE_FIFO_KHR];
|}.

(** ** The words of the specification about present modes *)

(** "Adaptive → relaxed-fifo if available; on → mailbox if available; off →
    immediate if available": the one mode that goes with a preference. *)
Definition preferredPresentMode (vsync : Z) : option VkPresentModeKHR :=
  if decide (vsync = vsync_adaptive) then Some VK_PRESENT_MODE_FIFO_RELAXED_KHR
  else if decide (vsync = vsync_on) then Some VK_PRESENT_MODE_MAILBOX_KHR
  else if decide (vsync = vsync_off) then Some VK_PRESENT_MODE_IMMEDIATE_KHR
  else None.

(** The selection returns the preferred mode when it is available and
    "always falls back to fifo" when it is not. *)
Definition present_mode_as_claimed (vsync : Z)
    (availablePresentModes : list VkPresentModeKHR) : Prop :=
  ∀ preferred,
    preferredPresentMode vsync = Some preferred →
    (preferred ∈ availablePresentModes →
     chooseSwapPresentMode vsync availablePresentModes = preferred)
    ∧ (preferred ∉ availablePresentModes →
       chooseSwapPresentMode vsync availablePresentModes = VK_PRESENT_MODE_FIFO_KHR).

(** ** The words of the specification about colours *)

Definition Colorf_in_unit_interval (c : Colorf.t) : bool :=
  in_unit_interval (Colorf.r c) && in_unit_interval (Colorf.g c)
  && in_unit_interval (Colorf.b c) && in_unit_interval (Colorf.a c).

Definition Colorf_has_nan (c : Colorf.t) : bool :=
  is_nan (Colorf.r c) || is_nan (Colorf.g c)
  || is_nan (Colorf.b c) || is_nan (Colorf.a c).

(** [stored] is [x] clamped into [0, 1]: 0 for a number below 0, 1 for a
    number above 1, and [x] itself when it lies in [0, 1]. *)
Definition clamped_into_unit_interval (x stored : float) : Prop :=
  (SFltb x float_0 = true → stored = float_0)
  ∧ (SFltb float_1 x = true → stored = float_1)
  ∧ (in_unit_interval x = true → stored = x).

Definition Colorf_clamped (c stored : Colorf.t) : Prop :=
  clamped_into_unit_interval (Colorf.r c) (Colorf.r stored)
  ∧ clamped_into_unit_interval (Colorf.g c) (Colorf.g stored)
  ∧ clamped_into_unit_interval (Colorf.b c) (Colorf.b stored)
  ∧ clamped_into_unit_interval (Colorf.a c) (Colorf.a stored).

(** "Each of the four stored components of the current render state's
    color is clamped into [0, 1] before being stored": whatever the colour
    passed to [setColor]. *)
Definition setColor_clamps_as_claimed (c : Colorf.t) : Prop :=
  ∀ g : Graphics,
    ∃ g', setColor c g = Done () g'
          ∧ Colorf_in_unit_interval (color (states_back g')) = true.

(** A colour whose red component is not a number. *)
Definition color_with_nan : Colorf.t :=
  Colorf.mk S754_nan float_0 float_0 float_1.

(** A colour with components below 0 and above 1: (-2, 0.5, 3, +infinity). *)
Definition color_out_of_range : Colorf.t :=
  Colorf.mk (S754_finite true 8388608 (-22)) (S754_finite false 8388608 (-24))
    (S754_finite false 12582912 (-22)) (S754_infinity false).

(** ** Calls of the client *)

(** The entry points that the rest of the engine calls, with their
    arguments. *)
Inductive Call : Type :=
| Call_draw (cmd : DrawCommand)
| Call_draw_indexed (cmd : DrawIndexedCommand)
| Call_drawQuads (rounds : nat) (start count : Z) (attributes : VertexAttributes)
    (buffers : BufferBindings) (texture : option Texture)
| Call_setFrontFaceWinding (winding : Winding)
| Call_setColorMask (mask : ColorChannelMask.t)
| Call_setBlendState (blend : BlendState)
| Call_setPointSize (size : float)
| Call_setColor (c : Colorf.t)
| Call_setScissor (rect : Rect.t)
| Call_setScissor_off
| Call_setWireframe (enable : bool)
| Call_setRenderTargetsInternal (rts : list Texture) (pixelw pixelh : Z)
| Call_getCachedSampler (samplerState : SamplerState)
| Call_queueCleanUp (cleanUp : CleanUp)
| Call_present (rounds : nat).

Section Client.
Context `{LoveHeaders} `{Driver}.

Definition call (c : Call) : M unit :=
  match c with
  | Call_draw cmd => draw cmd
  | Call_draw_indexed cmd => draw_indexed cmd
  | Call_drawQuads rounds start count attributes buffers texture =>
      drawQuads rounds start count attributes buffers texture
  | Call_setFrontFaceWinding winding => setFrontFaceWinding winding
  | Call_setColorMask mask => setColorMask mask
  | Call_setBlendState blend => setBlendState blend
  | Call_setPointSize size => setPointSize size
  | Call_setColor c => setColor c
  | Call_setScissor rect => setScissor rect
  | Call_setScissor_off => setScissor_off
  | Call_setWireframe enable => setWireframe enable
  | Call_setRenderTargetsInternal rts pixelw pixelh =>
      setRenderTargetsInternal rts pixelw pixelh
  | Call_getCachedSampler samplerState => _ ← getCachedSampler samplerState; mret ()
  | Call_queueCleanUp cleanUp => queueCleanUp cleanUp
  | Call_present rounds => present rounds
  end.

(** A sequence of calls, one after the other. *)
Definition calls (cs : list Call) : M unit := for_each cs call.
End Client.

Definition is_present (c : Call) : bool :=
  match c with Call_present _ => true | _ => false end.

Definition is_draw (c : Call) : bool :=
  match c with
  | Call_draw _ | Call_draw_indexed _ | Call_drawQuads _ _ _ _ _ _ => true
  | _ => false
  end.

(** ** Reading traces *)

Definition is_CmdBindPipeline (e : Event) : bool :=
  match e with CmdBindPipeline _ _ => true | _ => false end.

Definition is_CmdDrawIndexed (e : Event) : bool :=
  match e with CmdDrawIndexed _ _ _ _ _ _ => true | _ => false end.

Definition is_draw_command (e : Event) : bool :=
  match e with
  | CmdDraw _ _ _ _ _ | CmdDrawIndexed _ _ _ _ _ _ | CmdBindIndexBuffer _ _ _ _ => true
  | _ => false
  end.

(** The deferred clean-ups called in a trace, in the order of the calls. *)
Definition cleanUpCalls (events : list Event) : list CleanUp :=
  omap (λ e, match e with CleanUpFn c => Some c | _ => None end) events.

(** The command buffer of [slot] (or its data transfer buffer) begins
    recording. *)
Definition begins_recording (slot : nat) (e : Event) : bool :=
  match e with
  | BeginCommandBuffer _ slot' _ => bool_decide (slot' = slot)
  | _ => false
  end.

(** Neither the call of a deferred clean-up nor the begin of a command
    buffer. *)
Definition quiet (e : Event) : Prop :=
  match e with
  | CleanUpFn _ | BeginCommandBuffer _ _ _ => False
  | _ => True
  end.

(** ** The words of the specification about batches of quads *)

(** The indexed draws for [count] quads from quad [start] in batches of
    [per_draw] quads: ceil(count / per_draw) draws, "the k-th (k = 0, 1, ...)
    using base-vertex offset start*4 + k*per_draw*4 and drawing
    min(per_draw, count - k*per_draw)*6 indices". *)
Definition quad_draws (slot : nat) (per_draw start count : Z) : list Event :=
  map (λ k : nat,
         CmdDrawIndexed slot (Z.min per_draw (count - Z.of_nat k * per_draw) * 6)
           1 0 (start * 4 + Z.of_nat k * per_draw * 4) 0)
    (seq 0 (Z.to_nat ((count + per_draw - 1) / per_draw))).

(** The draws of the loop, from the values of [quadindex] and [baseVertex]
    with which it is entered. *)
Fixpoint loop_draws (n : nat) (slot : nat) (per_draw count quadindex baseVertex : Z)
    : list Event :=
  match n with
  | O => []
  | S n' =>
      CmdDrawIndexed slot (Z.min per_draw (count - quadindex) * 6) 1 0 baseVertex 0
      :: loop_draws n' slot per_draw count (quadindex + per_draw)
           (baseVertex + per_draw * 4)
  end.

(** The claim, with its batches of 16384 quads. *)
Definition drawQuads_batches_as_claimed `{LoveHeaders} `{Driver}
    (start count : Z) : Prop :=
  ∀ (rounds : nat) (attributes : VertexAttributes) (buffers : BufferBindings)
    (texture : option Texture) (g g' : Graphics),
    drawQuads rounds start count attributes buffers texture g = Done () g' →
    ∃ events, trace g' = trace g ++ events
              ∧ filter (λ e, is_CmdDrawIndexed e = true) events
                = quad_draws (currentFrame g) 16384 start count.

(** An indexed draw of six indices with the given index type. *)
Definition draw_with_index_type (type : IndexDataType) : DrawIndexedCommand := {|
  dic_attributes := layout_position_color;
  dic_buffers := sample_buffers;
  dic_texture := None;
  dic_primitiveType := PRIMITIVE_TRIANGLES;
  dic_cullMode := CULL_NONE;
  dic_indexType := type;
  dic_indexBuffer := 900;
  dic_indexBufferOffset := 0;
  dic_indexCount := 6;
  dic_instanceCount := 1;
|}.

(** ** The calls of [prepareDraw], by name *)

Section PrepareDrawCalls.
Context `{LoveHeaders}.

(** What [createGraphicsPipeline] passes to the driver. *)
Definition pipelineInfo (g : Graphics) (configuration : GraphicsPipelineConfiguration)
    : VkGraphicsPipelineCreateInfo :=
  {| ci_shader := shader configuration;
     ci_vertexBindingDescriptions :=
       (createVulkanVertexFormat (vertexAttributes configuration)).1;
     ci_vertexAttributeDescriptions :=
       (createVulkanVertexFormat (vertexAttributes configuration)).2;
     ci_topology := primitiveType configuration;
     ci_viewport := (viewportWidth configuration, viewportHeight configuration);
     ci_scissor_offset :=
       match cfg_scissorRect configuration with
       | Some rect => (Rect.x rect, Rect.y rect)
       | None => (0, 0)
       end;
     ci_scissor_extent :=
       match cfg_scissorRect configuration with
       | Some rect => (to_uint32 (Rect.w rect), to_uint32 (Rect.h rect))
       | None => swapChainExtent (swapChain g)
       end;
     ci_polygonMode := wireFrame configuration;
     ci_cullMode := cullmode configuration;
     ci_frontFace := cfg_winding configuration;
     ci_colorWriteMask := colorChannelMask configuration;
     ci_blend := blendState configuration;
     ci_renderPass := renderPass configuration |}.

(** The calls that [prepareDraw] records before it resolves the pipeline,
    and the calls that it records afterwards. *)
Definition prepareDraw_before (g : Graphics) (attributes : VertexAttributes)
    (texture : option Texture) : list Event :=
  [ SetUniformData (Shader_current g)
      {| normalMatrix_1_w := pointSize (states_back g);
         screenSizeParams_x := float_of_uint32 (swapChainExtent (swapChain g)).1;
         screenSizeParams_y := float_of_uint32 (swapChainExtent (swapChain g)).2;
         constantColor := gammaCorrectColor (color (states_back g)) |};
    SetMainTex (Shader_current g)
      match texture with None => standardTexture g | Some t => t end ].

Definition prepareDraw_after (g : Graphics) (attributes : VertexAttributes)
    (buffers : BufferBindings) : list Event :=
  [ CmdPushDescriptorSets (Shader_current g) (currentFrame g)
      (to_uint32 (Z.of_nat (currentFrame g)));
    CmdBindVertexBuffers (currentFrame g) 0
      (prepareDraw_bufferVector g attributes buffers).1
      (prepareDraw_bufferVector g attributes buffers).2 ].
End PrepareDrawCalls.

(** ** Pipelines over a sequence of draws *)

Definition is_CreateGraphicsPipelines (e : Event) : bool :=
  match e with CreateGraphicsPipelines _ _ _ => true | _ => false end.

(** How often a pipeline is bound, and how often one is built, in a trace. *)
Definition pipelineBinds (events : list Event) : nat :=
  length (filter (λ e, is_CmdBindPipeline e = true) events).

Definition pipelineBuilds (events : list Event) : nat :=
  length (filter (λ e, is_CreateGraphicsPipelines e = true) events).

(** The pipeline configuration that a draw call resolves in the backend
    [g]: the local [configuration] of its [prepareDraw]. *)
Definition draw_configuration (g : Graphics) (c : Call)
    : option GraphicsPipelineConfiguration :=
  match c with
  | Call_draw cmd =>
      Some (prepareDraw_configuration g (dc_attributes cmd) (dc_primitiveType cmd)
              (dc_cullMode cmd))
  | Call_draw_indexed cmd =>
      Some (prepareDraw_configuration g (dic_attributes cmd) (dic_primitiveType cmd)
              (dic_cullMode cmd))
  | Call_drawQuads _ _ _ attributes _ _ =>
      Some (prepareDraw_configuration g attributes PRIMITIVE_TRIANGLES CULL_BACK)
  | _ => None
  end.

(** The configuration is cached and its pipeline is the one that is bound. *)
Definition bound (configuration : GraphicsPipelineConfiguration) (g : Graphics)
    : Prop :=
  graphicsPipelines g !! configuration = Some (currentGraphicsPipeline g).

(** ** Setters and pending draws *)

Definition set_active (v : bool) (g : Graphics) : Graphics :=
  {| active := v; states_back := states_back g;
     batchedDrawState_pending := batchedDrawState_pending g;
     Shader_current := Shader_current g; Vulkan_vsync := Vulkan_vsync g;
     standardTexture := standardTexture g;
     quadIndexBuffer := quadIndexBuffer g;
     batchedDrawBuffers := batchedDrawBuffers g;
     currentFrame := currentFrame g; imageIndex := imageIndex g;
     framebufferResized := framebufferResized g;
     imagesInFlight := imagesInFlight g;
     cleanUpFunctions := cleanUpFunctions g; swapChain := swapChain g;
     renderPasses := renderPasses g; framebuffers := framebuffers g;
     graphicsPipelines := graphicsPipelines g; samplers := samplers g;
     currentRenderPass := currentRenderPass g;
     currentGraphicsPipeline := currentGraphicsPipeline g;
     renderTargetTexture := renderTargetTexture g;
     currentViewportWidth := currentViewportWidth g;
     currentViewportHeight := currentViewportHeight g; trace := trace g |}.

Definition setActive (enable : bool) : M unit :=
  flushBatchedDraws;;
  modify (set_active enable).

(** The calls, if any, by which [flushBatchedDraws] submits the pending
    draws of the backend [g]. *)
Definition flush_calls (g : Graphics) : list Event :=
  if decide (batchedDrawState_pending g = 0%nat) then []
  else [FlushBatchedDraws (states_back g) (batchedDrawState_pending g)].

(** The setters that flush without a test, with the assignments that
    follow the flush. *)
Definition setter_assignments (c : Call) : option (DisplayState → DisplayState) :=
  match c with
  | Call_setColorMask mask => Some (set_colorMask mask)
  | Call_setBlendState blend => Some (set_blend blend)
  | Call_setScissor rect => Some (λ s, set_scissorRect rect (set_scissor true s))
  | Call_setScissor_off => Some (set_scissor false)
  | Call_setWireframe enable => Some (set_wireframe enable)
  | _ => None
  end.

(** ** Vertex formats, by name *)

(** The attribute slots that a layout enables, in the order in which the
    loop of [createVulkanVertexFormat] visits them. *)
Definition enabledSlots `{LoveHeaders} (vertexAttributes : VertexAttributes)
    : list nat :=
  filter (λ i, has_bit (enableBits vertexAttributes) (Z.of_nat i) = true)
    (seq 0 VertexAttributes_MAX).

(** The layout enables the colour attribute. *)
Definition hasColorAttribute `{LoveHeaders} (vertexAttributes : VertexAttributes)
    : bool :=
  has_bit (enableBits vertexAttributes) (Z.of_nat ATTRIB_COLOR).

(** ** Calls that defer or run clean-ups *)

Definition is_queueCleanUp (c : Call) : bool :=
  match c with Call_queueCleanUp _ => true | _ => false end.

(** The frame slot after [slot] in the ring. *)
Definition nextFrameSlot (slot : nat) : nat := ((slot + 1) `mod` MAX_FRAMES_IN_FLIGHT)%nat.

(** ** Acquiring an image *)

Definition is_DeviceWaitIdle (e : Event) : bool :=
  match e with DeviceWaitIdle => true | _ => false end.

(** The results of the acquisitions in a trace, in their order. *)
Definition acquisitions (events : list Event) : list VkResult :=
  omap (λ e, match e with AcquireNextImage _ result _ => Some result | _ => None end)
    events.

(** How often the device was waited for, which [recreateSwapChain] does
    first. *)
Definition deviceWaits (events : list Event) : nat :=
  length (filter (λ e, is_DeviceWaitIdle e = true) events).

(** ** Pixel formats *)

(** [PixelFormat] of common/pixelformat.h, which is not among the sources:
    the five enumerators that [getSizedFormat] names, and the others by
    their value. *)
Inductive PixelFormat : Type :=
| PIXELFORMAT_NORMAL
| PIXELFORMAT_HDR
| PIXELFORMAT_RGBA8_UNORM
| PIXELFORMAT_RGBA8_UNORM_sRGB
| PIXELFORMAT_RGBA16_FLOAT
| PIXELFORMAT_other (value : Z).

(** [isGammaCorrect] is a function of the graphics module that reads a
    global flag; its value at the call is the first argument. *)
Definition getSizedFormat (isGammaCorrect : bool) (format : PixelFormat)
    (rendertarget readable : bool) : PixelFormat :=
  match format with
  | PIXELFORMAT_NORMAL =>
      if isGammaCorrect then PIXELFORMAT_RGBA8_UNORM_sRGB
      else PIXELFORMAT_RGBA8_UNORM
  | PIXELFORMAT_HDR => PIXELFORMAT_RGBA16_FLOAT
  | _ => format
  end.

(** ** The mouse (mouse/sdl/Mouse.cpp) *)

Record SDL_Rect : Type := {
  rect_x : Z;
  rect_y : Z;
  rect_w : Z;
  rect_h : Z;
}.

(** What the functions of the mouse take from SDL's headers, which are not
    among the sources: the numbers of the middle and the right button, the
    mask of a button in the button state, and the test whether a point lies
    in a rectangle. *)
Class SDLHeaders : Type := {
  SDL_BUTTON_MIDDLE : Z;
  SDL_BUTTON_RIGHT : Z;
  SDL_BUTTON : Z → Z;
  SDL_PointInRect : Z * Z → SDL_Rect → bool;
}.

(** SDL's values: the buttons are numbered left, middle, right from 1; the
    mask of button [X] is [1 << (X - 1)]; a rectangle holds the points from
    its origin up to, not including, its far edges. *)
Definition sdl_headers : SDLHeaders := {|
  SDL_BUTTON_MIDDLE := 2;
  SDL_BUTTON_RIGHT := 3;
  SDL_BUTTON := λ X, Z.shiftl 1 (X - 1);
  SDL_PointInRect := λ p r,
    (rect_x r <=? p.1) && (p.1 <? rect_x r + rect_w r)
    && (rect_y r <=? p.2) && (p.2 <? rect_y r + rect_h r);
|}.

Section Mouse.
Context `{SDLHeaders}.

(** The [switch] of [isDown] over the button. *)
Definition Mouse_isDown_button (button : Z) : Z :=
  if button =? 2 then SDL_BUTTON_RIGHT
  else if button =? 3 then SDL_BUTTON_MIDDLE
  else button.

(** [Mouse::isDown]; [buttonstate] is what [SDL_GetMouseState] returns. *)
Fixpoint Mouse_isDown (buttonstate : Z) (buttons : list Z) : bool :=
  match buttons with
  | [] => false
  | button :: rest =>
      if button <=? 0 then Mouse_isDown buttonstate rest
      else
        let button := Mouse_isDown_button button in
        if has_flag buttonstate (SDL_BUTTON button) then true
        else Mouse_isDown buttonstate rest
  end.

(** The loop of [Mouse::getGlobalPosition] over the displays, entered with
    the current values of [displayindex], [mx] and [my]; [bounds] lists
    what [SDL_GetDisplayBounds] gives for the displays still to visit. *)
Fixpoint Mouse_getGlobalPosition_loop (globalx globaly : Z)
    (bounds : list SDL_Rect) (displayindex mx my : Z) : Z * Z * Z :=
  match bounds with
  | [] => (mx, my, displayindex)
  | rect :: rest =>
      let mx := wrap_int (mx - rect_x rect) in
      let my := wrap_int (my - rect_y rect) in
      if SDL_PointInRect (globalx, globaly) rect then (mx, my, displayindex)
      else
        Mouse_getGlobalPosition_loop globalx globaly rest
          (wrap_int (displayindex + 1)) mx my
  end.

(** [Mouse::getGlobalPosition]: [globalx] and [globaly] are what
    [SDL_GetGlobalMouseState] reports and [bounds] are the bounds of the
    displays, [SDL_GetNumVideoDisplays] many.  The result is [x], [y] (whole
    numbers, which the conversion to [double] keeps) and [displayindex]. *)
Definition Mouse_getGlobalPosition (globalx globaly : Z) (bounds : list SDL_Rect)
    : Z * Z * Z :=
  let displaycount := Z.of_nat (length bounds) in
  let '(mx, my, displayindex) :=
    Mouse_getGlobalPosition_loop globalx globaly bounds 0 globalx globaly in
  let displayindex := if displaycount <=? displayindex then 0 else displayindex in
  (mx, my, displayindex).
End Mouse.

(** The sum of the origins of displays, in one coordinate. *)
Definition origins (coordinate : SDL_Rect → Z) (bounds : list SDL_Rect) : Z :=
  foldr (λ rect sum, coordinate rect + sum) 0 bounds.

(** ** The request for a swap chain *)

(** The local [createInfo] of [createSwapChain], as it is filled in from
    what the surface supports. *)
Definition createSwapChain_createInfo `{Driver} (g : Graphics)
    : VkSwapchainCreateInfoKHR :=
  let swapChainSupport := querySwapChainSupport (trace g) in
  let caps := capabilities swapChainSupport in
  let surfaceFormat := chooseSwapSurfaceFormat (support_formats swapChainSupport) in
  let presentMode :=
    chooseSwapPresentMode (Vulkan_vsync g) (support_presentModes swapChainSupport) in
  let extent := chooseSwapExtent caps (SDL_Vulkan_GetDrawableSize (trace g)) in
  let extent :=
    if has_flag (currentTransform caps) VK_SURFACE_TRANSFORM_ROTATE_90_BIT_KHR
       || has_flag (currentTransform caps) VK_SURFACE_TRANSFORM_ROTATE_270_BIT_KHR
    then (extent.2, extent.1) else extent in
  let imageCount := to_uint32 (minImageCount caps + 1) in
  let imageCount :=
    if (0 <? maxImageCount caps) && (maxImageCount caps <? imageCount)
    then maxImageCount caps else imageCount in
  {| sci_minImageCount := imageCount;
     sci_imageFormat := format surfaceFormat;
     sci_imageColorSpace := colorSpace surfaceFormat;
     sci_imageExtent := extent;
     sci_preTransform := currentTransform caps;
     sci_presentMode := presentMode |}.

(** ** More backends and arguments to run the functions on *)

(** The sample backend with three batched draws pending. *)
Definition sample_pending : Graphics :=
  set_batchedDrawState_pending 3 sample_backend.

(** The sample backend with clean-ups queued in both frame slots. *)
Definition sample_queued : Graphics :=
  set_cleanUpFunctions [[7; 8]; [9]]%nat sample_backend.

(** The sample backend after the render pass to the screen has begun. *)
Definition sample_rendering : Graphics :=
  match @startRenderPass ideal_driver None 800 600 sample_backend with
  | Done _ g => g
  | _ => sample_backend
  end.

Definition sample_formats : list VkSurfaceFormatKHR :=
  [ {| format := 37; colorSpace := 0 |}; {| format := 44; colorSpace := 0 |} ].

(** A draw of one triangle. *)
Definition sample_draw : DrawCommand := {|
  dc_attributes := layout_position_color;
  dc_buffers := sample_buffers;
  dc_texture := None;
  dc_primitiveType := PRIMITIVE_TRIANGLES;
  dc_cullMode := CULL_NONE;
  dc_vertexStart := 0;
  dc_vertexCount := 3;
  dc_instanceCount := 1;
|}.

(** The pipeline configuration of that draw in the sample backend. *)
Definition sample_configuration : GraphicsPipelineConfiguration :=
  @prepareDraw_configuration sample_backend layout_position_color
    PRIMITIVE_TRIANGLES CULL_NONE.

(** A texture to render to. *)
Definition sample_canvas : Texture :=
  {| tex_handle := 610; tex_renderTargetHandle := 611; tex_internalFormat := 37 |}.

(** * Properties *)

(** ** Index types *)

Lemma getVulkanIndexBufferType_supported (type : IndexDataType) :
  type = INDEX_UINT16 ∨ type = INDEX_UINT32 →
  ∃ t, getVulkanIndexBufferType type = Returns t.
Proof. intros [-> | ->]; eexists; reflexivity. Qed.

Lemma getVulkanIndexBufferType_unsupported (type : IndexDataType) :
  type ≠ INDEX_UINT16 → type ≠ INDEX_UINT32 →
  getVulkanIndexBufferType type = Throws (love_Exception "unknown Index Data type").
Proof. by destruct type. Qed.

(** ** Present modes *)

Lemma std_find_is_Some {A : Type} `{EqDecision A} (v : list A) (x : A) :
  is_Some (std_find v x) ↔ x ∈ v.
Proof.
  induction v as [| y v IH]; simpl.
  - split; [intros [? ?]; discriminate | intros Hin; inversion Hin].
  - destruct (decide (y = x)) as [-> | Hne].
    + split; [intros _; left | eauto].
    + rewrite fmap_is_Some, IH. split; [intros; by right |].
      intros Hin. inversion Hin; subst; [congruence | done].
Qed.

Lemma std_find_None {A : Type} `{EqDecision A} (v : list A) (x : A) :
  std_find v x = None ↔ x ∉ v.
Proof. rewrite <- std_find_is_Some, eq_None_not_Some. done. Qed.

Lemma std_find_found {A : Type} `{EqDecision A} (v : list A) (x : A) :
  x ∈ v → ∃ i, std_find v x = Some i.
Proof. intros Hin. by apply std_find_is_Some in Hin as [i Hi]; eauto. Qed.

(** The order in which the modes are tried: each preference also accepts
    the modes of the cases that follow it in the [switch]. *)
Lemma chooseSwapPresentMode_case_0_spec (modes : list VkPresentModeKHR) :
  chooseSwapPresentMode_case_0 modes =
    if bool_decide (VK_PRESENT_MODE_IMMEDIATE_KHR ∈ modes)
    then VK_PRESENT_MODE_IMMEDIATE_KHR else VK_PRESENT_MODE_FIFO_KHR.
Proof.
  unfold chooseSwapPresentMode_case_0. case_bool_decide as Hin.
  - by destruct (std_find_found _ _ Hin) as [i ->].
  - apply std_find_None in Hin. by rewrite Hin.
Qed.

Lemma chooseSwapPresentMode_case_1_spec (modes : list VkPresentModeKHR) :
  chooseSwapPresentMode_case_1 modes =
    if bool_decide (VK_PRESENT_MODE_MAILBOX_KHR ∈ modes)
    then VK_PRESENT_MODE_MAILBOX_KHR else chooseSwapPresentMode_case_0 modes.
Proof.
  unfold chooseSwapPresentMode_case_1. case_bool_decide as Hin.
  - by destruct (std_find_found _ _ Hin) as [i ->].
  - apply std_find_None in Hin. by rewrite Hin.
Qed.

Lemma chooseSwapPresentMode_case_m1_spec (modes : list VkPresentModeKHR) :
  chooseSwapPresentMode_case_m1 modes =
    if bool_decide (VK_PRESENT_MODE_FIFO_RELAXED_KHR ∈ modes)
    then VK_PRESENT_MODE_FIFO_RELAXED_KHR else chooseSwapPresentMode_case_1 modes.
Proof.
  unfold chooseSwapPresentMode_case_m1. case_bool_decide as Hin.
  - by destruct (std_find_found _ _ Hin) as [i ->].
  - apply std_find_None in Hin. by rewrite Hin.
Qed.

(** With vsync adaptive and no relaxed fifo, the mailbox mode is taken when
    it is there: the case for -1 runs on into the case for 1. *)
Lemma chooseSwapPresentMode_adaptive_falls_through (modes : list VkPresentModeKHR) :
  VK_PRESENT_MODE_FIFO_RELAXED_KHR ∉ modes →
  VK_PRESENT_MODE_MAILBOX_KHR ∈ modes →
  chooseSwapPresentMode vsync_adaptive modes = VK_PRESENT_MODE_MAILBOX_KHR.
Proof.
  intros Hno Hyes. unfold chooseSwapPresentMode, vsync_adaptive. simpl.
  rewrite chooseSwapPresentMode_case_m1_spec, chooseSwapPresentMode_case_1_spec.
  by rewrite bool_decide_eq_false_2, bool_decide_eq_true_2.
Qed.

(** C4, as amended: the modes are tried in the order relaxed fifo, mailbox,
    immediate, from the mode of the preference on, and the first one that is
    available is returned.  So adaptive gives relaxed fifo when it is
    available, on gives mailbox when it is available and off gives
    immediate when it is available; but adaptive without relaxed fifo gives
    mailbox, or without mailbox immediate, and on without mailbox gives
    immediate.  Fifo is returned when none of the modes tried is available,
    and for every other value of the preference. *)
Theorem C4_present_mode_selection (availablePresentModes : list VkPresentModeKHR) :
  (* adaptive *)
  (VK_PRESENT_MODE_FIFO_RELAXED_KHR ∈ availablePresentModes →
   chooseSwapPresentMode vsync_adaptive availablePresentModes
     = VK_PRESENT_MODE_FIFO_RELAXED_KHR)
  ∧ (VK_PRESENT_MODE_FIFO_RELAXED_KHR ∉ availablePresentModes →
     VK_PRESENT_MODE_MAILBOX_KHR ∈ availablePresentModes →
     chooseSwapPresentMode vsync_adaptive availablePresentModes
       = VK_PRESENT_MODE_MAILBOX_KHR)
  ∧ (VK_PRESENT_MODE_FIFO_RELAXED_KHR ∉ availablePresentModes →
     VK_PRESENT_MODE_MAILBOX_KHR ∉ availablePresentModes →
     VK_PRESENT_MODE_IMMEDIATE_KHR ∈ availablePresentModes →
     chooseSwapPresentMode vsync_adaptive availablePresentModes
       = VK_PRESENT_MODE_IMMEDIATE_KHR)
  ∧ (VK_PRESENT_MODE_FIFO_RELAXED_KHR ∉ availablePresentModes →
     VK_PRESENT_MODE_MAILBOX_KHR ∉ availablePresentModes →
     VK_PRESENT_MODE_IMMEDIATE_KHR ∉ availablePresentModes →
     chooseSwapPresentMode vsync_adaptive availablePresentModes
       = VK_PRESENT_MODE_FIFO_KHR)
  (* on *)
  ∧ (VK_PRESENT_MODE_MAILBOX_KHR ∈ availablePresentModes →
     chooseSwapPresentMode vsync_on availablePresentModes
       = VK_PRESENT_MODE_MAILBOX_KHR)
  ∧ (VK_PRESENT_MODE_MAILBOX_KHR ∉ availablePresentModes →
     VK_PRESENT_MODE_IMMEDIATE_KHR ∈ availablePresentModes →
     chooseSwapPresentMode vsync_on availablePresentModes
       = VK_PRESENT_MODE_IMMEDIATE_KHR)
  ∧ (VK_PRESENT_MODE_MAILBOX_KHR ∉ availablePresentModes →
     VK_PRESENT_MODE_IMMEDIATE_KHR ∉ availablePresentModes →
     chooseSwapPresentMode vsync_on availablePresentModes
       = VK_PRESENT_MODE_FIFO_KHR)
  (* off *)
  ∧ (VK_PRESENT_MODE_IMMEDIATE_KHR ∈ availablePresentModes →
     chooseSwapPresentMode vsync_off availablePresentModes
       = VK_PRESENT_MODE_IMMEDIATE_KHR)
  ∧ (VK_PRESENT_MODE_IMMEDIATE_KHR ∉ availablePresentModes →
     chooseSwapPresentMode vsync_off availablePresentModes
       = VK_PRESENT_MODE_FIFO_KHR)
  (* any other value, and any value when none of the three is available *)
  ∧ (∀ vsync : Z,
       vsync ≠ vsync_adaptive → vsync ≠ vsync_on → vsync ≠ vsync_off →
       chooseSwapPresentMode vsync availablePresentModes = VK_PRESENT_MODE_FIFO_KHR)
  ∧ (∀ vsync : Z,
       VK_PRESENT_MODE_FIFO_RELAXED_KHR ∉ availablePresentModes →
       VK_PRESENT_MODE_MAILBOX_KHR ∉ availablePresentModes →
       VK_PRESENT_MODE_IMMEDIATE_KHR ∉ availablePresentModes →
       chooseSwapPresentMode vsync availablePresentModes = VK_PRESENT_MODE_FIFO_KHR).
Proof.
  unfold chooseSwapPresentMode, vsync_adaptive, vsync_on, vsync_off.
  rewrite chooseSwapPresentMode_case_m1_spec, chooseSwapPresentMode_case_1_spec,
    chooseSwapPresentMode_case_0_spec.
  split_and!; simpl.
  - intros Hr. by rewrite bool_decide_eq_true_2.
  - intros Hr Hm. rewrite !bool_decide_eq_false_2 by done.
    by rewrite bool_decide_eq_true_2.
  - intros Hr Hm Hi. rewrite !bool_decide_eq_false_2 by done.
    by rewrite bool_decide_eq_true_2.
  - intros Hr Hm Hi. by rewrite !bool_decide_eq_false_2 by done.
  - intros Hm. by rewrite bool_decide_eq_true_2.
  - intros Hm Hi. rewrite !bool_decide_eq_false_2 by done.
    by rewrite bool_decide_eq_true_2.
  - intros Hm Hi. by rewrite !bool_decide_eq_false_2 by done.
  - intros Hi. by rewrite bool_decide_eq_true_2.
  - intros Hi. by rewrite bool_decide_eq_false_2.
  - intros vsync H1 H2 H3. by rewrite !decide_False.
  - intros vsync Hr Hm Hi. rewrite !bool_decide_eq_false_2 by done.
    by repeat case_decide.
Qed.

(** With vsync on and no mailbox mode, the immediate mode is taken when it
    is there, not fifo: the case for 1 runs on into the case for 0. *)
Lemma C4_counterexample :
  ¬ present_mode_as_claimed vsync_on
      [VK_PRESENT_MODE_IMMEDIATE_KHR; VK_PRESENT_MODE_FIFO_KHR].
Proof.
  intros Hclaim.
  destruct (Hclaim VK_PRESENT_MODE_MAILBOX_KHR eq_refl) as [_ Hfifo].
  assert (VK_PRESENT_MODE_MAILBOX_KHR
            ∉ [VK_PRESENT_MODE_IMMEDIATE_KHR; VK_PRESENT_MODE_FIFO_KHR]) as Hno.
  { intros Hin. apply elem_of_cons in Hin as [Heq | Hin]; [discriminate Heq |].
    apply list_elem_of_singleton in Hin. discriminate Hin. }
  specialize (Hfifo Hno). vm_compute in Hfifo. discriminate Hfifo.
Qed.

(** ** Rating the adapters *)

Lemma isComplete_true (indices : QueueFamilyIndices) :
  isComplete indices = true
  ↔ is_Some (graphicsFamily indices) ∧ is_Some (presentFamily indices).
Proof.
  unfold isComplete. rewrite andb_true_iff, !bool_decide_eq_true. done.
Qed.

Lemma exists_elem_of_cons {A : Type} (P : A → Prop) (x : A) (l : list A) :
  (∃ y, y ∈ x :: l ∧ P y) ↔ P x ∨ ∃ y, y ∈ l ∧ P y.
Proof.
  split.
  - intros (y & Hin & Hy). apply elem_of_cons in Hin as [-> | Hin]; eauto.
  - intros [Hx | (y & Hin & Hy)]; [exists x | exists y];
      (split; [| done]); [by left | by right].
Qed.

Lemma exists_elem_of_nil {A : Type} (P : A → Prop) :
  (∃ y, y ∈ @nil A ∧ P y) ↔ False.
Proof. split; [intros (y & Hin & _); inversion Hin | done]. Qed.

(** The loop finds both families exactly when each of them either was found
    before or is among the families still to be visited. *)
Lemma findQueueFamilies_loop_complete (families : list QueueFamily) :
  ∀ (i : Z) (indices : QueueFamilyIndices),
    isComplete (findQueueFamilies_loop families i indices) = true
    ↔ (is_Some (graphicsFamily indices)
       ∨ ∃ family, family ∈ families
                   ∧ has_flag (queueFlags family) VK_QUEUE_GRAPHICS_BIT = true)
      ∧ (is_Some (presentFamily indices)
         ∨ ∃ family, family ∈ families ∧ presentSupport family = true).
Proof.
  induction families as [| family rest IH]; intros i indices.
  - simpl. rewrite isComplete_true, !exists_elem_of_nil. tauto.
  - cbn [findQueueFamilies_loop].
    set (indices1 := if has_flag (queueFlags family) VK_QUEUE_GRAPHICS_BIT
                     then _ else indices).
    set (indices2 := if presentSupport family then _ else indices1).
    assert (Hg : is_Some (graphicsFamily indices2)
                 ↔ is_Some (graphicsFamily indices)
                   ∨ has_flag (queueFlags family) VK_QUEUE_GRAPHICS_BIT = true).
    { subst indices2 indices1.
      destruct (has_flag _ _), (presentSupport family); simpl;
        (split; [intros ?; first [by left | by right] | intros [? | ?]; by eauto]). }
    assert (Hp : is_Some (presentFamily indices2)
                 ↔ is_Some (presentFamily indices) ∨ presentSupport family = true).
    { subst indices2 indices1.
      destruct (has_flag _ _), (presentSupport family); simpl;
        (split; [intros ?; first [by left | by right] | intros [? | ?]; by eauto]). }
    rewrite !exists_elem_of_cons.
    destruct (isComplete indices2) eqn:Hc.
    + rewrite Hc. apply isComplete_true in Hc as [H1 H2].
      apply Hg in H1. apply Hp in H2. tauto.
    + rewrite IH, Hg, Hp. tauto.
Qed.

Lemma findQueueFamilies_complete (device : VkPhysicalDevice) :
  isComplete (findQueueFamilies device) = true
  ↔ has_graphics_family device ∧ has_present_family device.
Proof.
  unfold findQueueFamilies. rewrite findQueueFamilies_loop_complete. simpl.
  unfold has_graphics_family, has_present_family.
  split.
  - intros [[[? ?] | ?] [[? ?] | ?]]; done.
  - intros [? ?]; split; by right.
Qed.

Lemma erase_all (required : gset string) (available : list string) :
  foldl (λ required extension, required ∖ {[extension]}) required available
  = required ∖ list_to_set available.
Proof.
  revert required. induction available as [| e l IH]; intros required; simpl.
  - set_solver.
  - rewrite IH. set_solver.
Qed.

Lemma checkDeviceExtensionSupport_true (device : VkPhysicalDevice) :
  checkDeviceExtensionSupport device = true ↔ has_required_extensions device.
Proof.
  unfold checkDeviceExtensionSupport, has_required_extensions.
  rewrite bool_decide_eq_true, erase_all.
  split.
  - intros Hempty e He.
    destruct (decide (e ∈ availableExtensions device)) as [| Hno]; [done |].
    assert (e ∈ (list_to_set deviceExtensions : gset string)
                ∖ list_to_set (availableExtensions device)) by set_solver.
    set_solver.
  - intros Hall. apply set_eq. intros e. split; [| set_solver].
    rewrite elem_of_difference, !elem_of_list_to_set. intros [He Hno].
    by apply Hall in He.
Qed.

(** The score in closed form. *)
Lemma rateDeviceSuitability_closed (device : VkPhysicalDevice) :
  rateDeviceSuitability device =
    if isComplete (findQueueFamilies device)
       && checkDeviceExtensionSupport device
       && negb (bool_decide (formats device = []))
       && negb (bool_decide (presentModes device = []))
       && samplerAnisotropy device
       && fillModeNonSolid device
    then 1 + deviceTypeBonus (deviceType device)
    else 0.
Proof.
  unfold rateDeviceSuitability.
  destruct (isComplete _), (checkDeviceExtensionSupport _),
    (bool_decide (formats device = [])), (bool_decide (presentModes device = [])),
    (samplerAnisotropy device), (fillModeNonSolid device); simpl; try reflexivity;
    destruct (deviceType device); reflexivity.
Qed.

Lemma deviceTypeBonus_nonneg (type : VkPhysicalDeviceType) :
  0 ≤ deviceTypeBonus type.
Proof. destruct type; simpl; lia. Qed.

Lemma rateDeviceSuitability_zero (device : VkPhysicalDevice) :
  rateDeviceSuitability device = 0 ↔ disqualified device.
Proof.
  rewrite rateDeviceSuitability_closed. unfold disqualified.
  pose proof (findQueueFamilies_complete device) as Hq.
  pose proof (checkDeviceExtensionSupport_true device) as He.
  pose proof (deviceTypeBonus_nonneg (deviceType device)) as Hb.
  destruct (isComplete _); simpl.
  2: { split; [intros _ | done]. left. intros Hboth. apply Hq in Hboth. done. }
  destruct (checkDeviceExtensionSupport _); simpl.
  2: { split; [intros _ | done]. right; left. intros Hall. apply He in Hall. done. }
  case_bool_decide as Hf; simpl.
  { split; [intros _ | done]. by do 2 right; left. }
  case_bool_decide as Hm; simpl.
  { split; [intros _ | done]. by do 3 right; left. }
  destruct (samplerAnisotropy device); simpl.
  2: { split; [intros _ | done]. by do 4 right; left. }
  destruct (fillModeNonSolid device); simpl.
  2: { split; [intros _ | done]. by do 5 right. }
  split; [lia |].
  intros [Hno | [Hno | [? | [? | [? | ?]]]]]; try done.
  - exfalso. apply Hno. by apply Hq.
  - exfalso. apply Hno. by apply He.
Qed.

Lemma rateDeviceSuitability_nonneg (device : VkPhysicalDevice) :
  0 ≤ rateDeviceSuitability device.
Proof.
  rewrite rateDeviceSuitability_closed.
  pose proof (deviceTypeBonus_nonneg (deviceType device)).
  destruct (_ && _); lia.
Qed.

Lemma multimap_insert_Forall {V : Type} (P : Z * V → Prop)
    (candidates : list (Z * V)) (entry : Z * V) :
  Forall P candidates → P entry → Forall P (multimap_insert candidates entry).
Proof.
  induction 1 as [| c rest Hc Hrest IH]; intros He; simpl.
  - by constructor.
  - case_decide; repeat constructor; auto.
Qed.

Lemma candidates_Forall (P : Z * VkPhysicalDevice → Prop)
    (devices : list VkPhysicalDevice) :
  (∀ device, device ∈ devices → P (rateDeviceSuitability device, device)) →
  ∀ candidates, Forall P candidates →
    Forall P (foldl (λ candidates device,
                       multimap_insert candidates
                         (rateDeviceSuitability device, device))
                candidates devices).
Proof.
  induction devices as [| d l IH]; intros Hall candidates Hc; simpl; [done |].
  apply IH.
  - intros d' Hd'. apply Hall. by right.
  - apply multimap_insert_Forall; [done |]. apply Hall. by left.
Qed.

(** When every adapter is rated 0, [pickPhysicalDevice] throws. *)
Lemma pickPhysicalDevice_all_zero (devices : list VkPhysicalDevice) :
  (∀ device, device ∈ devices → rateDeviceSuitability device = 0) →
  ∃ what, pickPhysicalDevice devices = Throws (love_Exception what).
Proof.
  intros Hzero. unfold pickPhysicalDevice.
  case_decide; [eauto |].
  pose proof (candidates_Forall (λ c, c.1 = 0) devices Hzero [] (Forall_nil_2 _)) as Hall.
  unfold rbegin.
  destruct (last _) as [[score device] |] eqn:Hlast; [| eauto].
  apply last_Some in Hlast as [front Hfront].
  rewrite Hfront in Hall. apply Forall_app in Hall as [_ Hall].
  rewrite Forall_singleton in Hall. simpl in Hall.
  case_decide; [lia | eauto].
Qed.

(** C5, as amended: the score is 0 exactly when the adapter is disqualified;
    otherwise it is 1 plus what the device type adds, which is 1000 for a
    discrete GPU, 100 for an integrated GPU, 10 for a virtual GPU and
    nothing for any other type; when every adapter has score 0, picking the
    device throws. *)
Theorem C5_rating_of_adapters (device : VkPhysicalDevice) :
  (rateDeviceSuitability device = 0 ↔ disqualified device)
  ∧ (¬ disqualified device →
     rateDeviceSuitability device = 1 + deviceTypeBonus (deviceType device))
  ∧ (∀ devices : list VkPhysicalDevice,
       (∀ d, d ∈ devices → rateDeviceSuitability d = 0) →
       ∃ what, pickPhysicalDevice devices = Throws (love_Exception what)).
Proof.
  split_and!.
  - apply rateDeviceSuitability_zero.
  - intros Hq. rewrite <- rateDeviceSuitability_zero in Hq.
    revert Hq. rewrite rateDeviceSuitability_closed.
    by destruct (_ && _).
  - apply pickPhysicalDevice_all_zero.
Qed.

Lemma software_rasterizer_score : rateDeviceSuitability software_rasterizer = 1.
Proof. vm_compute. reflexivity. Qed.

Lemma software_rasterizer_qualifies : ¬ disqualified software_rasterizer.
Proof.
  rewrite <- rateDeviceSuitability_zero, software_rasterizer_score. lia.
Qed.

(** A software rasterizer qualifies and is rated 1: the base score, with
    none of the three additions. *)
Lemma C5_counterexample : ¬ rated_as_claimed software_rasterizer.
Proof.
  intros [_ Hscore].
  destruct (Hscore software_rasterizer_qualifies)
    as [[Htype _] | [[Htype _] | [Htype _]]]; discriminate Htype.
Qed.

Lemma C5_rating_of_adapters_witness :
  rateDeviceSuitability software_rasterizer
    = 1 + deviceTypeBonus (deviceType software_rasterizer)
  ∧ ∃ what, pickPhysicalDevice [headless_gpu] = Throws (love_Exception what).
Proof.
  destruct (C5_rating_of_adapters software_rasterizer) as (Hzero & Hscore & Hpick).
  split.
  - apply Hscore. intros Hd. apply Hzero in Hd. vm_compute in Hd. discriminate Hd.
  - apply Hpick. intros d Hd. apply list_elem_of_singleton in Hd as ->.
    vm_compute. reflexivity.
Defined.

Lemma C4_present_mode_selection_witness :
  chooseSwapPresentMode vsync_on
    [VK_PRESENT_MODE_FIFO_KHR; VK_PRESENT_MODE_MAILBOX_KHR]
    = VK_PRESENT_MODE_MAILBOX_KHR
  ∧ chooseSwapPresentMode vsync_on
      [VK_PRESENT_MODE_IMMEDIATE_KHR; VK_PRESENT_MODE_FIFO_KHR]
    = VK_PRESENT_MODE_IMMEDIATE_KHR
  ∧ chooseSwapPresentMode vsync_adaptive [VK_PRESENT_MODE_FIFO_KHR]
    = VK_PRESENT_MODE_FIFO_KHR.
Proof.
  split_and!.
  - destruct (C4_present_mode_selection
                [VK_PRESENT_MODE_FIFO_KHR; VK_PRESENT_MODE_MAILBOX_KHR])
      as (_ & _ & _ & _ & Hon & _).
    apply Hon. apply elem_of_cons; right. apply elem_of_cons; left. reflexivity.
  - destruct (C4_present_mode_selection
                [VK_PRESENT_MODE_IMMEDIATE_KHR; VK_PRESENT_MODE_FIFO_KHR])
      as (_ & _ & _ & _ & _ & Hon & _).
    apply Hon.
    + intros Hin. apply elem_of_cons in Hin as [Heq | Hin]; [discriminate Heq |].
      apply list_elem_of_singleton in Hin. discriminate Hin.
    + apply elem_of_cons; left. reflexivity.
  - destruct (C4_present_mode_selection [VK_PRESENT_MODE_FIFO_KHR])
      as (_ & _ & _ & Hadaptive & _).
    apply Hadaptive;
      intros Hin; apply list_elem_of_singleton in Hin; discriminate Hin.
Defined.

(** ** Clamping colours *)

Lemma SFcompare_positive_finite (m1 m2 : positive) (e1 e2 : Z) :
  SFcompare (S754_finite false m1 e1) (S754_finite false m2 e2)
  = Some match (e1 ?= e2)%Z with
         | Lt => Lt
         | Gt => Gt
         | Eq => (m1 ?= m2)%positive
         end.
Proof. reflexivity. Qed.

(** On positive finite floats, [a <= b] holds exactly when [b < a] fails. *)
Lemma SFleb_positive_finite (m1 m2 : positive) (e1 e2 : Z) :
  SFleb (S754_finite false m1 e1) (S754_finite false m2 e2)
  = negb (SFltb (S754_finite false m2 e2) (S754_finite false m1 e1)).
Proof.
  unfold SFleb, SFltb. rewrite !SFcompare_positive_finite.
  rewrite (Z.compare_antisym e1 e2), (Pos.compare_antisym m1 m2).
  destruct (e1 ?= e2)%Z; [destruct (m1 ?= m2)%positive | |]; reflexivity.
Qed.

Lemma float_1_in_unit_interval : in_unit_interval float_1 = true.
Proof. vm_compute. reflexivity. Qed.

Lemma float_0_in_unit_interval : in_unit_interval float_0 = true.
Proof. vm_compute. reflexivity. Qed.

(** A component that is a number is stored within [0, 1]. *)
Lemma clamp_in_unit_interval (f : float) :
  is_nan f = false →
  in_unit_interval (std_min (std_max f float_0) float_1) = true.
Proof.
  intros Hnan.
  destruct f as [s | s | | s m e]; try discriminate Hnan.
  - destruct s; vm_compute; reflexivity.
  - destruct s; vm_compute; reflexivity.
  - destruct s.
    + (* below zero: replaced by 0 *)
      change (std_max (S754_finite true m e) float_0) with float_0.
      vm_compute. reflexivity.
    + change (std_max (S754_finite false m e) float_0) with (S754_finite false m e).
      unfold std_min.
      destruct (SFltb float_1 (S754_finite false m e)) eqn:Hlt.
      * apply float_1_in_unit_interval.
      * unfold in_unit_interval. apply andb_true_intro. split; [reflexivity |].
        unfold float_1 in *. by rewrite SFleb_positive_finite, Hlt.
Qed.

(** A component that is not a number is stored as it is. *)
Lemma clamp_nan : std_min (std_max S754_nan float_0) float_1 = S754_nan.
Proof. reflexivity. Qed.

Lemma in_unit_interval_not_nan (f : float) :
  in_unit_interval f = true → is_nan f = false.
Proof. by destruct f. Qed.

Lemma setColor_Done (c : Colorf.t) (g : Graphics) :
  setColor c g =
    Done ()
      (set_states_back
         (set_color
            {| Colorf.r := std_min (std_max (Colorf.r c) float_0) float_1;
               Colorf.g := std_min (std_max (Colorf.g c) float_0) float_1;
               Colorf.b := std_min (std_max (Colorf.b c) float_0) float_1;
               Colorf.a := std_min (std_max (Colorf.a c) float_0) float_1 |}
            (states_back g)) g).
Proof. reflexivity. Qed.

(** What is stored for a component: 0 below 0, 1 above 1, the component
    itself within [0, 1]. *)
Lemma clamp_clamped (f : float) :
  clamped_into_unit_interval f (std_min (std_max f float_0) float_1).
Proof.
  unfold clamped_into_unit_interval. split_and!.
  - intros Hlt. unfold std_max. rewrite Hlt. reflexivity.
  - intros Hlt. destruct f as [s | s | | s m e]; try discriminate Hlt.
    + destruct s; [discriminate Hlt | reflexivity].
    + destruct s; [discriminate Hlt |].
      change (std_max (S754_finite false m e) float_0) with (S754_finite false m e).
      unfold std_min. by rewrite Hlt.
  - intros Hin. destruct f as [s | s | | s m e]; try discriminate Hin.
    + by destruct s.
    + destruct s; discriminate Hin.
    + destruct s; [discriminate Hin |].
      change (std_max (S754_finite false m e) float_0) with (S754_finite false m e).
      unfold in_unit_interval in Hin. apply andb_prop in Hin as [_ Hle].
      unfold float_1 in *. rewrite SFleb_positive_finite in Hle.
      unfold std_min. by destruct (SFltb _ _).
Qed.

(** C10, as amended: for every colour whose components are numbers, each of
    the four components that [setColor] stores is the component passed
    clamped into [0, 1] (0 for a component below 0, 1 for one above 1, the
    component itself otherwise), so it lies in [0, 1]; nothing but the
    colour of the display state changes; and the constant colour of the
    uniform data computed from that state lies in [0, 1] as well when gamma
    correction maps [0, 1] into itself. *)
Theorem C10_setColor_clamps `{LoveHeaders} (c : Colorf.t) (g : Graphics) :
  Colorf_has_nan c = false →
  (∀ c' : Colorf.t,
     Colorf_in_unit_interval c' = true →
     Colorf_in_unit_interval (gammaCorrectColor c') = true) →
  ∃ g', setColor c g = Done () g'
        ∧ Colorf_clamped c (color (states_back g'))
        ∧ g' = set_states_back (set_color (color (states_back g')) (states_back g)) g
        ∧ Colorf_in_unit_interval (color (states_back g')) = true
        ∧ ∃ data, getCurrentBuiltinUniformData g' = Done data g'
                  ∧ constantColor data = gammaCorrectColor (color (states_back g'))
                  ∧ Colorf_in_unit_interval (constantColor data) = true.
Proof.
  intros Hnan Hgamma. eexists. split; [apply setColor_Done |].
  unfold Colorf_has_nan in Hnan.
  apply orb_false_elim in Hnan as [Hnan Ha].
  apply orb_false_elim in Hnan as [Hnan Hb].
  apply orb_false_elim in Hnan as [Hr Hg].
  assert (Colorf_in_unit_interval
            {| Colorf.r := std_min (std_max (Colorf.r c) float_0) float_1;
               Colorf.g := std_min (std_max (Colorf.g c) float_0) float_1;
               Colorf.b := std_min (std_max (Colorf.b c) float_0) float_1;
               Colorf.a := std_min (std_max (Colorf.a c) float_0) float_1 |}
          = true) as Hunit.
  { unfold Colorf_in_unit_interval. cbn [Colorf.r Colorf.g Colorf.b Colorf.a].
    by rewrite !clamp_in_unit_interval. }
  split_and!.
  - destruct g as [? []]; cbn. split_and!; apply clamp_clamped.
  - by destruct g as [? []].
  - destruct g as [? []]. exact Hunit.
  - eexists. split; [reflexivity |]. cbn [constantColor].
    split; [done |]. apply Hgamma. destruct g as [? []]. exact Hunit.
Qed.

Lemma C10_setColor_clamps_witness :
  ∃ g', setColor color_out_of_range sample_backend = Done () g'
        ∧ color (states_back g')
          = Colorf.mk float_0 (S754_finite false 8388608 (-24)) float_1 float_1
        ∧ ∃ data, @getCurrentBuiltinUniformData love_headers g' = Done data g'
                  ∧ Colorf_in_unit_interval (constantColor data) = true.
Proof.
  destruct (@C10_setColor_clamps love_headers color_out_of_range sample_backend)
    as (g' & Hdone & (Hr & Hg & Hb & Ha) & _ & _ & data & Hdata & _ & Hunit).
  - reflexivity.
  - intros c' Hc'. exact Hc'.
  - exists g'. split; [exact Hdone |]. split; [| by exists data].
    destruct Hr as (Hr & _ & _). destruct Hg as (_ & _ & Hg).
    destruct Hb as (_ & Hb & _). destruct Ha as (_ & Ha & _).
    specialize (Hr eq_refl). specialize (Hg eq_refl).
    specialize (Hb eq_refl). specialize (Ha eq_refl).
    destruct (color (states_back g')) as [r0 g0 b0 a0]. cbn in Hr, Hg, Hb, Ha.
    by rewrite Hr, Hg, Hb, Ha.
Defined.

(** A colour with a component that is not a number is stored with that
    component unchanged. *)
Lemma C10_counterexample : ¬ setColor_clamps_as_claimed color_with_nan.
Proof.
  intros Hclaim. destruct (Hclaim sample_backend) as (g' & Hdone & Hunit).
  rewrite setColor_Done in Hdone. injection Hdone as <-.
  vm_compute in Hunit. discriminate Hunit.
Qed.

(** ** Reasoning about state transformers *)

Lemma bind_unfold {A B : Type} (m : M A) (k : A → M B) (g : Graphics) :
  (m ≫= k) g = match m g with
               | Done a g' => k a g'
               | Thrown e g' => Thrown e g'
               | Unfinished => Unfinished
               end.
Proof. reflexivity. Qed.

Lemma bind_Done {A B : Type} (m : M A) (k : A → M B) (g g' : Graphics) (b : B) :
  (m ≫= k) g = Done b g' ↔ ∃ a g1, m g = Done a g1 ∧ k a g1 = Done b g'.
Proof.
  rewrite bind_unfold. destruct (m g) as [a g1 | e g1 |]; split.
  - eauto.
  - intros (? & ? & [= -> ->] & ?); done.
  - done.
  - intros (? & ? & [=] & ?).
  - done.
  - intros (? & ? & [=] & ?).
Qed.

Lemma bind_Thrown {A B : Type} (m : M A) (k : A → M B) (g g' : Graphics)
    (e : Exception) :
  (m ≫= k) g = Thrown e g'
  ↔ m g = Thrown e g' ∨ ∃ a g1, m g = Done a g1 ∧ k a g1 = Thrown e g'.
Proof.
  rewrite bind_unfold. destruct (m g) as [a g1 | e1 g1 |]; split.
  - eauto.
  - intros [[=] | (? & ? & [= -> ->] & ?)]; done.
  - intros [= -> ->]; by left.
  - intros [[= -> ->] | (? & ? & [=] & ?)]; done.
  - done.
  - intros [[=] | (? & ? & [=] & ?)].
Qed.

Lemma bind_get {B : Type} (k : Graphics → M B) (g : Graphics) :
  (get ≫= k) g = k g g.
Proof. reflexivity. Qed.

Lemma bind_ret {A B : Type} (a : A) (k : A → M B) (g : Graphics) :
  (mret a ≫= k) g = k a g.
Proof. reflexivity. Qed.

Lemma bind_modify {B : Type} (f : Graphics → Graphics) (k : unit → M B)
    (g : Graphics) :
  (modify f ≫= k) g = k () (f g).
Proof. reflexivity. Qed.

Lemma bind_emit {B : Type} (e : Event) (k : unit → M B) (g : Graphics) :
  (emit e ≫= k) g = k () (set_trace (trace g ++ [e]) g).
Proof. reflexivity. Qed.

Lemma bind_throw {A B : Type} (what : string) (k : A → M B) (g : Graphics) :
  (throw what ≫= k) g = Thrown (love_Exception what) g.
Proof. reflexivity. Qed.

Lemma bind_Done_l {A B : Type} (m : M A) (k : A → M B) (g g1 : Graphics) (a : A) :
  m g = Done a g1 → (m ≫= k) g = k a g1.
Proof. intros Hm. by rewrite bind_unfold, Hm. Qed.

Lemma at_currentFrame_Done (g : Graphics) :
  (currentFrame g < MAX_FRAMES_IN_FLIGHT)%nat →
  at_currentFrame g = Done (currentFrame g) g.
Proof. intros Hlt. unfold at_currentFrame. by rewrite bind_get, decide_True. Qed.

Lemma at_currentFrame_inv (g g' : Graphics) (slot : nat) :
  at_currentFrame g = Done slot g' →
  g' = g ∧ slot = currentFrame g ∧ (currentFrame g < MAX_FRAMES_IN_FLIGHT)%nat.
Proof.
  unfold at_currentFrame. rewrite bind_get. case_decide; [| done].
  by intros [= <- <-].
Qed.

Lemma vector_at_inv {A : Type} (v : list A) (i : nat) (g g' : Graphics) (x : A) :
  vector_at v i g = Done x g' → g' = g ∧ v !! i = Some x.
Proof.
  unfold vector_at. destruct (v !! i); [| done]. by intros [= <- <-].
Qed.

(** A relation between the backend before and after a function has run,
    whether it returned or threw. *)
Definition preserves {A : Type} (R : Graphics → Graphics → Prop) (m : M A) : Prop :=
  ∀ g, match m g with
       | Done _ g' => R g g'
       | Thrown _ g' => R g g'
       | Unfinished => True
       end.

Section Preserves.
Context (R : Graphics → Graphics → Prop) `{!PreOrder R}.

Lemma preserves_ret {A : Type} (a : A) : preserves R (mret a : M A).
Proof. intros g. simpl. reflexivity. Qed.

Lemma preserves_get : preserves R get.
Proof. intros g. simpl. reflexivity. Qed.

Lemma preserves_throw {A : Type} (what : string) : preserves R (@throw A what).
Proof. intros g. simpl. reflexivity. Qed.

Lemma preserves_thrown {A : Type} (e : Exception) :
  preserves R (λ g, @Thrown A e g).
Proof. intros g. simpl. reflexivity. Qed.

Lemma preserves_unfinished {A : Type} : preserves R (λ _, @Unfinished A).
Proof. intros g. exact I. Qed.

Lemma preserves_lift_outcome {A : Type} (o : outcome A) :
  preserves R (lift_outcome o).
Proof. intros g. destruct o; simpl; reflexivity. Qed.

Lemma preserves_vector_at {A : Type} (v : list A) (i : nat) :
  preserves R (vector_at v i).
Proof. intros g. unfold vector_at. destruct (v !! i); simpl; reflexivity. Qed.

Lemma preserves_at_currentFrame : preserves R at_currentFrame.
Proof.
  intros g. unfold at_currentFrame. rewrite bind_get.
  case_decide; simpl; reflexivity.
Qed.

Lemma preserves_bind {A B : Type} (m : M A) (k : A → M B) :
  preserves R m → (∀ a, preserves R (k a)) → preserves R (m ≫= k).
Proof.
  intros Hm Hk g. rewrite bind_unfold. specialize (Hm g).
  destruct (m g) as [a g1 | e g1 |]; [| done | done].
  specialize (Hk a g1).
  destruct (k a g1) as [b g2 | e g2 |]; [| | done]; by etransitivity.
Qed.

Lemma preserves_modify (f : Graphics → Graphics) :
  (∀ g, R g (f g)) → preserves R (modify f).
Proof. intros Hf g. apply Hf. Qed.

Lemma preserves_emit (e : Event) :
  (∀ g, R g (set_trace (trace g ++ [e]) g)) → preserves R (emit e).
Proof. intros He g. apply He. Qed.

Lemma preserves_for_each {A : Type} (xs : list A) (body : A → M unit) :
  (∀ x, preserves R (body x)) → preserves R (for_each xs body).
Proof.
  intros Hbody. induction xs as [| x xs IH]; simpl.
  - apply preserves_ret.
  - apply preserves_bind; [apply Hbody | intros _; apply IH].
Qed.
End Preserves.

(** What [preserves] gives for a run that returns. *)
Lemma preserves_Done {A : Type} (R : Graphics → Graphics → Prop) (m : M A)
    (g g' : Graphics) (a : A) :
  preserves R m → m g = Done a g' → R g g'.
Proof. intros Hm Hg. specialize (Hm g). by rewrite Hg in Hm. Qed.

Lemma preserves_Thrown {A : Type} (R : Graphics → Graphics → Prop) (m : M A)
    (g g' : Graphics) (e : Exception) :
  preserves R m → m g = Thrown e g' → R g g'.
Proof. intros Hm Hg. specialize (Hm g). by rewrite Hg in Hm. Qed.

(** The trace grows by calls that all satisfy [P]. *)
Definition extends_by (P : Event → Prop) (g g' : Graphics) : Prop :=
  ∃ events, trace g' = trace g ++ events ∧ Forall P events.

#[global] Instance extends_by_preorder (P : Event → Prop) : PreOrder (extends_by P).
Proof.
  split.
  - intros g. exists []. by rewrite app_nil_r.
  - intros g1 g2 g3 (e1 & H1 & HP1) (e2 & H2 & HP2).
    exists (e1 ++ e2). split; [by rewrite H2, H1, app_assoc |].
    by apply Forall_app.
Qed.

(** A member keeps its value. *)
Definition keeps {T : Type} (member : Graphics → T) (g g' : Graphics) : Prop :=
  member g' = member g.

#[global] Instance keeps_preorder {T : Type} (member : Graphics → T) :
  PreOrder (keeps member).
Proof. split; [done | intros g1 g2 g3 H1 H2; unfold keeps in *; congruence]. Qed.

(** Follows the structure of a function down to its assignments and its
    calls, which are left as goals. *)
Ltac preserves_structure :=
  repeat match goal with
    | |- preserves ?R (mret _) => apply (preserves_ret R)
    | |- preserves ?R get => apply (preserves_get R)
    | |- preserves ?R (throw _) => apply (preserves_throw R)
    | |- preserves ?R (λ g, Thrown _ g) => apply (preserves_thrown R)
    | |- preserves ?R (λ _, Unfinished) => apply (preserves_unfinished R)
    | |- preserves ?R (lift_outcome _) => apply (preserves_lift_outcome R)
    | |- preserves ?R (vector_at _ _) => apply (preserves_vector_at R)
    | |- preserves ?R at_currentFrame => apply (preserves_at_currentFrame R)
    | |- preserves ?R (_ ≫= _) => apply (preserves_bind R); [| intros ?]
    | |- preserves ?R (for_each _ _) => apply (preserves_for_each R); intros ?
    | |- preserves ?R (modify _) => apply (preserves_modify R); intros ?
    | |- preserves ?R (emit _) => apply (preserves_emit R); intros ?
    | |- preserves _ (match ?x with _ => _ end) => destruct x
    | |- preserves _ (let '(_, _) := ?x in _) => destruct x
    | |- preserves _ _ => progress cbv beta zeta
    end.

(** Takes apart a hypothesis which says that a function has returned. *)
Ltac minv H :=
  repeat (cbv beta zeta in H;
    match type of H with
    | (get ≫= _) _ = Done _ _ => rewrite bind_get in H
    | (mret _ ≫= _) _ = Done _ _ => rewrite bind_ret in H
    | (modify _ ≫= _) _ = Done _ _ => rewrite bind_modify in H
    | (emit _ ≫= _) _ = Done _ _ => rewrite bind_emit in H
    | (throw _ ≫= _) _ = Done _ _ => discriminate H
    | (at_currentFrame ≫= _) _ = Done _ _ =>
        let cb := fresh "cb" in
        let g := fresh "g" in
        let Hcb := fresh "Hcb" in
        let Hslot := fresh "Hslot" in
        apply bind_Done in H as (cb & g & Hcb & H);
        apply at_currentFrame_inv in Hcb as (-> & -> & Hslot)
    | (vector_at _ _ ≫= _) _ = Done _ _ =>
        let x := fresh "x" in
        let g := fresh "g" in
        let Hat := fresh "Hat" in
        apply bind_Done in H as (x & g & Hat & H);
        apply vector_at_inv in Hat as (-> & Hat)
    | (_ ≫= _) _ = Done _ _ =>
        let a := fresh "a" in
        let g := fresh "g" in
        let Hcall := fresh "Hcall" in
        apply bind_Done in H as (a & g & Hcall & H)
    end).

(** ** What the functions leave alone *)

(** The current frame slot, the queues of deferred clean-ups and the
    activity flag stay as they are, and the calls that are made neither call
    a clean-up nor begin a command buffer. *)
Definition undisturbed (g g' : Graphics) : Prop :=
  currentFrame g' = currentFrame g
  ∧ cleanUpFunctions g' = cleanUpFunctions g
  ∧ active g' = active g
  ∧ extends_by quiet g g'.

#[global] Instance undisturbed_preorder : PreOrder undisturbed.
Proof.
  split.
  - intros g. repeat split. reflexivity.
  - intros g1 g2 g3 (F1 & C1 & A1 & E1) (F2 & C2 & A2 & E2).
    repeat split; try congruence. by etransitivity.
Qed.

Lemma undisturbed_emit (e : Event) (g : Graphics) :
  quiet e → undisturbed g (set_trace (trace g ++ [e]) g).
Proof.
  intros Hq. repeat split. exists [e]. split; [done |]. by constructor.
Qed.

Lemma undisturbed_same_trace (g g' : Graphics) :
  currentFrame g' = currentFrame g →
  cleanUpFunctions g' = cleanUpFunctions g →
  active g' = active g →
  trace g' = trace g →
  undisturbed g g'.
Proof.
  intros. repeat split; try done. exists []. by rewrite app_nil_r.
Qed.

Create HintDb undisturbed.

Ltac solve_undisturbed :=
  preserves_structure;
  first
    [ by apply undisturbed_emit
    | by apply undisturbed_same_trace
    | by eauto with undisturbed
    | idtac ].

Section Undisturbed.
Context `{LoveHeaders} `{Driver}.

Lemma flushBatchedDraws_undisturbed : preserves undisturbed flushBatchedDraws.
Proof. unfold flushBatchedDraws. solve_undisturbed. Qed.
#[local] Hint Resolve flushBatchedDraws_undisturbed : undisturbed.

Lemma createFramebuffer_undisturbed c : preserves undisturbed (createFramebuffer c).
Proof. unfold createFramebuffer. solve_undisturbed. Qed.
#[local] Hint Resolve createFramebuffer_undisturbed : undisturbed.

Lemma getFramebuffer_undisturbed c : preserves undisturbed (getFramebuffer c).
Proof. unfold getFramebuffer. solve_undisturbed. Qed.
#[local] Hint Resolve getFramebuffer_undisturbed : undisturbed.

Lemma createRenderPass_undisturbed c : preserves undisturbed (createRenderPass c).
Proof. unfold createRenderPass. solve_undisturbed. Qed.
#[local] Hint Resolve createRenderPass_undisturbed : undisturbed.

Lemma createSampler_undisturbed s : preserves undisturbed (createSampler s).
Proof. unfold createSampler. solve_undisturbed. Qed.
#[local] Hint Resolve createSampler_undisturbed : undisturbed.

Lemma getCachedSampler_undisturbed s : preserves undisturbed (getCachedSampler s).
Proof. unfold getCachedSampler. solve_undisturbed. Qed.

Lemma createGraphicsPipeline_undisturbed c :
  preserves undisturbed (createGraphicsPipeline c).
Proof. unfold createGraphicsPipeline. solve_undisturbed. Qed.
#[local] Hint Resolve createGraphicsPipeline_undisturbed : undisturbed.

Lemma ensureGraphicsPipelineConfiguration_undisturbed c :
  preserves undisturbed (ensureGraphicsPipelineConfiguration c).
Proof. unfold ensureGraphicsPipelineConfiguration. solve_undisturbed. Qed.
#[local] Hint Resolve ensureGraphicsPipelineConfiguration_undisturbed : undisturbed.

Lemma startRenderPass_undisturbed t w h : preserves undisturbed (startRenderPass t w h).
Proof. unfold startRenderPass. solve_undisturbed. Qed.
#[local] Hint Resolve startRenderPass_undisturbed : undisturbed.

Lemma endRenderPass_undisturbed : preserves undisturbed endRenderPass.
Proof. unfold endRenderPass. solve_undisturbed. Qed.
#[local] Hint Resolve endRenderPass_undisturbed : undisturbed.

Lemma setRenderTargetsInternal_undisturbed rts w h :
  preserves undisturbed (setRenderTargetsInternal rts w h).
Proof. unfold setRenderTargetsInternal. solve_undisturbed. Qed.

Lemma cleanupSwapChain_undisturbed : preserves undisturbed cleanupSwapChain.
Proof. unfold cleanupSwapChain. solve_undisturbed. Qed.
#[local] Hint Resolve cleanupSwapChain_undisturbed : undisturbed.

Lemma createSwapChain_undisturbed : preserves undisturbed createSwapChain.
Proof. unfold createSwapChain. solve_undisturbed. Qed.
#[local] Hint Resolve createSwapChain_undisturbed : undisturbed.

Lemma createImageViews_undisturbed : preserves undisturbed createImageViews.
Proof. unfold createImageViews. solve_undisturbed. Qed.
#[local] Hint Resolve createImageViews_undisturbed : undisturbed.

Lemma recreateSwapChain_undisturbed : preserves undisturbed recreateSwapChain.
Proof. unfold recreateSwapChain. solve_undisturbed. Qed.
#[local] Hint Resolve recreateSwapChain_undisturbed : undisturbed.

Lemma getCurrentBuiltinUniformData_undisturbed :
  preserves undisturbed getCurrentBuiltinUniformData.
Proof. unfold getCurrentBuiltinUniformData. solve_undisturbed. Qed.
#[local] Hint Resolve getCurrentBuiltinUniformData_undisturbed : undisturbed.

Lemma prepareDraw_undisturbed a b t p c : preserves undisturbed (prepareDraw a b t p c).
Proof. unfold prepareDraw. solve_undisturbed. Qed.
#[local] Hint Resolve prepareDraw_undisturbed : undisturbed.

Lemma draw_undisturbed cmd : preserves undisturbed (draw cmd).
Proof. unfold draw. solve_undisturbed. Qed.

Lemma draw_indexed_undisturbed cmd : preserves undisturbed (draw_indexed cmd).
Proof. unfold draw_indexed. solve_undisturbed. Qed.

Lemma drawQuads_loop_undisturbed rounds :
  ∀ count quadindex baseVertex,
    preserves undisturbed (drawQuads_loop rounds count quadindex baseVertex).
Proof.
  induction rounds as [| rounds IH]; intros count quadindex baseVertex;
    cbn [drawQuads_loop]; solve_undisturbed.
Qed.
#[local] Hint Resolve drawQuads_loop_undisturbed : undisturbed.

Lemma drawQuads_undisturbed rounds start count a b t :
  preserves undisturbed (drawQuads rounds start count a b t).
Proof. unfold drawQuads. solve_undisturbed. Qed.

Lemma setFrontFaceWinding_undisturbed w : preserves undisturbed (setFrontFaceWinding w).
Proof. unfold setFrontFaceWinding. solve_undisturbed. Qed.

Lemma setColorMask_undisturbed m : preserves undisturbed (setColorMask m).
Proof. unfold setColorMask. solve_undisturbed. Qed.

Lemma setBlendState_undisturbed b : preserves undisturbed (setBlendState b).
Proof. unfold setBlendState. solve_undisturbed. Qed.

Lemma setPointSize_undisturbed s : preserves undisturbed (setPointSize s).
Proof. unfold setPointSize. solve_undisturbed. Qed.

Lemma setColor_undisturbed c : preserves undisturbed (setColor c).
Proof. unfold setColor. solve_undisturbed. Qed.

Lemma setScissor_undisturbed r : preserves undisturbed (setScissor r).
Proof. unfold setScissor. solve_undisturbed. Qed.

Lemma setScissor_off_undisturbed : preserves undisturbed setScissor_off.
Proof. unfold setScissor_off. solve_undisturbed. Qed.

Lemma setWireframe_undisturbed e : preserves undisturbed (setWireframe e).
Proof. unfold setWireframe. solve_undisturbed. Qed.

Lemma updatedBatchedDrawBuffers_undisturbed :
  preserves undisturbed updatedBatchedDrawBuffers.
Proof. unfold updatedBatchedDrawBuffers. solve_undisturbed. Qed.

Lemma acquireNextImage_loop_undisturbed rounds :
  preserves undisturbed (acquireNextImage_loop rounds).
Proof.
  induction rounds as [| rounds IH]; cbn [acquireNextImage_loop]; solve_undisturbed.
Qed.

Lemma endRecordingGraphicsCommands_undisturbed :
  preserves undisturbed endRecordingGraphicsCommands.
Proof. unfold endRecordingGraphicsCommands. solve_undisturbed. Qed.
End Undisturbed.

(** ** Batches of quads *)

Lemma wrap_int_small (z : Z) : INT_MIN ≤ z ≤ INT_MAX → wrap_int z = z.
Proof.
  unfold INT_MIN, INT_MAX, wrap_int. intros Hz.
  rewrite Z.mod_small by lia. lia.
Qed.

Lemma to_uint32_small (z : Z) : 0 ≤ z ≤ INT_MAX → to_uint32 z = z.
Proof.
  unfold INT_MAX, to_uint32. intros Hz. apply Z.mod_small. lia.
Qed.

Lemma loop_draws_quad_draws (n : nat) (slot : nat) (per_draw count : Z) :
  ∀ (j : nat) (start : Z),
    loop_draws n slot per_draw count (Z.of_nat j * per_draw)
      (start * 4 + Z.of_nat j * per_draw * 4)
    = map (λ k : nat,
             CmdDrawIndexed slot (Z.min per_draw (count - Z.of_nat k * per_draw) * 6)
               1 0 (start * 4 + Z.of_nat k * per_draw * 4) 0)
        (seq j n).
Proof.
  induction n as [| n IH]; intros j start; simpl; [done |].
  f_equal.
  replace (Z.of_nat j * per_draw + per_draw) with (Z.of_nat (S j) * per_draw) by lia.
  replace (start * 4 + Z.of_nat j * per_draw * 4 + per_draw * 4)
    with (start * 4 + Z.of_nat (S j) * per_draw * 4) by lia.
  apply IH.
Qed.

Section Quads.
Context `{LoveHeaders} `{Driver}.

Lemma batches_zero (count quadindex : Z) :
  0 < MAX_QUADS_PER_DRAW → count ≤ quadindex →
  Z.to_nat ((count - quadindex + MAX_QUADS_PER_DRAW - 1) / MAX_QUADS_PER_DRAW) = 0%nat.
Proof.
  intros HM Hle.
  assert ((count - quadindex + MAX_QUADS_PER_DRAW - 1) / MAX_QUADS_PER_DRAW ≤ 0); [| lia].
  apply Z.lt_succ_r. apply Z.div_lt_upper_bound; lia.
Qed.

Lemma batches_succ (count quadindex : Z) :
  0 < MAX_QUADS_PER_DRAW → quadindex < count →
  Z.to_nat ((count - quadindex + MAX_QUADS_PER_DRAW - 1) / MAX_QUADS_PER_DRAW)
  = S (Z.to_nat ((count - (quadindex + MAX_QUADS_PER_DRAW) + MAX_QUADS_PER_DRAW - 1)
                 / MAX_QUADS_PER_DRAW)).
Proof.
  intros HM Hlt.
  replace (count - quadindex + MAX_QUADS_PER_DRAW - 1)
    with ((count - (quadindex + MAX_QUADS_PER_DRAW) + MAX_QUADS_PER_DRAW - 1)
          + 1 * MAX_QUADS_PER_DRAW) by lia.
  rewrite Z.div_add by lia.
  assert (0 ≤ (count - (quadindex + MAX_QUADS_PER_DRAW) + MAX_QUADS_PER_DRAW - 1)
              / MAX_QUADS_PER_DRAW) by (apply Z.div_pos; lia).
  lia.
Qed.

Lemma drawQuads_loop_Done (rounds : nat) :
  ∀ (count quadindex baseVertex : Z) (g : Graphics),
    0 < MAX_QUADS_PER_DRAW →
    MAX_QUADS_PER_DRAW * 6 ≤ INT_MAX →
    (currentFrame g < MAX_FRAMES_IN_FLIGHT)%nat →
    0 ≤ quadindex →
    count + MAX_QUADS_PER_DRAW ≤ INT_MAX →
    INT_MIN ≤ baseVertex →
    baseVertex + (count - quadindex) * 4 ≤ INT_MAX →
    (Z.to_nat ((count - quadindex + MAX_QUADS_PER_DRAW - 1) / MAX_QUADS_PER_DRAW)
     ≤ rounds)%nat →
    drawQuads_loop rounds count quadindex baseVertex g
    = Done ()
        (set_trace
           (trace g
            ++ loop_draws
                 (Z.to_nat ((count - quadindex + MAX_QUADS_PER_DRAW - 1)
                            / MAX_QUADS_PER_DRAW))
                 (currentFrame g) MAX_QUADS_PER_DRAW count quadindex baseVertex)
           g).
Proof.
  induction rounds as [| rounds IH];
    intros count quadindex baseVertex g HM HM6 Hslot Hq Hcount Hlo Hhi Hrounds.
  - destruct (Z.ltb_spec quadindex count) as [Hlt | Hge].
    + rewrite batches_succ in Hrounds by done. lia.
    + rewrite batches_zero by done. simpl.
      destruct (quadindex <? count) eqn:E; [lia |].
      rewrite app_nil_r. by destruct g.
  - cbn [drawQuads_loop].
    destruct (Z.ltb_spec quadindex count) as [Hlt | Hge].
    + rewrite batches_succ in * by done.
      rewrite bind_Done_l with (1 := at_currentFrame_Done g Hslot).
      rewrite bind_emit.
      rewrite (wrap_int_small (count - quadindex)) by (unfold INT_MIN, INT_MAX in *; lia).
      set (quadcount := Z.min MAX_QUADS_PER_DRAW (count - quadindex)).
      assert (0 < quadcount ≤ MAX_QUADS_PER_DRAW) by lia.
      rewrite (wrap_int_small (quadcount * 6)) by (unfold INT_MIN, INT_MAX in *; lia).
      rewrite to_uint32_small by lia.
      rewrite (wrap_int_small (quadindex + _)) by (unfold INT_MIN, INT_MAX in *; lia).
      rewrite (wrap_int_small (quadcount * 4)) by (unfold INT_MIN, INT_MAX in *; lia).
      rewrite (wrap_int_small (baseVertex + _)) by (unfold INT_MIN, INT_MAX in *; lia).
      rewrite IH; try done; cbn [trace currentFrame set_trace]; try lia.
      * f_equal. cbn [loop_draws]. rewrite <- app_assoc. cbn [app].
        destruct (decide (count - quadindex ≤ MAX_QUADS_PER_DRAW)) as [Hlast | Hmore].
        -- rewrite batches_zero by lia. cbn [loop_draws]. reflexivity.
        -- subst quadcount. rewrite !Z.min_l by lia. reflexivity.
    + rewrite batches_zero by done. simpl.
      rewrite app_nil_r. by destruct g.
Qed.
End Quads.

(** ** Preparing a draw *)

(** At most the pipeline cache, the bound pipeline and the trace differ. *)
Definition differs_in_pipeline (g g' : Graphics) : Prop :=
  g' = set_currentGraphicsPipeline (currentGraphicsPipeline g')
         (set_graphicsPipelines (graphicsPipelines g') (set_trace (trace g') g)).

(** [prepareDraw] and what it calls change nothing but the pipeline cache
    and the bound pipeline, and record neither a draw nor the binding of an
    index buffer. *)
Definition prepared (g g' : Graphics) : Prop :=
  differs_in_pipeline g g'
  ∧ extends_by (λ e, is_draw_command e = false) g g'.

#[global] Instance prepared_preorder : PreOrder prepared.
Proof.
  split.
  - intros g. split; [by destruct g | reflexivity].
  - intros g1 g2 g3 [D1 E1] [D2 E2]. split; [| by etransitivity].
    unfold differs_in_pipeline in *. rewrite D2 at 1. rewrite D1 at 1.
    by destruct g1.
Qed.

Lemma prepared_emit (e : Event) (g : Graphics) :
  is_draw_command e = false → prepared g (set_trace (trace g ++ [e]) g).
Proof.
  intros He. split; [by destruct g |].
  exists [e]. split; [done | by constructor].
Qed.

Lemma prepared_set_currentGraphicsPipeline (p : VkPipeline) (g : Graphics) :
  prepared g (set_currentGraphicsPipeline p g).
Proof. split; [by destruct g | exists []; by rewrite app_nil_r]. Qed.

Lemma prepared_set_graphicsPipelines
    (m : gmap GraphicsPipelineConfiguration VkPipeline) (g : Graphics) :
  prepared g (set_graphicsPipelines m g).
Proof. split; [by destruct g | exists []; by rewrite app_nil_r]. Qed.

Create HintDb prepared.

Ltac solve_prepared :=
  preserves_structure;
  first
    [ by apply prepared_emit
    | apply prepared_set_currentGraphicsPipeline
    | apply prepared_set_graphicsPipelines
    | by eauto with prepared
    | idtac ].

(** A function that always comes to an end. *)
Definition terminates {A : Type} (m : M A) : Prop := ∀ g, m g ≠ Unfinished.

Lemma terminates_bind {A B : Type} (m : M A) (k : A → M B) :
  terminates m → (∀ a, terminates (k a)) → terminates (m ≫= k).
Proof.
  intros Hm Hk g. rewrite bind_unfold. specialize (Hm g).
  destruct (m g) as [a g1 | e g1 |]; [apply Hk | done | done].
Qed.

Ltac terminates_structure :=
  repeat match goal with
    | H : terminates ?m |- terminates ?m => exact H
    | H : ∀ x, terminates _ |- terminates _ => apply H
    | |- terminates (_ ≫= _) => apply terminates_bind; [| intros ?]
    | |- terminates (match ?x with _ => _ end) => destruct x
    | |- terminates (let '(_, _) := ?x in _) => destruct x
    | |- terminates _ => progress cbv beta zeta
    | |- terminates _ =>
        solve [intros ?; try unfold vector_at; try case_match; done]
    end.

Section Prepare.
Context `{LoveHeaders} `{Driver}.

Lemma getCurrentBuiltinUniformData_prepared :
  preserves prepared getCurrentBuiltinUniformData.
Proof. unfold getCurrentBuiltinUniformData. solve_prepared. Qed.
#[local] Hint Resolve getCurrentBuiltinUniformData_prepared : prepared.

Lemma createGraphicsPipeline_prepared c :
  preserves prepared (createGraphicsPipeline c).
Proof. unfold createGraphicsPipeline. solve_prepared. Qed.
#[local] Hint Resolve createGraphicsPipeline_prepared : prepared.

Lemma ensureGraphicsPipelineConfiguration_prepared c :
  preserves prepared (ensureGraphicsPipelineConfiguration c).
Proof. unfold ensureGraphicsPipelineConfiguration. solve_prepared. Qed.
#[local] Hint Resolve ensureGraphicsPipelineConfiguration_prepared : prepared.

Lemma prepareDraw_prepared a b t p c : preserves prepared (prepareDraw a b t p c).
Proof. unfold prepareDraw. solve_prepared. Qed.

Lemma at_currentFrame_terminates : terminates at_currentFrame.
Proof. unfold at_currentFrame. terminates_structure. Qed.

Lemma createGraphicsPipeline_terminates c : terminates (createGraphicsPipeline c).
Proof. unfold createGraphicsPipeline. terminates_structure. Qed.

Lemma ensureGraphicsPipelineConfiguration_terminates c :
  terminates (ensureGraphicsPipelineConfiguration c).
Proof.
  pose proof at_currentFrame_terminates.
  pose proof createGraphicsPipeline_terminates.
  unfold ensureGraphicsPipelineConfiguration. terminates_structure.
Qed.

Lemma prepareDraw_terminates a b t p c : terminates (prepareDraw a b t p c).
Proof.
  pose proof at_currentFrame_terminates.
  pose proof ensureGraphicsPipelineConfiguration_terminates.
  unfold prepareDraw, getCurrentBuiltinUniformData. terminates_structure.
Qed.

(** After [prepareDraw] has returned, the current frame slot is one of the
    slots of the ring. *)
Lemma prepareDraw_Done_slot a b t p c (g g' : Graphics) :
  prepareDraw a b t p c g = Done () g' →
  (currentFrame g' < MAX_FRAMES_IN_FLIGHT)%nat.
Proof.
  unfold prepareDraw. intros Hd. minv Hd.
  injection Hd as <-. assumption.
Qed.
End Prepare.

Lemma filter_no_draw_indexed (events : list Event) :
  Forall (λ e, is_draw_command e = false) events →
  filter (λ e, is_CmdDrawIndexed e = true) events = [].
Proof.
  induction 1 as [| e events He _ IH]; [done |].
  rewrite filter_cons, IH. case_decide as Hd; [| done].
  by destruct e.
Qed.

Lemma filter_quad_draws (slot : nat) (per_draw start count : Z) :
  filter (λ e, is_CmdDrawIndexed e = true) (quad_draws slot per_draw start count)
  = quad_draws slot per_draw start count.
Proof.
  unfold quad_draws. induction (seq 0 _) as [| k l IH]; [done |].
  cbn [map]. rewrite filter_cons, IH. by rewrite decide_True.
Qed.

Lemma bind_lift_Returns {A B : Type} (a : A) (k : A → M B) (g : Graphics) :
  (lift_outcome (Returns a) ≫= k) g = k a g.
Proof. reflexivity. Qed.

Lemma bind_lift_Throws {A B : Type} (e : Exception) (k : A → M B) (g : Graphics) :
  (lift_outcome (Throws e) ≫= k) g = Thrown e g.
Proof. reflexivity. Qed.

Section QuadBatches.
Context `{LoveHeaders} `{Driver}.

(** C1, as amended: a call of [drawQuads] that stays within the range of
    [int] records exactly ceil(count / MAX_QUADS_PER_DRAW) indexed draws,
    where MAX_QUADS_PER_DRAW is LOVE_UINT16_MAX / 4 (16383 for the 16-bit
    maximum 65535); the k-th draw uses the base vertex
    start*4 + k*MAX_QUADS_PER_DRAW*4 and draws
    min(MAX_QUADS_PER_DRAW, count - k*MAX_QUADS_PER_DRAW)*6 indices. *)
Theorem C1_drawQuads_batches (rounds : nat) (start count : Z)
    (attributes : VertexAttributes) (buffers : BufferBindings)
    (texture : option Texture) (g g1 : Graphics) :
  0 < MAX_QUADS_PER_DRAW →
  MAX_QUADS_PER_DRAW * 6 ≤ INT_MAX →
  0 ≤ count →
  INT_MIN ≤ start * 4 →
  start * 4 + count * 4 ≤ INT_MAX →
  count + MAX_QUADS_PER_DRAW ≤ INT_MAX →
  prepareDraw attributes buffers texture PRIMITIVE_TRIANGLES CULL_BACK g = Done () g1 →
  (Z.to_nat ((count + MAX_QUADS_PER_DRAW - 1) / MAX_QUADS_PER_DRAW) ≤ rounds)%nat →
  ∃ g' events,
    drawQuads rounds start count attributes buffers texture g = Done () g'
    ∧ trace g' = trace g ++ events
    ∧ filter (λ e, is_CmdDrawIndexed e = true) events
      = quad_draws (currentFrame g) MAX_QUADS_PER_DRAW start count
    ∧ length (quad_draws (currentFrame g) MAX_QUADS_PER_DRAW start count)
      = Z.to_nat ((count + MAX_QUADS_PER_DRAW - 1) / MAX_QUADS_PER_DRAW).
Proof.
  intros HM HM6 Hpos Hlo Hhi Hcount Hprep Hrounds.
  pose proof (prepareDraw_Done_slot _ _ _ _ _ _ _ Hprep) as Hslot.
  pose proof (preserves_Done _ _ _ _ _ (prepareDraw_prepared _ _ _ _ _) Hprep)
    as [Hdiff (evs & Htrace & Hquiet)].
  assert (currentFrame g1 = currentFrame g) as Hframe by (rewrite Hdiff; by destruct g).
  eexists _, _. split_and!.
  - unfold drawQuads.
    rewrite bind_Done_l with (1 := Hprep).
    rewrite bind_Done_l with (1 := at_currentFrame_Done g1 Hslot).
    change (getVulkanIndexBufferType INDEX_UINT16)
      with (Returns VK_INDEX_TYPE_UINT16).
    rewrite bind_lift_Returns, bind_get, bind_emit.
    rewrite (wrap_int_small (start * 4)) by (unfold INT_MIN, INT_MAX in *; lia).
    apply drawQuads_loop_Done; cbn [trace currentFrame set_trace]; try done; try lia.
    by rewrite Z.sub_0_r.
  - cbn [trace set_trace]. rewrite Htrace, <- !app_assoc. reflexivity.
  - rewrite !filter_app, (filter_no_draw_indexed _ Hquiet).
    rewrite filter_cons, decide_False by done. cbn [app filter].
    rewrite Z.sub_0_r. cbn [currentFrame set_trace]. rewrite Hframe.
    pose proof (loop_draws_quad_draws
                  (Z.to_nat ((count + MAX_QUADS_PER_DRAW - 1) / MAX_QUADS_PER_DRAW))
                  (currentFrame g) MAX_QUADS_PER_DRAW count 0 start) as Hl.
    rewrite Z.mul_0_l, Z.add_0_r in Hl. cbn [Z.of_nat] in Hl.
    rewrite Hl. apply filter_quad_draws.
  - unfold quad_draws. by rewrite length_map, length_seq.
Qed.
End QuadBatches.

(** ** Running [prepareDraw] *)

Section RunPrepareDraw.
Context `{LoveHeaders} `{Driver}.

Lemma createGraphicsPipeline_unfold (c : GraphicsPipelineConfiguration) (g : Graphics) :
  createGraphicsPipeline c g =
    let reply := vkCreateGraphicsPipelines (trace g) (pipelineInfo g c) in
    let g1 := set_trace (trace g ++ [CreateGraphicsPipelines (pipelineInfo g c) reply.1 reply.2]) g in
    if decide (reply.1 ≠ VK_SUCCESS)
    then Thrown (love_Exception "failed to create graphics pipeline") g1
    else Done reply.2 g1.
Proof.
  unfold createGraphicsPipeline, pipelineInfo. rewrite bind_get.
  destruct (createVulkanVertexFormat (vertexAttributes c)) as [bs ats] eqn:Hf.
  cbn [fst snd].
  destruct (cfg_scissorRect c); cbn [fst snd];
    destruct (vkCreateGraphicsPipelines _ _) as [r p]; cbn [fst snd];
    rewrite bind_emit; by case_decide.
Qed.

Lemma at_currentFrame_Done_eq (g : Graphics) (slot : nat) :
  currentFrame g = slot → (slot < MAX_FRAMES_IN_FLIGHT)%nat →
  at_currentFrame g = Done slot g.
Proof. intros <-. apply at_currentFrame_Done. Qed.

Lemma ensure_hit_same (c : GraphicsPipelineConfiguration) (g : Graphics) :
  graphicsPipelines g !! c = Some (currentGraphicsPipeline g) →
  ensureGraphicsPipelineConfiguration c g = Done () g.
Proof.
  intros Hl. unfold ensureGraphicsPipelineConfiguration.
  rewrite bind_get, Hl. by rewrite decide_False by (by intros []).
Qed.

Lemma ensure_hit_other (c : GraphicsPipelineConfiguration) (p : VkPipeline)
    (g : Graphics) :
  graphicsPipelines g !! c = Some p →
  p ≠ currentGraphicsPipeline g →
  (currentFrame g < MAX_FRAMES_IN_FLIGHT)%nat →
  ensureGraphicsPipelineConfiguration c g
  = Done ()
      (set_currentGraphicsPipeline p
         (set_trace (trace g ++ [CmdBindPipeline (currentFrame g) p]) g)).
Proof.
  intros Hl Hne Hslot. unfold ensureGraphicsPipelineConfiguration.
  rewrite bind_get, Hl, decide_True by done.
  rewrite bind_Done_l with (1 := at_currentFrame_Done g Hslot).
  by rewrite bind_emit.
Qed.

Lemma ensure_miss (c : GraphicsPipelineConfiguration) (p : VkPipeline)
    (g : Graphics) :
  graphicsPipelines g !! c = None →
  (currentFrame g < MAX_FRAMES_IN_FLIGHT)%nat →
  vkCreateGraphicsPipelines (trace g) (pipelineInfo g c) = (VK_SUCCESS, p) →
  ensureGraphicsPipelineConfiguration c g
  = Done ()
      (set_currentGraphicsPipeline p
         (set_trace
            (trace g ++ [CreateGraphicsPipelines (pipelineInfo g c) VK_SUCCESS p;
                         CmdBindPipeline (currentFrame g) p])
            (set_graphicsPipelines (<[c := p]> (graphicsPipelines g)) g))).
Proof.
  intros Hl Hslot Hreply. unfold ensureGraphicsPipelineConfiguration.
  rewrite bind_get, Hl.
  rewrite bind_unfold, createGraphicsPipeline_unfold, Hreply. cbn [fst snd].
  rewrite decide_False by (by intros []).
  rewrite bind_modify.
  rewrite bind_Done_l with (a := currentFrame g)
    (g1 := set_graphicsPipelines (<[c := p]> (graphicsPipelines g))
             (set_trace (trace g ++ [CreateGraphicsPipelines (pipelineInfo g c) VK_SUCCESS p]) g)).
  2: { by apply at_currentFrame_Done_eq. }
  rewrite bind_emit. cbn [trace set_trace set_graphicsPipelines].
  by rewrite <- app_assoc.
Qed.

(** [prepareDraw] in terms of the resolution of the pipeline. *)
Lemma prepareDraw_unfold a b t p c (g g1 : Graphics) :
  ensureGraphicsPipelineConfiguration (prepareDraw_configuration g a p c)
    (set_trace (trace g ++ prepareDraw_before g a t) g) = Done () g1 →
  (currentFrame g1 < MAX_FRAMES_IN_FLIGHT)%nat →
  prepareDraw a b t p c g
  = Done () (set_trace (trace g1 ++ prepareDraw_after g a b) g1).
Proof.
  intros Hensure Hslot. unfold prepareDraw.
  rewrite bind_get. cbv zeta.
  unfold getCurrentBuiltinUniformData at 1. rewrite bind_unfold, bind_get.
  cbn [mret M_ret]. rewrite !bind_emit.
  cbn [trace set_trace].
  pose proof (preserves_Done _ _ _ _ _
                (ensureGraphicsPipelineConfiguration_prepared _) Hensure) as [Hd _].
  rewrite <- app_assoc. cbn [app].
  match goal with
  | |- (ensureGraphicsPipelineConfiguration _ ≫= _) ?s = _ =>
      replace s with (set_trace (trace g ++ prepareDraw_before g a t) g)
        by (by destruct g)
  end.
  rewrite bind_Done_l with (1 := Hensure).
  rewrite bind_Done_l with (1 := at_currentFrame_Done g1 Hslot).
  rewrite bind_emit.
  rewrite bind_Done_l with (a := currentFrame g1)
    (g1 := set_trace (trace g1 ++ [CmdPushDescriptorSets
             (shader (prepareDraw_configuration g a p c)) (currentFrame g1)
             (to_uint32 (Z.of_nat (currentFrame g1)))]) g1).
  2: { by apply at_currentFrame_Done_eq. }
  unfold emit, modify. cbn [trace set_trace].
  assert (currentFrame g1 = currentFrame g) as ->.
  { rewrite Hd. by destruct g. }
  unfold prepareDraw_after. rewrite <- app_assoc. cbn [app].
  f_equal.
Qed.
End RunPrepareDraw.

Lemma sample_prepareDraw (attributes : VertexAttributes) :
  ∃ g1, @prepareDraw love_headers ideal_driver attributes sample_buffers None
          PRIMITIVE_TRIANGLES CULL_BACK sample_backend = Done () g1.
Proof.
  eexists. eapply @prepareDraw_unfold.
  - eapply @ensure_miss.
    + apply lookup_empty.
    + cbn; unfold MAX_FRAMES_IN_FLIGHT; lia.
    + reflexivity.
  - cbn; unfold MAX_FRAMES_IN_FLIGHT; lia.
Qed.

Lemma C1_drawQuads_batches_witness :
  ∃ g' events,
    @drawQuads love_headers ideal_driver 3 10 40000 layout_position_color
      sample_buffers None sample_backend = Done () g'
    ∧ trace g' = trace sample_backend ++ events
    ∧ filter (λ e, is_CmdDrawIndexed e = true) events
      = quad_draws 0 16383 10 40000
    ∧ length (quad_draws 0 16383 10 40000) = 3%nat.
Proof.
  eapply (@C1_drawQuads_batches love_headers ideal_driver 3 10 40000
            layout_position_color sample_buffers None sample_backend).
  - vm_compute. reflexivity.
  - vm_compute. discriminate.
  - vm_compute. discriminate.
  - vm_compute. discriminate.
  - vm_compute. discriminate.
  - vm_compute. discriminate.
  - eapply @prepareDraw_unfold.
    + eapply @ensure_miss; [apply lookup_empty | cbn; unfold MAX_FRAMES_IN_FLIGHT; lia | reflexivity].
    + cbn; unfold MAX_FRAMES_IN_FLIGHT; lia.
  - vm_compute. lia.
Defined.

(** With 16385 quads the first draw has 16383 quads, not 16384, and the
    second one starts at vertex 65532, not 65536. *)
Lemma C1_counterexample :
  ¬ @drawQuads_batches_as_claimed love_headers ideal_driver 0 16385.
Proof.
  intros Hclaim.
  destruct (sample_prepareDraw layout_position_color) as [g1 Hprep].
  destruct (@C1_drawQuads_batches love_headers ideal_driver 2 0 16385
              layout_position_color sample_buffers None sample_backend g1)
    as (g' & events & Hdone & Htrace & Hdraws & _);
    try (vm_compute; first [reflexivity | discriminate | lia]); [exact Hprep |].
  destruct (Hclaim _ _ _ _ _ _ Hdone) as (events' & Htrace' & Hdraws').
  rewrite Htrace in Htrace'. apply app_inv_head in Htrace' as <-.
  rewrite Hdraws in Hdraws'. vm_compute in Hdraws'. discriminate Hdraws'.
Qed.

(** ** Index types of indexed draws *)

Section IndexedDraws.
Context `{LoveHeaders} `{Driver}.

(** C9: an indexed draw whose index type is neither 16-bit nor 32-bit
    throws, and records neither a draw nor the binding of an index buffer;
    the exception is "unknown Index Data type" as soon as the preparation
    of the draw has gone through.  For the two supported types the
    translation of the index type returns. *)
Theorem C9_unknown_index_type (cmd : DrawIndexedCommand) (g : Graphics) :
  (dic_indexType cmd ≠ INDEX_UINT16 → dic_indexType cmd ≠ INDEX_UINT32 →
   getVulkanIndexBufferType (dic_indexType cmd)
     = Throws (love_Exception "unknown Index Data type")
   ∧ (∃ e g' events,
        draw_indexed cmd g = Thrown e g'
        ∧ trace g' = trace g ++ events
        ∧ Forall (λ ev, is_draw_command ev = false) events)
   ∧ (∀ g1,
        prepareDraw (dic_attributes cmd) (dic_buffers cmd) (dic_texture cmd)
          (dic_primitiveType cmd) (dic_cullMode cmd) g = Done () g1 →
        draw_indexed cmd g
          = Thrown (love_Exception "unknown Index Data type") g1))
  ∧ (dic_indexType cmd = INDEX_UINT16 ∨ dic_indexType cmd = INDEX_UINT32 →
     ∃ t, getVulkanIndexBufferType (dic_indexType cmd) = Returns t).
Proof.
  split; [| apply getVulkanIndexBufferType_supported].
  intros H16 H32.
  pose proof (getVulkanIndexBufferType_unsupported _ H16 H32) as Hthrows.
  split; [exact Hthrows |].
  assert (Hafter : ∀ g1,
    prepareDraw (dic_attributes cmd) (dic_buffers cmd) (dic_texture cmd)
      (dic_primitiveType cmd) (dic_cullMode cmd) g = Done () g1 →
    draw_indexed cmd g = Thrown (love_Exception "unknown Index Data type") g1).
  { intros g1 Hprep. unfold draw_indexed.
    rewrite bind_Done_l with (1 := Hprep).
    rewrite bind_Done_l
      with (1 := at_currentFrame_Done g1 (prepareDraw_Done_slot _ _ _ _ _ _ _ Hprep)).
    rewrite Hthrows. apply bind_lift_Throws. }
  split; [| exact Hafter].
  pose proof (prepareDraw_prepared (dic_attributes cmd) (dic_buffers cmd)
                (dic_texture cmd) (dic_primitiveType cmd) (dic_cullMode cmd) g)
    as Hprepared.
  pose proof (prepareDraw_terminates (dic_attributes cmd) (dic_buffers cmd)
                (dic_texture cmd) (dic_primitiveType cmd) (dic_cullMode cmd) g)
    as Hends.
  destruct (prepareDraw _ _ _ _ _ g) as [[] g1 | e g1 |] eqn:Hprep; [| | done].
  - destruct Hprepared as [_ (events & Htrace & Hno)].
    exists (love_Exception "unknown Index Data type"), g1, events.
    split; [by apply Hafter | done].
  - destruct Hprepared as [_ (events & Htrace & Hno)].
    exists e, g1, events. split; [| done].
    unfold draw_indexed. by rewrite bind_unfold, Hprep.
Qed.
End IndexedDraws.

Lemma C9_unknown_index_type_witness :
  (∃ e g' events,
     @draw_indexed love_headers ideal_driver
       (draw_with_index_type INDEX_MAX_ENUM) sample_backend = Thrown e g'
     ∧ trace g' = trace sample_backend ++ events
     ∧ Forall (λ ev, is_draw_command ev = false) events)
  ∧ ∃ t, getVulkanIndexBufferType INDEX_UINT32 = Returns t.
Proof.
  destruct (@C9_unknown_index_type love_headers ideal_driver
              (draw_with_index_type INDEX_MAX_ENUM) sample_backend) as [Hbad _].
  destruct (@C9_unknown_index_type love_headers ideal_driver
              (draw_with_index_type INDEX_UINT32) sample_backend) as [_ Hgood].
  split.
  - apply Hbad; discriminate.
  - apply Hgood. right. reflexivity.
Defined.

(** * Further properties *)

(** ** The object caches *)

Section Caches.
Context `{LoveHeaders} `{Driver}.

Lemma createFramebuffer_unfold (c : FramebufferConfiguration) (g : Graphics) :
  createFramebuffer c g =
    let reply := vkCreateFramebuffer (trace g) c in
    let g1 := set_trace (trace g ++ [CreateFramebuffer c reply.1 reply.2]) g in
    if decide (reply.1 ≠ VK_SUCCESS)
    then Thrown (love_Exception "failed to create framebuffer") g1
    else Done reply.2 g1.
Proof.
  unfold createFramebuffer. rewrite bind_get.
  destruct (vkCreateFramebuffer _ _) as [r h]; cbn [fst snd].
  rewrite bind_emit. by case_decide.
Qed.

Lemma createRenderPass_unfold (c : RenderPassConfiguration) (g : Graphics) :
  createRenderPass c g =
    let reply := vkCreateRenderPass (trace g) c in
    let g1 := set_trace (trace g ++ [CreateRenderPass c reply.1 reply.2]) g in
    if decide (reply.1 ≠ VK_SUCCESS)
    then Thrown (love_Exception "failed to create render pass") g1
    else Done reply.2 g1.
Proof.
  unfold createRenderPass. rewrite bind_get.
  destruct (vkCreateRenderPass _ _) as [r h]; cbn [fst snd].
  rewrite bind_emit. by case_decide.
Qed.

Lemma createSampler_unfold (s : SamplerState) (g : Graphics) :
  createSampler s g =
    let reply := vkCreateSampler (trace g) s in
    let g1 := set_trace (trace g ++ [CreateSampler s reply.1 reply.2]) g in
    if decide (reply.1 ≠ VK_SUCCESS)
    then Thrown (love_Exception "failed to create sampler") g1
    else Done reply.2 g1.
Proof.
  unfold createSampler. rewrite bind_get.
  destruct (vkCreateSampler _ _) as [r h]; cbn [fst snd].
  rewrite bind_emit. by case_decide.
Qed.

Lemma getFramebuffer_hit (c : FramebufferConfiguration) (h : VkFramebuffer)
    (g : Graphics) :
  framebuffers g !! c = Some h → getFramebuffer c g = Done h g.
Proof. intros Hl. unfold getFramebuffer. by rewrite bind_get, Hl. Qed.

Lemma getFramebuffer_miss (c : FramebufferConfiguration) (g : Graphics) :
  framebuffers g !! c = None →
  getFramebuffer c g =
    let reply := vkCreateFramebuffer (trace g) c in
    let g1 := set_trace (trace g ++ [CreateFramebuffer c reply.1 reply.2]) g in
    if decide (reply.1 ≠ VK_SUCCESS)
    then Thrown (love_Exception "failed to create framebuffer") g1
    else Done reply.2 (set_framebuffers (<[c := reply.2]> (framebuffers g)) g1).
Proof.
  intros Hl. unfold getFramebuffer. rewrite bind_get, Hl.
  rewrite bind_unfold, createFramebuffer_unfold. cbv zeta.
  case_decide; [done |]. by rewrite bind_modify.
Qed.

Lemma getCachedSampler_hit (s : SamplerState) (h : VkSampler) (g : Graphics) :
  samplers g !! s = Some h → getCachedSampler s g = Done h g.
Proof. intros Hl. unfold getCachedSampler. by rewrite bind_get, Hl. Qed.

Lemma getCachedSampler_miss (s : SamplerState) (g : Graphics) :
  samplers g !! s = None →
  getCachedSampler s g =
    let reply := vkCreateSampler (trace g) s in
    let g1 := set_trace (trace g ++ [CreateSampler s reply.1 reply.2]) g in
    if decide (reply.1 ≠ VK_SUCCESS)
    then Thrown (love_Exception "failed to create sampler") g1
    else Done reply.2 (set_samplers (<[s := reply.2]> (samplers g)) g1).
Proof.
  intros Hl. unfold getCachedSampler. rewrite bind_get, Hl.
  rewrite bind_unfold, createSampler_unfold. cbv zeta.
  case_decide; [done |]. by rewrite bind_modify.
Qed.


End Caches.

(** Nothing but the trace changes, and it grows by calls that satisfy [P]. *)
Definition records (P : Event → Prop) (g g' : Graphics) : Prop :=
  g' = set_trace (trace g') g ∧ extends_by P g g'.

#[global] Instance records_preorder (P : Event → Prop) : PreOrder (records P).
Proof.
  split.
  - intros g. split; [by destruct g | reflexivity].
  - intros g1 g2 g3 [D1 E1] [D2 E2]. split; [| by etransitivity].
    rewrite D2 at 1. rewrite D1 at 1. by destruct g1.
Qed.

Lemma records_emit (P : Event → Prop) (e : Event) (g : Graphics) :
  P e → records P g (set_trace (trace g ++ [e]) g).
Proof.
  intros He. split; [by destruct g |]. exists [e]. split; [done | by constructor].
Qed.

Ltac solve_records :=
  preserves_structure;
  first [ by apply records_emit | done | idtac ].

Definition no_pipeline_event (e : Event) : Prop :=
  is_CmdBindPipeline e = false ∧ is_CreateGraphicsPipelines e = false.

Lemma pipelineBinds_app (e1 e2 : list Event) :
  pipelineBinds (e1 ++ e2) = (pipelineBinds e1 + pipelineBinds e2)%nat.
Proof. unfold pipelineBinds. by rewrite filter_app, length_app. Qed.

Lemma pipelineBuilds_app (e1 e2 : list Event) :
  pipelineBuilds (e1 ++ e2) = (pipelineBuilds e1 + pipelineBuilds e2)%nat.
Proof. unfold pipelineBuilds. by rewrite filter_app, length_app. Qed.

Lemma no_pipeline_event_counts (events : list Event) :
  Forall no_pipeline_event events →
  pipelineBinds events = 0%nat ∧ pipelineBuilds events = 0%nat.
Proof.
  unfold pipelineBinds, pipelineBuilds.
  induction 1 as [| e events [Hb Hc] _ [IH1 IH2]]; [done |].
  rewrite !filter_cons, !decide_False by congruence. done.
Qed.

Section Pipelines.
Context `{LoveHeaders} `{Driver}.

Lemma ensure_inv (c : GraphicsPipelineConfiguration) (g g' : Graphics) :
  ensureGraphicsPipelineConfiguration c g = Done () g' →
  (bound c g ∧ g' = g)
  ∨ (∃ p, graphicsPipelines g !! c = Some p ∧ p ≠ currentGraphicsPipeline g
          ∧ g' = set_currentGraphicsPipeline p
                   (set_trace (trace g ++ [CmdBindPipeline (currentFrame g) p]) g))
  ∨ (∃ p, graphicsPipelines g !! c = None
          ∧ vkCreateGraphicsPipelines (trace g) (pipelineInfo g c) = (VK_SUCCESS, p)
          ∧ g' = set_currentGraphicsPipeline p
                   (set_trace
                      (trace g ++ [CreateGraphicsPipelines (pipelineInfo g c) VK_SUCCESS p;
                                   CmdBindPipeline (currentFrame g) p])
                      (set_graphicsPipelines (<[c := p]> (graphicsPipelines g)) g))).
Proof.
  intros Hd.
  destruct (graphicsPipelines g !! c) as [p |] eqn:Hl.
  - destruct (decide (p = currentGraphicsPipeline g)) as [-> | Hne].
    + left. rewrite (ensure_hit_same c g Hl) in Hd. by injection Hd as <-.
    + right; left. exists p.
      assert (currentFrame g < MAX_FRAMES_IN_FLIGHT)%nat as Hslot.
      { unfold ensureGraphicsPipelineConfiguration in Hd.
        rewrite bind_get, Hl, decide_True in Hd by done. minv Hd. done. }
      rewrite (ensure_hit_other c p g Hl Hne Hslot) in Hd. by injection Hd as <-.
  - right; right.
    destruct (vkCreateGraphicsPipelines (trace g) (pipelineInfo g c)) as [r p] eqn:Hr.
    assert (r = VK_SUCCESS ∧ (currentFrame g < MAX_FRAMES_IN_FLIGHT)%nat) as [-> Hslot].
    { unfold ensureGraphicsPipelineConfiguration in Hd.
      rewrite bind_get, Hl in Hd.
      rewrite bind_unfold, createGraphicsPipeline_unfold, Hr in Hd. cbn [fst snd] in Hd.
      case_decide as Hs; [done |]. minv Hd.
      split; [| done]. by destruct (decide (r = VK_SUCCESS)). }
    exists p. rewrite (ensure_miss c p g Hl Hslot Hr) in Hd. by injection Hd as <-.
Qed.

(** Resolving a pipeline configuration, when it returns. *)
Lemma ensure_caches
    (c : GraphicsPipelineConfiguration) (g g' : Graphics) :
  ensureGraphicsPipelineConfiguration c g = Done () g' →
  bound c g'
  ∧ (∀ c', c' ≠ c → graphicsPipelines g' !! c' = graphicsPipelines g !! c')
  ∧ (∀ p, graphicsPipelines g !! c = Some p → graphicsPipelines g' !! c = Some p)
  ∧ ensureGraphicsPipelineConfiguration c g' = Done () g'
  ∧ ∃ events,
      trace g' = trace g ++ events
      ∧ (pipelineBinds events ≤ 1)%nat
      ∧ pipelineBuilds events
        = match graphicsPipelines g !! c with Some _ => 0%nat | None => 1%nat end
      ∧ (bound c g → events = []).
Proof.
  intros Hd.
  assert (bound c g') as Hb.
  { destruct (ensure_inv c g g' Hd) as [[Hb ->] | [(p & Hl & Hne & ->) | (p & Hl & Hr & ->)]].
    - done.
    - unfold bound. by destruct g.
    - unfold bound. destruct g; cbn. apply lookup_insert_eq. }
  split; [exact Hb |].
  split_and!.
  - intros c' Hne.
    destruct (ensure_inv c g g' Hd) as [[_ ->] | [(p & Hl & _ & ->) | (p & Hl & Hr & ->)]].
    + done.
    + by destruct g.
    + destruct g; cbn. by apply lookup_insert_ne.
  - intros p0 Hp0.
    destruct (ensure_inv c g g' Hd) as [[_ ->] | [(p & Hl & _ & ->) | (p & Hl & Hr & ->)]].
    + done.
    + by destruct g.
    + congruence.
  - by apply ensure_hit_same.
  - destruct (ensure_inv c g g' Hd) as [[Hbg ->] | [(p & Hl & Hne & ->) | (p & Hl & Hr & ->)]].
    + exists []. rewrite app_nil_r. unfold bound in Hbg. rewrite Hbg.
      split_and!; [done | cbn; lia | done | done].
    + eexists. split; [by destruct g |]. rewrite Hl.
      split_and!; [by vm_compute | done |]. unfold bound. congruence.
    + eexists. split; [by destruct g |]. rewrite Hl.
      split_and!; [| done |].
      * unfold pipelineBinds. rewrite filter_cons, decide_False by done.
        by vm_compute.
      * unfold bound. congruence.
Qed.

(** X3: a pipeline is built at most once per configuration and bound only
    when it is not the bound one. *)
Theorem ensureGraphicsPipelineConfiguration_caches
    (c : GraphicsPipelineConfiguration) (g g' : Graphics) :
  ensureGraphicsPipelineConfiguration c g = Done () g' →
  bound c g'
  ∧ (∀ c', c' ≠ c → graphicsPipelines g' !! c' = graphicsPipelines g !! c')
  ∧ (∀ p, graphicsPipelines g !! c = Some p → graphicsPipelines g' !! c = Some p)
  ∧ ensureGraphicsPipelineConfiguration c g' = Done () g'
  ∧ ∃ events,
      trace g' = trace g ++ events
      ∧ (pipelineBinds events ≤ 1)%nat
      ∧ pipelineBuilds events
        = match graphicsPipelines g !! c with Some _ => 0%nat | None => 1%nat end
      ∧ (bound c g → events = []).
Proof. apply ensure_caches. Qed.

Lemma prepareDraw_inv a b t p c (g g' : Graphics) :
  prepareDraw a b t p c g = Done () g' →
  ∃ g1,
    ensureGraphicsPipelineConfiguration (prepareDraw_configuration g a p c)
      (set_trace (trace g ++ prepareDraw_before g a t) g) = Done () g1
    ∧ g' = set_trace (trace g1 ++ prepareDraw_after g a b) g1.
Proof.
  intros Hd.
  pose proof (ensureGraphicsPipelineConfiguration_terminates
                (prepareDraw_configuration g a p c)
                (set_trace (trace g ++ prepareDraw_before g a t) g)) as Hends.
  destruct (ensureGraphicsPipelineConfiguration _ _) as [[] g1 | e g1 |] eqn:He;
    [| | done].
  - exists g1. split; [done |].
    assert (currentFrame g1 < MAX_FRAMES_IN_FLIGHT)%nat as Hslot.
    { pose proof (prepareDraw_Done_slot _ _ _ _ _ _ _ Hd) as Hs.
      pose proof (preserves_Done _ _ _ _ _ (prepareDraw_prepared _ _ _ _ _) Hd)
        as [Hd1 _].
      pose proof (preserves_Done _ _ _ _ _
                    (ensureGraphicsPipelineConfiguration_prepared _) He) as [Hd2 _].
      replace (currentFrame g1) with (currentFrame g'); [done |].
      rewrite Hd1, Hd2. by destruct g. }
    rewrite (prepareDraw_unfold a b t p c g g1 He Hslot) in Hd. by injection Hd as <-.
  - exfalso. unfold prepareDraw in Hd.
    rewrite bind_get in Hd. cbv zeta in Hd.
    unfold getCurrentBuiltinUniformData at 1 in Hd.
    rewrite bind_unfold, bind_get in Hd. cbn [mret M_ret] in Hd.
    rewrite !bind_emit in Hd. cbn [trace set_trace] in Hd.
    rewrite <- app_assoc in Hd. cbn [app] in Hd.
    match type of Hd with
    | (ensureGraphicsPipelineConfiguration _ ≫= _) ?s = _ =>
        replace s with (set_trace (trace g ++ prepareDraw_before g a t) g) in Hd
          by (by destruct g)
    end.
    rewrite bind_unfold, He in Hd. done.
Qed.

Lemma prepareDraw_configuration_differs (g g' : Graphics) a p c :
  differs_in_pipeline g g' →
  prepareDraw_configuration g' a p c = prepareDraw_configuration g a p c.
Proof. intros ->. by destruct g. Qed.

Lemma draw_configuration_differs (g g' : Graphics) (c : Call) :
  differs_in_pipeline g g' → draw_configuration g' c = draw_configuration g c.
Proof.
  intros Hd. destruct c; cbn [draw_configuration]; try done;
    by rewrite (prepareDraw_configuration_differs g g').
Qed.

(** What one prepared draw does to the pipelines. *)
Lemma prepareDraw_pipelines a b t p c (g g' : Graphics) :
  prepareDraw a b t p c g = Done () g' →
  differs_in_pipeline g g'
  ∧ bound (prepareDraw_configuration g a p c) g'
  ∧ ∃ events,
      trace g' = trace g ++ events
      ∧ (pipelineBinds events ≤ 1)%nat
      ∧ (pipelineBuilds events ≤ 1)%nat
      ∧ (bound (prepareDraw_configuration g a p c) g →
         pipelineBinds events = 0%nat ∧ pipelineBuilds events = 0%nat).
Proof.
  intros Hd.
  pose proof (preserves_Done _ _ _ _ _ (prepareDraw_prepared _ _ _ _ _) Hd) as [Hdiff _].
  split; [exact Hdiff |].
  destruct (prepareDraw_inv _ _ _ _ _ _ _ Hd) as (g1 & He & ->).
  destruct (ensure_caches _ _ _ He)
    as (Hb & _ & _ & _ & events & Htr & Hbinds & Hbuilds & Hnone).
  split; [by destruct g1 |].
  exists (prepareDraw_before g a t ++ events ++ prepareDraw_after g a b).
  cbn [trace set_trace] in *. split; [by rewrite Htr, <- !app_assoc |].
  rewrite !pipelineBinds_app, !pipelineBuilds_app.
  change (pipelineBinds (prepareDraw_before g a t)) with 0%nat.
  change (pipelineBinds (prepareDraw_after g a b)) with 0%nat.
  change (pipelineBuilds (prepareDraw_before g a t)) with 0%nat.
  change (pipelineBuilds (prepareDraw_after g a b)) with 0%nat.
  split_and!; [lia | destruct (graphicsPipelines _ !! _); lia |].
  intros Hbg. rewrite Hnone; [done |]. unfold bound in *. by destruct g.
Qed.

Lemma drawQuads_loop_records rounds :
  ∀ count quadindex baseVertex,
    preserves (records no_pipeline_event)
      (drawQuads_loop rounds count quadindex baseVertex).
Proof.
  induction rounds as [| rounds IH]; intros count quadindex baseVertex;
    cbn [drawQuads_loop]; solve_records; try apply IH.
Qed.

(** After the preparation, a draw records no pipeline call and changes
    nothing but the trace. *)
Lemma call_draw_inv (c : Call) (cfg : GraphicsPipelineConfiguration) (g g' : Graphics) :
  draw_configuration g c = Some cfg →
  call c g = Done () g' →
  ∃ a b t p cm g1,
    cfg = prepareDraw_configuration g a p cm
    ∧ prepareDraw a b t p cm g = Done () g1
    ∧ records no_pipeline_event g1 g'.
Proof.
  intros Hcfg Hd. destruct c; cbn [draw_configuration] in Hcfg; try done;
    injection Hcfg as <-; cbn [call] in Hd.
  - unfold draw in Hd. apply bind_Done in Hd as ([] & g1 & Hp & Hd).
    eexists _, _, _, _, _, g1. split_and!; [done | exact Hp |].
    revert Hd. apply preserves_Done. solve_records.
  - unfold draw_indexed in Hd. apply bind_Done in Hd as ([] & g1 & Hp & Hd).
    eexists _, _, _, _, _, g1. split_and!; [done | exact Hp |].
    revert Hd. apply preserves_Done. solve_records.
  - unfold drawQuads in Hd. apply bind_Done in Hd as ([] & g1 & Hp & Hd).
    eexists _, _, _, _, _, g1. split_and!; [done | exact Hp |].
    revert Hd. apply preserves_Done. solve_records.
    apply drawQuads_loop_records.
Qed.

Lemma call_draw_pipelines (c : Call) (cfg : GraphicsPipelineConfiguration)
    (g g' : Graphics) :
  draw_configuration g c = Some cfg →
  call c g = Done () g' →
  differs_in_pipeline g g'
  ∧ bound cfg g'
  ∧ ∃ events,
      trace g' = trace g ++ events
      ∧ (pipelineBinds events ≤ 1)%nat
      ∧ (pipelineBuilds events ≤ 1)%nat
      ∧ (bound cfg g → pipelineBinds events = 0%nat ∧ pipelineBuilds events = 0%nat).
Proof.
  intros Hcfg Hd.
  destruct (call_draw_inv c cfg g g' Hcfg Hd)
    as (a & b & t & p & cm & g1 & -> & Hp & [Hsame (tail & Htail & Hno)]).
  destruct (prepareDraw_pipelines _ _ _ _ _ _ _ Hp)
    as (Hdiff & Hb & events & Htr & Hbinds & Hbuilds & Hnone).
  destruct (no_pipeline_event_counts _ Hno) as [Ht1 Ht2].
  split_and!.
  - unfold differs_in_pipeline in *. rewrite Hsame at 1. rewrite Hdiff at 1.
    rewrite Hsame. by destruct g.
  - unfold bound in *. rewrite Hsame. by destruct g1.
  - exists (events ++ tail). split; [by rewrite Htail, Htr, app_assoc |].
    rewrite pipelineBinds_app, pipelineBuilds_app, Ht1, Ht2.
    split_and!; [lia | lia |]. intros Hbg. destruct (Hnone Hbg). lia.
Qed.

(** X4: draws that resolve the same pipeline configuration bind a pipeline
    at most once between them, and build one at most once; when the
    configuration is cached and its pipeline is the bound one, they neither
    bind nor build a pipeline. *)
Theorem draws_bind_pipeline_once (cs : list Call)
    (cfg : GraphicsPipelineConfiguration) (g g' : Graphics) :
  Forall (λ c, draw_configuration g c = Some cfg) cs →
  calls cs g = Done () g' →
  ∃ events,
    trace g' = trace g ++ events
    ∧ (pipelineBinds events ≤ 1)%nat
    ∧ (pipelineBuilds events ≤ 1)%nat
    ∧ (bound cfg g → pipelineBinds events = 0%nat ∧ pipelineBuilds events = 0%nat)
    ∧ (cs ≠ [] → bound cfg g').
Proof.
  intros Hcs. revert g g' Hcs.
  induction cs as [| c cs IH]; intros g g' Hcs Hd.
  - injection Hd as <-. exists []. rewrite app_nil_r.
    split_and!; [done | vm_compute; lia | vm_compute; lia | done | done].
  - apply Forall_cons in Hcs as [Hc Hcs].
    unfold calls in Hd. cbn [for_each] in Hd.
    apply bind_Done in Hd as ([] & g1 & Hcall & Hrest).
    destruct (call_draw_pipelines c cfg g g1 Hc Hcall)
      as (Hdiff & Hb & e1 & Htr1 & Hbinds1 & Hbuilds1 & Hnone1).
    destruct (IH g1 g') as (e2 & Htr2 & _ & _ & Hnone2 & Hlast).
    { eapply Forall_impl; [exact Hcs |]. intros c' Hc'. cbn beta in *.
      by rewrite (draw_configuration_differs g g1). }
    { exact Hrest. }
    destruct (Hnone2 Hb) as [Hz1 Hz2].
    exists (e1 ++ e2). split; [by rewrite Htr2, Htr1, app_assoc |].
    rewrite pipelineBinds_app, pipelineBuilds_app, Hz1, Hz2.
    split_and!; [lia | lia | |].
    + intros Hbg. destruct (Hnone1 Hbg). lia.
    + intros _. destruct cs as [| c' cs'].
      * injection Hrest as <-. exact Hb.
      * by apply Hlast.
Qed.
End Pipelines.

(** ** Setters and pending draws *)

Lemma flushBatchedDraws_unfold (g : Graphics) :
  flushBatchedDraws g
  = Done ()
      (if decide (batchedDrawState_pending g = 0%nat) then g
       else set_batchedDrawState_pending 0
              (set_trace (trace g ++ flush_calls g) g)).
Proof.
  unfold flushBatchedDraws, flush_calls. rewrite bind_get.
  case_decide; [done |]. by rewrite bind_emit.
Qed.

(** What a flush leaves behind. *)
Lemma flushBatchedDraws_Done (g : Graphics) :
  ∃ g1, flushBatchedDraws g = Done () g1
        ∧ trace g1 = trace g ++ flush_calls g
        ∧ batchedDrawState_pending g1 = 0%nat
        ∧ g1 = set_batchedDrawState_pending 0 (set_trace (trace g1) g).
Proof.
  eexists. split; [apply flushBatchedDraws_unfold |].
  unfold flush_calls. case_decide as Hp.
  - rewrite app_nil_r. split_and!; [done | done |].
    destruct g; cbn in *. by rewrite Hp.
  - by destruct g.
Qed.

Section Setters.
Context `{LoveHeaders} `{Driver}.

(** X5: [setColorMask], [setBlendState], [setScissor] (both forms) and
    [setWireframe] return, and flush before they assign: the pending draws
    are submitted under the display state from before the call, none is
    pending afterwards, and besides the trace, the pending draws and the
    display state nothing changes. *)
Theorem setters_flush_first (c : Call) (assignments : DisplayState → DisplayState)
    (g : Graphics) :
  setter_assignments c = Some assignments →
  ∃ g',
    call c g = Done () g'
    ∧ trace g' = trace g ++ flush_calls g
    ∧ batchedDrawState_pending g' = 0%nat
    ∧ states_back g' = assignments (states_back g)
    ∧ g' = set_states_back (states_back g')
             (set_batchedDrawState_pending 0 (set_trace (trace g') g)).
Proof.
  intros Hc.
  destruct (flushBatchedDraws_Done g) as (g1 & Hflush & Htrace & Hpending & Hg1).
  destruct c; cbn [setter_assignments] in Hc; try done; injection Hc as <-;
    cbn [call];
    unfold setColorMask, setBlendState, setScissor, setScissor_off, setWireframe;
    rewrite (bind_Done_l _ _ _ _ _ Hflush);
    (eexists; split; [reflexivity |]);
    rewrite Hg1; by destruct g.
Qed.

(** X6: [setFrontFaceWinding] does nothing at all when the winding is the
    current one (pending draws stay pending); otherwise it flushes under
    the old display state and then assigns. *)
Theorem setFrontFaceWinding_flushes_on_change (winding' : Winding) (g : Graphics) :
  (winding (states_back g) = winding' → setFrontFaceWinding winding' g = Done () g)
  ∧ (winding (states_back g) ≠ winding' →
     ∃ g',
       setFrontFaceWinding winding' g = Done () g'
       ∧ trace g' = trace g ++ flush_calls g
       ∧ batchedDrawState_pending g' = 0%nat
       ∧ states_back g' = set_winding winding' (states_back g)
       ∧ g' = set_states_back (states_back g')
                (set_batchedDrawState_pending 0 (set_trace (trace g') g))).
Proof.
  unfold setFrontFaceWinding. rewrite bind_get. split; intros Hw.
  - by rewrite decide_True.
  - rewrite decide_False by done.
    destruct (flushBatchedDraws_Done g) as (g1 & Hflush & Htrace & Hpending & Hg1).
    rewrite (bind_Done_l _ _ _ _ _ Hflush).
    eexists; split; [reflexivity |]. rewrite Hg1. by destruct g.
Qed.

(** X7: [setPointSize] always stores the size; it flushes first exactly
    when the size compares unequal to the current one, which a size that is
    not a number always does. *)
Theorem setPointSize_flushes_on_change (size : float) (g : Graphics) :
  ∃ g',
    setPointSize size g = Done () g'
    ∧ pointSize (states_back g') = size
    ∧ states_back g' = set_pointSize size (states_back g)
    ∧ (float_ne size (pointSize (states_back g)) = true →
       trace g' = trace g ++ flush_calls g ∧ batchedDrawState_pending g' = 0%nat)
    ∧ (float_ne size (pointSize (states_back g)) = false →
       g' = set_states_back (states_back g') g)
    ∧ (is_nan size = true → float_ne size (pointSize (states_back g)) = true).
Proof.
  unfold setPointSize. rewrite bind_get.
  destruct (float_ne size (pointSize (states_back g))) eqn:Hne.
  - destruct (flushBatchedDraws_Done g) as (g1 & Hflush & Htrace & Hpending & Hg1).
    rewrite (bind_Done_l _ _ _ _ _ Hflush).
    eexists; split; [reflexivity |].
    split_and!; try done; try (rewrite Hg1; by destruct g).
  - rewrite bind_ret. eexists; split; [reflexivity |].
    split_and!; try done.
    intros Hnan. destruct size; try done.
Qed.

(** [setColor] never flushes: the trace and the pending draws are as
    before, and nothing but the colour of the display state changes. *)
Lemma setColor_does_not_flush (c : Colorf.t) (g : Graphics) :
  ∃ g',
    setColor c g = Done () g'
    ∧ trace g' = trace g
    ∧ batchedDrawState_pending g' = batchedDrawState_pending g
    ∧ g' = set_states_back (set_color (color (states_back g')) (states_back g)) g.
Proof. eexists. split; [apply setColor_Done |]. by destruct g. Qed.

(** X8: [setActive] flushes the pending draws and stores the flag; while
    the backend is inactive, [present] returns at once: it submits nothing,
    presents nothing and stays in the frame slot. *)
Theorem present_when_inactive (rounds : nat) (g : Graphics) :
  (∀ enable, ∃ g',
     setActive enable g = Done () g'
     ∧ active g' = enable
     ∧ trace g' = trace g ++ flush_calls g
     ∧ batchedDrawState_pending g' = 0%nat)
  ∧ (active g = false → present rounds g = Done () g)
  ∧ ∃ g',
      (setActive false;; present rounds) g = Done () g'
      ∧ trace g' = trace g ++ flush_calls g
      ∧ currentFrame g' = currentFrame g
      ∧ cleanUpFunctions g' = cleanUpFunctions g.
Proof.
  destruct (flushBatchedDraws_Done g) as (g1 & Hflush & Htrace & Hpending & Hg1).
  assert (Hinactive : ∀ g0, active g0 = false → present rounds g0 = Done () g0).
  { intros g0 Ha. unfold present. by rewrite bind_get, Ha. }
  split_and!.
  - intros enable. unfold setActive. rewrite (bind_Done_l _ _ _ _ _ Hflush).
    eexists; split; [reflexivity |]. split_and!; try done.
  - apply Hinactive.
  - unfold setActive. rewrite bind_unfold, (bind_Done_l _ _ _ _ _ Hflush).
    cbn [modify]. rewrite Hinactive by done.
    eexists; split; [reflexivity |]. split_and!; try done; rewrite Hg1; by destruct g.
Qed.
End Setters.

(** ** The vertex format of a layout *)

Section VertexFormats.
Context `{LoveHeaders}.

(** What holds of the locals of [createVulkanVertexFormat] after every
    round of its loop. *)
Record format_invariant (st : VertexFormatLoop) : Prop := {
  used_declared :
    ∀ b, b ∈ usedBuffers st ↔ b ∈ map vb_binding (bindingDescriptions st);
  declared_once : NoDup (map vb_binding (bindingDescriptions st));
  used_below_highest : ∀ b, b ∈ usedBuffers st → b ≤ highestBufferBinding st;
  attributes_declared :
    ∀ a, a ∈ attributeDescriptions st → va_binding a ∈ usedBuffers st;
}.

Lemma format_invariant_body (va : VertexAttributes) (st : VertexFormatLoop) (i : nat) :
  format_invariant st → format_invariant (createVulkanVertexFormat_body va st i).
Proof.
  intros [Hu Hn Hh Ha]. unfold createVulkanVertexFormat_body. cbv zeta.
  destruct (has_bit (enableBits va) (Z.of_nat i)); [| by split].
  set (b0 := bufferIndex (at_index VertexAttributeInfo_zero (attribs va) (Z.of_nat i))).
  case_bool_decide as Hfresh; split; cbn.
  - intros b. rewrite map_app, elem_of_app, elem_of_union, elem_of_singleton.
    cbn. rewrite list_elem_of_singleton. rewrite Hu. tauto.
  - rewrite map_app. cbn. apply NoDup_app. split_and!; [done | | apply NoDup_singleton].
    intros b Hb. rewrite list_elem_of_singleton. intros ->. apply Hfresh. by apply Hu.
  - intros b. rewrite elem_of_union, elem_of_singleton. intros [-> | Hb]; [lia |].
    specialize (Hh b Hb). lia.
  - intros a. rewrite elem_of_app, list_elem_of_singleton.
    intros [Hin | ->]; [apply elem_of_union_r; by apply Ha |].
    cbn. by apply elem_of_union_l, elem_of_singleton.
  - done.
  - done.
  - done.
  - intros a. rewrite elem_of_app, list_elem_of_singleton.
    intros [Hin | ->]; [by apply Ha |]. cbn.
    destruct (decide (b0 ∈ usedBuffers st)); done.
Qed.

Lemma format_invariant_foldl (va : VertexAttributes) (slots : list nat) :
  ∀ st, format_invariant st →
        format_invariant (foldl (createVulkanVertexFormat_body va) st slots).
Proof.
  induction slots as [| i slots IH]; intros st Hst; [done |].
  cbn [foldl]. by apply IH, format_invariant_body.
Qed.

Lemma format_invariant_loop (va : VertexAttributes) :
  format_invariant (createVulkanVertexFormat_loop va).
Proof.
  apply format_invariant_foldl. split; cbn.
  - intros b. rewrite elem_of_nil. set_solver.
  - apply NoDup_nil_2.
  - intros b Hb. set_solver.
  - intros a Ha. by apply elem_of_nil in Ha.
Qed.

Lemma foldl_locations (va : VertexAttributes) (slots : list nat) :
  ∀ st,
    map va_location
      (attributeDescriptions (foldl (createVulkanVertexFormat_body va) st slots))
    = map va_location (attributeDescriptions st)
      ++ map Z.of_nat
           (filter (λ i, has_bit (enableBits va) (Z.of_nat i) = true) slots).
Proof.
  induction slots as [| i slots IH]; intros st.
  - cbn. by rewrite app_nil_r.
  - cbn [foldl]. rewrite IH, filter_cons.
    unfold createVulkanVertexFormat_body. cbv beta zeta.
    destruct (has_bit (enableBits va) (Z.of_nat i)) eqn:Hbit.
    + rewrite (decide_True (P := true = true)) by done. cbn [attributeDescriptions].
      rewrite map_app, <- app_assoc. done.
    + rewrite (decide_False (P := false = true)) by done. done.
Qed.

Lemma foldl_usesColor (va : VertexAttributes) (slots : list nat) :
  ∀ st,
    usesColor (foldl (createVulkanVertexFormat_body va) st slots)
    = usesColor st
      || bool_decide
           (ATTRIB_COLOR ∈ filter (λ i, has_bit (enableBits va) (Z.of_nat i) = true) slots).
Proof.
  induction slots as [| i slots IH]; intros st.
  - cbn. rewrite bool_decide_eq_false_2 by apply not_elem_of_nil.
    by rewrite orb_false_r.
  - cbn [foldl]. rewrite IH, filter_cons.
    unfold createVulkanVertexFormat_body. cbv zeta.
    destruct (has_bit (enableBits va) (Z.of_nat i)) eqn:Hbit.
    + rewrite (decide_True (P := true = true)) by done. cbn [usesColor].
      destruct (decide (i = ATTRIB_COLOR)) as [-> | Hne].
      * rewrite (bool_decide_eq_true_2 (ATTRIB_COLOR ∈ ATTRIB_COLOR :: _))
          by apply list_elem_of_here.
        by rewrite orb_true_r.
      * f_equal. apply bool_decide_ext. rewrite elem_of_cons.
        split; [by right | intros [Heq | Hin]; [congruence | done]].
    + rewrite (decide_False (P := false = true)) by done. done.
Qed.

Lemma loop_locations (va : VertexAttributes) :
  map va_location (attributeDescriptions (createVulkanVertexFormat_loop va))
  = map Z.of_nat (enabledSlots va).
Proof. unfold createVulkanVertexFormat_loop. by rewrite foldl_locations. Qed.

Lemma elem_of_enabledSlots (va : VertexAttributes) (i : nat) :
  i ∈ enabledSlots va
  ↔ (i < VertexAttributes_MAX)%nat ∧ has_bit (enableBits va) (Z.of_nat i) = true.
Proof.
  unfold enabledSlots. rewrite list_elem_of_filter, elem_of_seq. split.
  - intros [? ?]. split; [lia | done].
  - intros [? ?]. split; [done | lia].
Qed.

Lemma loop_usesColor (va : VertexAttributes) :
  (ATTRIB_COLOR < VertexAttributes_MAX)%nat →
  usesColor (createVulkanVertexFormat_loop va) = hasColorAttribute va.
Proof.
  intros Hmax. unfold createVulkanVertexFormat_loop. rewrite foldl_usesColor.
  cbn [usesColor orb]. fold (enabledSlots va). unfold hasColorAttribute.
  destruct (has_bit (enableBits va) (Z.of_nat ATTRIB_COLOR)) eqn:Hbit.
  - apply bool_decide_eq_true_2. by apply elem_of_enabledSlots.
  - apply bool_decide_eq_false_2. rewrite elem_of_enabledSlots. intros [_ ?]. congruence.
Qed.

(** X9: the vertex format that a pipeline is built with is well formed:
    no binding number is declared twice, every attribute reads from a
    declared binding, there is one attribute for each enabled slot in the
    order of the slots, followed by the colour attribute when the layout
    has none; so no location is declared twice, and the colour location is
    always declared. *)
Theorem createVulkanVertexFormat_well_formed (vertexAttributes : VertexAttributes) :
  (ATTRIB_COLOR < VertexAttributes_MAX)%nat →
  let bindings := (createVulkanVertexFormat vertexAttributes).1 in
  let attributes := (createVulkanVertexFormat vertexAttributes).2 in
  NoDup (map vb_binding bindings)
  ∧ (∀ a, a ∈ attributes → va_binding a ∈ map vb_binding bindings)
  ∧ map va_location attributes
    = map Z.of_nat (enabledSlots vertexAttributes)
      ++ (if hasColorAttribute vertexAttributes then []
          else [Z.of_nat ATTRIB_COLOR])
  ∧ NoDup (map va_location attributes)
  ∧ Z.of_nat ATTRIB_COLOR ∈ map va_location attributes.
Proof.
  intros Hmax. cbv zeta.
  pose proof (format_invariant_loop vertexAttributes) as [Hu Hn Hh Ha].
  pose proof (loop_usesColor vertexAttributes Hmax) as Hc.
  pose proof (loop_locations vertexAttributes) as Hl.
  assert (NoDup (map Z.of_nat (enabledSlots vertexAttributes))) as Hnd.
  { apply NoDup_fmap_2; [apply Nat2Z.inj' |].
    unfold enabledSlots. apply NoDup_filter, NoDup_seq. }
  unfold createVulkanVertexFormat. cbv zeta. rewrite Hc.
  destruct (hasColorAttribute vertexAttributes) eqn:Hbit; cbn [negb fst snd].
  - split_and!; [done | | by rewrite Hl, app_nil_r | by rewrite Hl |].
    + intros a Hin. by apply Hu, Ha.
    + rewrite Hl. apply list_elem_of_fmap_2. by apply elem_of_enabledSlots.
  - rewrite !map_app, Hl. cbn [map constantColorBinding constantColorAttribute
                                 vb_binding va_location va_binding].
    split_and!.
    + apply NoDup_app. split_and!; [done | | apply NoDup_singleton].
      intros b Hb. rewrite list_elem_of_singleton. intros ->.
      apply Hu, Hh in Hb. lia.
    + intros a. rewrite !elem_of_app, !list_elem_of_singleton.
      intros [Hin | ->]; [left; by apply Hu, Ha | by right].
    + done.
    + apply NoDup_app. split_and!; [done | | apply NoDup_singleton].
      intros l Hin. rewrite list_elem_of_singleton. intros ->.
      apply list_elem_of_fmap in Hin as (i & Hi & Hin).
      apply Nat2Z.inj in Hi as <-.
      apply elem_of_enabledSlots in Hin as [_ Hin].
      unfold hasColorAttribute in Hbit. congruence.
    + apply elem_of_app. right. by apply list_elem_of_singleton.
Qed.

(** The attribute description that the loop pushes for slot [i]. *)
Lemma foldl_attributes (va : VertexAttributes) (slots : list nat) :
  ∀ st,
    attributeDescriptions (foldl (createVulkanVertexFormat_body va) st slots)
    = attributeDescriptions st
      ++ map (λ i : nat,
                let attrib :=
                  at_index VertexAttributeInfo_zero (attribs va) (Z.of_nat i) in
                {| va_location := Z.of_nat i;
                   va_binding := bufferIndex attrib;
                   va_format := getVulkanVertexFormat (attrib_format attrib);
                   va_offset := offsetFromVertex attrib |})
           (filter (λ i, has_bit (enableBits va) (Z.of_nat i) = true) slots).
Proof.
  induction slots as [| i slots IH]; intros st.
  - cbn. by rewrite app_nil_r.
  - cbn [foldl]. rewrite IH, filter_cons.
    unfold createVulkanVertexFormat_body. cbv beta zeta.
    destruct (has_bit (enableBits va) (Z.of_nat i)) eqn:Hbit.
    + rewrite (decide_True (P := true = true)) by done. cbn [attributeDescriptions map].
      by rewrite <- app_assoc.
    + rewrite (decide_False (P := false = true)) by done. done.
Qed.

(** The buffers in use after the loop are those of the enabled slots. *)
Lemma foldl_usedBuffers (va : VertexAttributes) (slots : list nat) (b : Z) :
  ∀ st,
    b ∈ usedBuffers (foldl (createVulkanVertexFormat_body va) st slots)
    ↔ b ∈ usedBuffers st
      ∨ ∃ i, i ∈ filter (λ i, has_bit (enableBits va) (Z.of_nat i) = true) slots
             ∧ bufferIndex (at_index VertexAttributeInfo_zero (attribs va) (Z.of_nat i))
               = b.
Proof.
  induction slots as [| i slots IH]; intros st.
  - cbn. split; [by left | intros [? | (i & Hi & _)]; [done |]].
    by apply elem_of_nil in Hi.
  - cbn [foldl]. rewrite IH, filter_cons.
    unfold createVulkanVertexFormat_body. cbv beta zeta.
    destruct (has_bit (enableBits va) (Z.of_nat i)) eqn:Hbit.
    + rewrite (decide_True (P := true = true)) by done. cbn [usedBuffers].
      set (b0 := bufferIndex (at_index VertexAttributeInfo_zero (attribs va) (Z.of_nat i))).
      assert (b ∈ (if bool_decide (b0 ∉ usedBuffers st)
                   then {[b0]} ∪ usedBuffers st else usedBuffers st)
              ↔ b = b0 ∨ b ∈ usedBuffers st) as ->.
      { case_bool_decide as Hfresh.
        - by rewrite elem_of_union, elem_of_singleton.
        - split; [by right | intros [-> | ?]; [| done]].
          by destruct (decide (b0 ∈ usedBuffers st)). }
      split.
      * intros [[-> | Hin] | (j & Hj & Hb)].
        -- right. exists i. split; [apply list_elem_of_here | done].
        -- by left.
        -- right. exists j. split; [by apply list_elem_of_further | done].
      * intros [Hin | (j & Hj & Hb)]; [by left; right |].
        apply elem_of_cons in Hj as [-> | Hj].
        -- left; left. by subst b0.
        -- right. by exists j.
    + rewrite (decide_False (P := false = true)) by done. done.
Qed.

(** The highest binding so far is 0 or one of the buffers in use, and every
    binding description is that of its buffer in the layout. *)
Record format_described (va : VertexAttributes) (st : VertexFormatLoop) : Prop := {
  highest_nonneg : 0 ≤ highestBufferBinding st;
  highest_attained :
    highestBufferBinding st = 0 ∨ highestBufferBinding st ∈ usedBuffers st;
  bindings_described :
    ∀ d, d ∈ bindingDescriptions st →
         vb_stride d
         = stride (at_index VertexBufferLayout_zero (bufferLayouts va) (vb_binding d))
         ∧ vb_inputRate d
           = if has_bit (instanceBits va) (vb_binding d)
             then VK_VERTEX_INPUT_RATE_INSTANCE else VK_VERTEX_INPUT_RATE_VERTEX;
}.

Lemma format_described_body (va : VertexAttributes) (st : VertexFormatLoop) (i : nat) :
  format_described va st → format_described va (createVulkanVertexFormat_body va st i).
Proof.
  intros [Hn Ha Hd]. unfold createVulkanVertexFormat_body. cbv zeta.
  destruct (has_bit (enableBits va) (Z.of_nat i)); [| by split].
  set (b0 := bufferIndex (at_index VertexAttributeInfo_zero (attribs va) (Z.of_nat i))).
  case_bool_decide as Hfresh; split; cbn; try done.
  - lia.
  - destruct (Z.max_spec (highestBufferBinding st) b0) as [[_ ->] | [_ ->]].
    + right. by apply elem_of_union_l, elem_of_singleton.
    + destruct Ha as [Ha | Ha]; [by left | right; by apply elem_of_union_r].
  - intros d. rewrite elem_of_app, list_elem_of_singleton.
    intros [Hin | ->]; [by apply Hd | done].
Qed.

Lemma format_described_loop (va : VertexAttributes) :
  format_described va (createVulkanVertexFormat_loop va).
Proof.
  unfold createVulkanVertexFormat_loop.
  generalize (seq 0 VertexAttributes_MAX). intros slots.
  assert (∀ st, format_described va st →
                format_described va (foldl (createVulkanVertexFormat_body va) st slots))
    as Hgen.
  { induction slots as [| i slots IH]; intros st Hst; [done |].
    cbn [foldl]. by apply IH, format_described_body. }
  apply Hgen. split; cbn; [done | by left |].
  intros d Hd. by apply elem_of_nil in Hd.
Qed.

(** The vertex format in terms of the layout. *)
Lemma createVulkanVertexFormat_spec (vertexAttributes : VertexAttributes) :
  (ATTRIB_COLOR < VertexAttributes_MAX)%nat →
  let slotBinding := λ i : nat,
    bufferIndex (at_index VertexAttributeInfo_zero (attribs vertexAttributes)
                   (Z.of_nat i)) in
  let attributes :=
    map (λ i : nat,
           let attrib :=
             at_index VertexAttributeInfo_zero (attribs vertexAttributes)
               (Z.of_nat i) in
           {| va_location := Z.of_nat i;
              va_binding := bufferIndex attrib;
              va_format := getVulkanVertexFormat (attrib_format attrib);
              va_offset := offsetFromVertex attrib |})
      (enabledSlots vertexAttributes) in
  ∃ bindings highest,
    (∀ b, b ∈ map vb_binding bindings
          ↔ ∃ i, i ∈ enabledSlots vertexAttributes ∧ slotBinding i = b)
    ∧ NoDup (map vb_binding bindings)
    ∧ (∀ d, d ∈ bindings →
            vb_stride d
            = stride (at_index VertexBufferLayout_zero
                        (bufferLayouts vertexAttributes) (vb_binding d))
            ∧ vb_inputRate d
              = if has_bit (instanceBits vertexAttributes) (vb_binding d)
                then VK_VERTEX_INPUT_RATE_INSTANCE else VK_VERTEX_INPUT_RATE_VERTEX)
    ∧ 0 ≤ highest
    ∧ (∀ i, i ∈ enabledSlots vertexAttributes → slotBinding i ≤ highest)
    ∧ (highest = 0
       ∨ ∃ i, i ∈ enabledSlots vertexAttributes ∧ slotBinding i = highest)
    ∧ createVulkanVertexFormat vertexAttributes
      = if hasColorAttribute vertexAttributes then (bindings, attributes)
        else
          (bindings
             ++ [ {| vb_binding := highest + 1; vb_stride := 0;
                     vb_inputRate := VK_VERTEX_INPUT_RATE_VERTEX |} ],
           attributes
             ++ [ {| va_location := Z.of_nat ATTRIB_COLOR;
                     va_binding := highest + 1;
                     va_format := VK_FORMAT_R32G32B32A32_SFLOAT;
                     va_offset := 0 |} ]).
Proof.
  intros Hmax. cbv zeta.
  pose proof (format_invariant_loop vertexAttributes) as [Hu Hn Hh Ha].
  pose proof (format_described_loop vertexAttributes) as [Hnn Hat Hd].
  pose proof (loop_usesColor vertexAttributes Hmax) as Hc.
  assert (∀ b, b ∈ usedBuffers (createVulkanVertexFormat_loop vertexAttributes)
               ↔ ∃ i, i ∈ enabledSlots vertexAttributes
                      ∧ bufferIndex (at_index VertexAttributeInfo_zero
                                       (attribs vertexAttributes) (Z.of_nat i)) = b)
    as Hused.
  { intros b. unfold createVulkanVertexFormat_loop. rewrite foldl_usedBuffers.
    cbn [usedBuffers]. fold (enabledSlots vertexAttributes).
    split; [intros [Hin | Hin]; [set_solver | done] | by right]. }
  exists (bindingDescriptions (createVulkanVertexFormat_loop vertexAttributes)),
    (highestBufferBinding (createVulkanVertexFormat_loop vertexAttributes)).
  split_and!.
  - intros b. by rewrite <- Hu, Hused.
  - done.
  - done.
  - done.
  - intros i Hi. apply Hh, Hused. by exists i.
  - destruct Hat as [Hat | Hat]; [by left | right]. by apply Hused.
  - unfold createVulkanVertexFormat. cbv zeta. rewrite Hc.
    unfold constantColorBinding, constantColorAttribute.
    assert (attributeDescriptions (createVulkanVertexFormat_loop vertexAttributes)
            = map (λ i : nat,
                     let attrib :=
                       at_index VertexAttributeInfo_zero (attribs vertexAttributes)
                         (Z.of_nat i) in
                     {| va_location := Z.of_nat i;
                        va_binding := bufferIndex attrib;
                        va_format := getVulkanVertexFormat (attrib_format attrib);
                        va_offset := offsetFromVertex attrib |})
                (enabledSlots vertexAttributes)) as ->.
    { unfold createVulkanVertexFormat_loop. by rewrite foldl_attributes. }
    by destruct (hasColorAttribute vertexAttributes).
Qed.
(** X10: the vertex format in terms of the layout.  There is one binding
    per buffer of an enabled attribute, with the stride and the input rate
    of that buffer in the layout, and one attribute per enabled slot, in
    the order of the slots.  When the layout has no colour attribute, the
    format ends with the constant colour: a per-vertex binding of stride 0
    whose number is one above the highest buffer index of the enabled
    attributes (1 when no attribute is enabled), hence above every other
    binding of the format, and the colour attribute at offset 0 of that
    binding; when the layout has a colour attribute, nothing is added. *)
Theorem createVulkanVertexFormat_constant_color (vertexAttributes : VertexAttributes) :
  (ATTRIB_COLOR < VertexAttributes_MAX)%nat →
  let slotBinding := λ i : nat,
    bufferIndex (at_index VertexAttributeInfo_zero (attribs vertexAttributes)
                   (Z.of_nat i)) in
  let attributes :=
    map (λ i : nat,
           let attrib :=
             at_index VertexAttributeInfo_zero (attribs vertexAttributes)
               (Z.of_nat i) in
           {| va_location := Z.of_nat i;
              va_binding := bufferIndex attrib;
              va_format := getVulkanVertexFormat (attrib_format attrib);
              va_offset := offsetFromVertex attrib |})
      (enabledSlots vertexAttributes) in
  ∃ bindings highest,
    (∀ b, b ∈ map vb_binding bindings
          ↔ ∃ i, i ∈ enabledSlots vertexAttributes ∧ slotBinding i = b)
    ∧ NoDup (map vb_binding bindings)
    ∧ (∀ d, d ∈ bindings →
            vb_stride d
            = stride (at_index VertexBufferLayout_zero
                        (bufferLayouts vertexAttributes) (vb_binding d))
            ∧ vb_inputRate d
              = if has_bit (instanceBits vertexAttributes) (vb_binding d)
                then VK_VERTEX_INPUT_RATE_INSTANCE else VK_VERTEX_INPUT_RATE_VERTEX)
    ∧ 0 ≤ highest
    ∧ (∀ i, i ∈ enabledSlots vertexAttributes → slotBinding i ≤ highest)
    ∧ (highest = 0
       ∨ ∃ i, i ∈ enabledSlots vertexAttributes ∧ slotBinding i = highest)
    ∧ (∀ d, d ∈ bindings → vb_binding d < highest + 1)
    ∧ createVulkanVertexFormat vertexAttributes
      = if hasColorAttribute vertexAttributes then (bindings, attributes)
        else
          (bindings
             ++ [ {| vb_binding := highest + 1; vb_stride := 0;
                     vb_inputRate := VK_VERTEX_INPUT_RATE_VERTEX |} ],
           attributes
             ++ [ {| va_location := Z.of_nat ATTRIB_COLOR;
                     va_binding := highest + 1;
                     va_format := VK_FORMAT_R32G32B32A32_SFLOAT;
                     va_offset := 0 |} ]).
Proof.
  intros Hmax. cbv zeta.
  destruct (createVulkanVertexFormat_spec vertexAttributes Hmax)
    as (bindings & highest & Hmem & Hnd & Hd & Hnn & Hle & Hat & Heq).
  exists bindings, highest. split_and!; try done.
  intros d Hin.
  assert (vb_binding d ∈ map vb_binding bindings) as Hb
    by (by apply list_elem_of_fmap_2).
  apply Hmem in Hb as (i & Hi & Hb). specialize (Hle i Hi). cbv beta in Hle. lia.
Qed.


End VertexFormats.

(** ** The vertex buffers of a draw *)

Section VertexBuffers.
Context `{LoveHeaders} `{Driver}.


End VertexBuffers.

(** ** The ring of frame slots *)

Lemma for_each_emit {A : Type} (f : A → Event) (xs : list A) (g : Graphics) :
  for_each xs (λ x, emit (f x)) g = Done () (set_trace (trace g ++ map f xs) g).
Proof.
  revert g. induction xs as [| x xs IH]; intros g.
  - cbn. rewrite app_nil_r. by destruct g.
  - cbn [for_each]. rewrite bind_emit, IH. cbn [trace set_trace map].
    rewrite <- app_assoc. by destruct g.
Qed.

Lemma cleanUpCalls_app (e1 e2 : list Event) :
  cleanUpCalls (e1 ++ e2) = cleanUpCalls e1 ++ cleanUpCalls e2.
Proof. unfold cleanUpCalls. apply omap_app. Qed.

Lemma cleanUpCalls_quiet (events : list Event) :
  Forall quiet events → cleanUpCalls events = [].
Proof.
  unfold cleanUpCalls. induction 1 as [| e events He _ IH]; [done |].
  cbn. rewrite IH. by destruct e.
Qed.

Lemma cleanUpCalls_map (queue : list CleanUp) :
  cleanUpCalls (map CleanUpFn queue) = queue.
Proof.
  unfold cleanUpCalls. induction queue as [| c queue IH]; [done |].
  cbn. by rewrite IH.
Qed.

Section FrameSlots.
Context `{LoveHeaders} `{Driver}.

(** X12: [queueCleanUp] appends the clean-up to the queue of the current
    frame slot and touches nothing else; no call is made.  Outside the
    ring it throws [std::out_of_range] and changes nothing. *)
Theorem queueCleanUp_appends (cleanUp : CleanUp) (g : Graphics) :
  (∀ queue,
     cleanUpFunctions g !! currentFrame g = Some queue →
     ∃ g',
       queueCleanUp cleanUp g = Done () g'
       ∧ cleanUpFunctions g' !! currentFrame g = Some (queue ++ [cleanUp])
       ∧ (∀ slot, slot ≠ currentFrame g →
                  cleanUpFunctions g' !! slot = cleanUpFunctions g !! slot)
       ∧ g' = set_cleanUpFunctions (cleanUpFunctions g') g)
  ∧ (cleanUpFunctions g !! currentFrame g = None →
     queueCleanUp cleanUp g = Thrown std_out_of_range g).
Proof.
  unfold queueCleanUp. rewrite bind_get. unfold vector_at. split.
  - intros queue Hq. rewrite Hq, bind_ret.
    eexists. split; [reflexivity |].
    cbn [cleanUpFunctions set_cleanUpFunctions modify].
    split_and!; [| | done].
    + apply list_lookup_insert_eq. by eapply lookup_lt_Some.
    + intros slot Hne. by apply list_lookup_insert_ne.
  - intros Hq. by rewrite Hq.
Qed.

Lemma startRecordingGraphicsCommands_inv (rounds : nat)
    (g g' : Graphics) :
  startRecordingGraphicsCommands rounds g = Done () g' →
  ∃ queue before rest,
    cleanUpFunctions g !! currentFrame g = Some queue
    ∧ trace g'
      = trace g ++ before ++ map CleanUpFn queue
          ++ BeginCommandBuffer false (currentFrame g) VK_SUCCESS
          :: BeginCommandBuffer true (currentFrame g) VK_SUCCESS :: rest
    ∧ Forall quiet before
    ∧ Forall quiet rest
    ∧ cleanUpFunctions g' = <[currentFrame g := []]> (cleanUpFunctions g)
    ∧ currentFrame g' = currentFrame g
    ∧ active g' = active g.
Proof.
  intros Hd. unfold startRecordingGraphicsCommands in Hd.
  rewrite bind_get, bind_emit in Hd.
  apply bind_Done in Hd as ([] & g1 & Hacq & Hd).
  pose proof (preserves_Done _ _ _ _ _ (acquireNextImage_loop_undisturbed rounds) Hacq)
    as (Hf1 & Hc1 & Ha1 & ev1 & Ht1 & Hq1).
  cbn [currentFrame cleanUpFunctions active trace set_trace] in Hf1, Hc1, Ha1, Ht1.
  rewrite bind_get in Hd.
  apply bind_Done in Hd as (queue & g1' & Hat & Hd).
  apply vector_at_inv in Hat as (-> & Hat).
  rewrite bind_unfold, for_each_emit, bind_get in Hd.
  cbn [currentFrame cleanUpFunctions set_trace] in Hd.
  rewrite bind_unfold in Hd. unfold vector_at at 1 in Hd. rewrite Hat in Hd.
  cbn [mret M_ret] in Hd. rewrite bind_modify in Hd.
  cbn [currentFrame cleanUpFunctions set_trace] in Hd.
  apply bind_Done in Hd as (cb & g2 & Hcb & Hd).
  apply at_currentFrame_inv in Hcb as (-> & -> & Hslot).
  cbn [currentFrame set_cleanUpFunctions set_trace] in Hd, Hslot.
  rewrite bind_get, bind_emit in Hd.
  case_decide as Hr1; [done |].
  apply bind_Done in Hd as (cb & g2 & Hcb & Hd).
  apply at_currentFrame_inv in Hcb as (-> & -> & _).
  cbn [currentFrame set_cleanUpFunctions set_trace] in Hd.
  rewrite bind_get, bind_emit in Hd.
  case_decide as Hr2; [done |].
  apply bind_Done in Hd as (cb & g2 & Hcb & Hd).
  apply at_currentFrame_inv in Hcb as (-> & -> & _).
  rewrite bind_get, bind_emit in Hd.
  apply bind_Done in Hd as ([] & g3 & Hsrp & Hd).
  pose proof (preserves_Done _ _ _ _ _ (startRenderPass_undisturbed _ _ _) Hsrp)
    as (Hf3 & Hc3 & Ha3 & ev3 & Ht3 & Hq3).
  cbn [currentFrame cleanUpFunctions active trace set_trace set_cleanUpFunctions]
    in Hf3, Hc3, Ha3, Ht3.
  injection Hd as <-.
  cbn [currentFrame cleanUpFunctions active trace set_trace].
  exists queue, (WaitForFences (currentFrame g) :: ev1),
    (CmdTransitionImageLayout (currentFrame g1)
       (at_index VK_NULL_HANDLE (swapChainImages (swapChain g1))
          (Z.of_nat (imageIndex g1)))
       VK_IMAGE_LAYOUT_UNDEFINED VK_IMAGE_LAYOUT_COLOR_ATTACHMENT_OPTIMAL
     :: ev3 ++ [ResetShaderSwitches]).
  split_and!.
  - by rewrite <- Hf1, <- Hc1.
  - cbn [trace set_trace cleanUpFunctions currentFrame set_cleanUpFunctions]
      in Hr1, Hr2.
    rewrite Hr1 in Hr2. rewrite Ht3, Hr1, Hr2, Ht1, Hf1.
    rewrite <- !app_assoc. cbn [app]. reflexivity.
  - constructor; [done | done].
  - constructor; [done |]. apply Forall_app. split; [done |]. by constructor.
  - by rewrite Hc3, Hc1, Hf1.
  - by rewrite Hf3.
  - by rewrite Ha3.
Qed.

(** What [present] does when the backend is active and the call returns. *)
Lemma present_inv (rounds : nat) (g g' : Graphics) :
  active g = true →
  present rounds g = Done () g' →
  let next := nextFrameSlot (currentFrame g) in
  ∃ queue before rest,
    (currentFrame g < MAX_FRAMES_IN_FLIGHT)%nat
    ∧ cleanUpFunctions g !! next = Some queue
    ∧ trace g'
      = trace g ++ before ++ map CleanUpFn queue
          ++ BeginCommandBuffer false next VK_SUCCESS
          :: BeginCommandBuffer true next VK_SUCCESS :: rest
    ∧ Forall quiet before
    ∧ QueueSubmit (currentFrame g) VK_SUCCESS ∈ before
    ∧ Forall quiet rest
    ∧ cleanUpFunctions g' = <[next := []]> (cleanUpFunctions g)
    ∧ currentFrame g' = next
    ∧ active g' = true.
Proof.
  intros Hactive Hd. cbv zeta. unfold nextFrameSlot. unfold present in Hd.
  rewrite bind_get, Hactive in Hd. cbn [negb] in Hd.
  apply bind_Done in Hd as ([] & g1 & Hm1 & Hd).
  apply (preserves_Done _ _ _ _ _ flushBatchedDraws_undisturbed) in Hm1.
  apply bind_Done in Hd as ([] & g2 & Hm2 & Hd).
  apply (preserves_Done _ _ _ _ _ endRecordingGraphicsCommands_undisturbed) in Hm2.
  rewrite bind_get in Hd.
  apply bind_Done in Hd as ([] & g3 & Hm3 & Hd).
  assert (undisturbed g2 g3) as Hu3.
  { revert Hm3. apply preserves_Done. solve_undisturbed. }
  clear Hm3. rewrite bind_modify in Hd.
  apply bind_Done in Hd as (slot & g4 & Hcb & Hd).
  apply at_currentFrame_inv in Hcb as (-> & -> & Hslot).
  cbn [currentFrame set_imagesInFlight] in Hd, Hslot.
  rewrite bind_emit, bind_get, bind_emit in Hd.
  case_decide as Hsubmit; [done |].
  rewrite bind_get, bind_emit in Hd.
  apply bind_Done in Hd as ([] & g5 & Hm5 & Hd).
  match type of Hm5 with
  | _ ?s = _ => assert (undisturbed s g5) as Hu5
  end.
  { revert Hm5. apply preserves_Done. solve_undisturbed.
    apply recreateSwapChain_undisturbed. }
  clear Hm5. rewrite bind_modify in Hd.
  apply bind_Done in Hd as ([] & g6 & Hm6 & Hd).
  apply (preserves_Done _ _ _ _ _ updatedBatchedDrawBuffers_undisturbed) in Hm6.
  apply startRecordingGraphicsCommands_inv in Hd
    as (queue & before & rest & Hq & Ht & Hqb & Hqr & Hc & Hf & Ha).
  assert (undisturbed g g3) as (Hf3 & Hc3 & Ha3 & ev3 & Ht3 & Hq3)
    by (etransitivity; [exact Hm1 |]; etransitivity; [exact Hm2 | exact Hu3]).
  destruct Hu5 as (Hf5 & Hc5 & Ha5 & ev5 & Ht5 & Hq5).
  destruct Hm6 as (Hf6 & Hc6 & Ha6 & ev6 & Ht6 & Hq6).
  cbn [currentFrame cleanUpFunctions active trace imageIndex set_trace
       set_imagesInFlight set_currentFrame] in *.
  rewrite Hsubmit in *.
  rewrite Hf6, Hf5, Hf3 in *. rewrite Hc6, Hc5, Hc3 in *.
  exists queue,
    (ev3 ++ [ResetFences (currentFrame g); QueueSubmit (currentFrame g) VK_SUCCESS]
       ++ QueuePresent (imageIndex g3)
            (vkQueuePresentKHR
               ((trace g3 ++ [ResetFences (currentFrame g)])
                ++ [QueueSubmit (currentFrame g) VK_SUCCESS]))
       :: ev5 ++ ev6 ++ before),
    rest.
  split_and!; try done.
  - rewrite Ht, Ht6, Ht5. rewrite Ht3 at 1.
    rewrite <- ?app_assoc. cbn [app]. rewrite <- ?app_assoc. reflexivity.
  - repeat (apply Forall_app; split); try done.
    + by repeat constructor.
    + constructor; [done |]. repeat (apply Forall_app; split); done.
  - apply elem_of_app. right. set_solver.
  - by rewrite Ha, Ha6, Ha5, Ha3.
Qed.

(** X14: a call of [present] that returns while the backend is active has
    submitted the command buffers of the current frame slot, moves on to
    the next slot of the ring, and calls the clean-ups queued in that next
    slot, each once and in order, before the command buffers of that slot
    begin recording; the queue of that slot is empty afterwards and the
    other queues are as before. *)
Theorem present_advances_frame (rounds : nat) (g g' : Graphics) :
  active g = true →
  present rounds g = Done () g' →
  let next := nextFrameSlot (currentFrame g) in
  ∃ queue before rest,
    (currentFrame g < MAX_FRAMES_IN_FLIGHT)%nat
    ∧ cleanUpFunctions g !! next = Some queue
    ∧ trace g'
      = trace g ++ before ++ map CleanUpFn queue
          ++ BeginCommandBuffer false next VK_SUCCESS
          :: BeginCommandBuffer true next VK_SUCCESS :: rest
    ∧ Forall quiet before
    ∧ QueueSubmit (currentFrame g) VK_SUCCESS ∈ before
    ∧ Forall quiet rest
    ∧ cleanUpFunctions g' = <[next := []]> (cleanUpFunctions g)
    ∧ currentFrame g' = next
    ∧ active g' = true.
Proof. apply present_inv. Qed.

Lemma call_undisturbed (c : Call) :
  is_present c = false → is_queueCleanUp c = false →
  preserves undisturbed (call c).
Proof.
  intros Hp Hq. destruct c; try done; cbn [call].
  - apply draw_undisturbed.
  - apply draw_indexed_undisturbed.
  - apply drawQuads_undisturbed.
  - apply setFrontFaceWinding_undisturbed.
  - apply setColorMask_undisturbed.
  - apply setBlendState_undisturbed.
  - apply setPointSize_undisturbed.
  - apply setColor_undisturbed.
  - apply setScissor_undisturbed.
  - apply setScissor_off_undisturbed.
  - apply setWireframe_undisturbed.
  - apply setRenderTargetsInternal_undisturbed.
  - solve_undisturbed. apply getCachedSampler_undisturbed.
Qed.

Lemma calls_undisturbed (cs : list Call) :
  Forall (λ c, is_present c = false ∧ is_queueCleanUp c = false) cs →
  preserves undisturbed (calls cs).
Proof.
  induction 1 as [| c cs [Hp Hq] _ IH]; cbn [calls for_each].
  - apply (preserves_ret undisturbed).
  - apply (preserves_bind undisturbed); [by apply call_undisturbed | intros _; apply IH].
Qed.

Lemma calls_app_Done (cs1 cs2 : list Call) (g g' : Graphics) :
  calls (cs1 ++ cs2) g = Done () g'
  ↔ ∃ g1, calls cs1 g = Done () g1 ∧ calls cs2 g1 = Done () g'.
Proof.
  revert g. induction cs1 as [| c cs1 IH]; intros g.
  - cbn. split; [by exists g |]. by intros (g1 & [= ->] & ?).
  - cbn [app calls for_each]. rewrite bind_Done. split.
    + intros ([] & g1 & Hc & Hrest). apply IH in Hrest as (g2 & H1 & H2).
      exists g2. split; [| done]. apply bind_Done. by exists (), g1.
    + intros (g2 & H1 & H2). apply bind_Done in H1 as ([] & g1 & Hc & H1).
      exists (), g1. split; [done |]. apply IH. by exists g2.
Qed.

Lemma calls_cons_Done (c : Call) (cs : list Call) (g g' : Graphics) :
  calls (c :: cs) g = Done () g'
  ↔ ∃ g1, call c g = Done () g1 ∧ calls cs g1 = Done () g'.
Proof.
  cbn [calls for_each]. rewrite bind_Done. split.
  - intros ([] & g1 & ? & ?). by exists g1.
  - intros (g1 & ? & ?). by exists (), g1.
Qed.

Lemma nextFrameSlot_twice (slot : nat) :
  (slot < MAX_FRAMES_IN_FLIGHT)%nat →
  nextFrameSlot slot ≠ slot ∧ nextFrameSlot (nextFrameSlot slot) = slot.
Proof.
  unfold nextFrameSlot, MAX_FRAMES_IN_FLIGHT. intros Hs.
  assert (slot = 0 ∨ slot = 1)%nat as [-> | ->] by lia; by vm_compute.
Qed.

(** X15: a clean-up that is queued while the backend is active is called
    by the second [present] after it, not by the first: the first one
    calls the clean-ups of the other frame slot, the second one those of
    the slot in which the clean-up was queued, with the new clean-up last;
    the draws and the changes of state in between call none.  After the
    two presents the frame slot is the one of the beginning and both
    queues are empty. *)
Theorem cleanUp_runs_at_second_present (cleanUp : CleanUp) (rounds1 rounds2 : nat)
    (cs1 cs2 : list Call) (g g' : Graphics) :
  active g = true →
  Forall (λ c, is_present c = false ∧ is_queueCleanUp c = false) cs1 →
  Forall (λ c, is_present c = false ∧ is_queueCleanUp c = false) cs2 →
  calls (Call_queueCleanUp cleanUp :: cs1 ++ Call_present rounds1
           :: cs2 ++ [Call_present rounds2]) g = Done () g' →
  ∃ queue other g1 events1 events2,
    cleanUpFunctions g !! currentFrame g = Some queue
    ∧ cleanUpFunctions g !! nextFrameSlot (currentFrame g) = Some other
    ∧ nextFrameSlot (currentFrame g) ≠ currentFrame g
    ∧ calls (Call_queueCleanUp cleanUp :: cs1 ++ [Call_present rounds1]) g
      = Done () g1
    ∧ trace g1 = trace g ++ events1
    ∧ cleanUpCalls events1 = other
    ∧ cleanUpFunctions g1 !! currentFrame g = Some (queue ++ [cleanUp])
    ∧ trace g' = trace g1 ++ events2
    ∧ cleanUpCalls events2 = queue ++ [cleanUp]
    ∧ currentFrame g' = currentFrame g
    ∧ cleanUpFunctions g'
      = <[currentFrame g := []]>
          (<[nextFrameSlot (currentFrame g) := []]> (cleanUpFunctions g)).
Proof.
  intros Hactive Hcs1 Hcs2 Hd.
  apply calls_cons_Done in Hd as (ga & Hqueue & Hd).
  apply calls_app_Done in Hd as (gb & Hcalls1 & Hd).
  apply calls_cons_Done in Hd as (gc & Hpresent1 & Hd).
  apply calls_app_Done in Hd as (gd & Hcalls2 & Hd).
  apply calls_cons_Done in Hd as (ge & Hpresent2 & [= ->]).
  cbn [call] in Hqueue, Hpresent1, Hpresent2.
  (* queueing *)
  destruct (cleanUpFunctions g !! currentFrame g) as [queue |] eqn:Hq.
  2: { unfold queueCleanUp in Hqueue. rewrite bind_get in Hqueue.
       unfold vector_at in Hqueue. by rewrite Hq in Hqueue. }
  assert (ga = set_cleanUpFunctions
                 (<[currentFrame g := queue ++ [cleanUp]]> (cleanUpFunctions g)) g)
    as Hga.
  { unfold queueCleanUp in Hqueue. rewrite bind_get in Hqueue.
    unfold vector_at in Hqueue. rewrite Hq, bind_ret in Hqueue.
    by injection Hqueue as <-. }
  (* the calls before the first present *)
  pose proof (preserves_Done _ _ _ _ _ (calls_undisturbed cs1 Hcs1) Hcalls1)
    as (Hfb & Hcb & Hab & evb & Htb & Hqb).
  rewrite Hga in Hfb, Hcb, Hab, Htb.
  cbn [currentFrame cleanUpFunctions active trace set_cleanUpFunctions]
    in Hfb, Hcb, Hab, Htb.
  (* the first present *)
  destruct (present_inv _ _ _ (eq_trans Hab Hactive) Hpresent1)
    as (other & before1 & rest1 & Hslot & Hother & Htc & Hqbefore1 & _ & Hqrest1
        & Hcc & Hfc & Hac).
  rewrite Hfb in Hslot, Hother, Htc, Hcc, Hfc. rewrite Hcb in Hother, Hcc.
  destruct (nextFrameSlot_twice _ Hslot) as [Hne Hback].
  rewrite list_lookup_insert_ne in Hother by done.
  (* the calls before the second present *)
  pose proof (preserves_Done _ _ _ _ _ (calls_undisturbed cs2 Hcs2) Hcalls2)
    as (Hfd & Hcd & Had & evd & Htd & Hqd).
  (* the second present *)
  destruct (present_inv _ _ _ (eq_trans Had Hac) Hpresent2)
    as (queue2 & before2 & rest2 & _ & Hqueue2 & Hte & Hqbefore2 & _ & Hqrest2
        & Hce & Hfe & Hae).
  rewrite Hfd, Hfc, Hback in Hqueue2, Hte, Hce, Hfe. rewrite Hcd, Hcc in Hqueue2, Hce.
  rewrite list_lookup_insert_ne in Hqueue2 by done.
  rewrite list_lookup_insert_eq in Hqueue2 by (by eapply lookup_lt_Some).
  injection Hqueue2 as <-.
  eexists queue, other, gc, _, _.
  split_and!; try done.
  - apply calls_cons_Done. exists ga. split; [done |].
    apply calls_app_Done. exists gb. split; [done |].
    apply calls_cons_Done. by exists gc.
  - rewrite Htc, Htb. rewrite <- app_assoc. reflexivity.
  - rewrite !cleanUpCalls_app, (cleanUpCalls_quiet evb), (cleanUpCalls_quiet before1)
      by done.
    rewrite cleanUpCalls_map. cbn [app].
    change (BeginCommandBuffer false ?s ?r :: BeginCommandBuffer true ?s' ?r' :: rest1)
      with ([BeginCommandBuffer false s r; BeginCommandBuffer true s' r'] ++ rest1).
    rewrite cleanUpCalls_app, (cleanUpCalls_quiet rest1) by done.
    cbn. by rewrite app_nil_r.
  - rewrite Hcc. rewrite list_lookup_insert_ne by done.
    apply list_lookup_insert_eq. by eapply lookup_lt_Some.
  - rewrite Hte, Htd. rewrite <- app_assoc. reflexivity.
  - rewrite !cleanUpCalls_app, (cleanUpCalls_quiet evd), (cleanUpCalls_quiet before2)
      by done.
    rewrite cleanUpCalls_map. cbn [app].
    change (BeginCommandBuffer false ?s ?r :: BeginCommandBuffer true ?s' ?r' :: rest2)
      with ([BeginCommandBuffer false s r; BeginCommandBuffer true s' r'] ++ rest2).
    rewrite cleanUpCalls_app, (cleanUpCalls_quiet rest2) by done.
    cbn. by rewrite app_nil_r.
  - rewrite Hce.
    rewrite (list_insert_insert_ne _ (nextFrameSlot (currentFrame g))) by done.
    by rewrite list_insert_insert_eq.
Qed.
End FrameSlots.

(** ** Queue families and the choice of the adapter *)

(** The indices point at families of the list [families], of the kind
    they are meant for. *)
Definition indices_sound (families : list QueueFamily) (indices : QueueFamilyIndices)
    : Prop :=
  (∀ k, graphicsFamily indices = Some k →
        0 ≤ k ∧ ∃ family, families !! Z.to_nat k = Some family
                  ∧ has_flag (queueFlags family) VK_QUEUE_GRAPHICS_BIT = true)
  ∧ (∀ k, presentFamily indices = Some k →
          0 ≤ k ∧ ∃ family, families !! Z.to_nat k = Some family
                    ∧ presentSupport family = true).

Lemma findQueueFamilies_loop_sound (families : list QueueFamily) :
  ∀ (visited : list QueueFamily) (indices : QueueFamilyIndices),
    indices_sound (visited ++ families) indices →
    indices_sound (visited ++ families)
      (findQueueFamilies_loop families (Z.of_nat (length visited)) indices).
Proof.
  induction families as [| family rest IH]; intros visited indices Hs; [done |].
  cbn [findQueueFamilies_loop].
  assert ((visited ++ family :: rest) !! Z.to_nat (Z.of_nat (length visited))
          = Some family) as Hhere.
  { rewrite Nat2Z.id. by apply list_lookup_middle. }
  set (indices1 := if has_flag (queueFlags family) VK_QUEUE_GRAPHICS_BIT
                   then _ else indices).
  set (indices2 := if presentSupport family then _ else indices1).
  assert (indices_sound (visited ++ family :: rest) indices2) as Hs2.
  { destruct Hs as [Hg Hp]. subst indices2 indices1.
    destruct (has_flag _ _) eqn:Hflag, (presentSupport family) eqn:Hpresent;
      split; cbn; intros k Hk; try (by apply Hg); try (by apply Hp);
      injection Hk as <-; (split; [lia | by exists family]). }
  destruct (isComplete indices2); [done |].
  replace (Z.of_nat (length visited) + 1) with (Z.of_nat (length (visited ++ [family])))
    by (rewrite length_app; cbn; lia).
  replace (visited ++ family :: rest) with ((visited ++ [family]) ++ rest) in *
    by (by rewrite <- app_assoc).
  by apply IH.
Qed.

(** X16: the queue families that [findQueueFamilies] returns are families
    of the device, the graphics family with the graphics flag and the
    present family able to present to the surface; and both are found
    exactly when the device has a family of each kind. *)
Theorem findQueueFamilies_sound (device : VkPhysicalDevice) :
  (∀ k, graphicsFamily (findQueueFamilies device) = Some k →
        0 ≤ k ∧ ∃ family, queueFamilies device !! Z.to_nat k = Some family
                  ∧ has_flag (queueFlags family) VK_QUEUE_GRAPHICS_BIT = true)
  ∧ (∀ k, presentFamily (findQueueFamilies device) = Some k →
          0 ≤ k ∧ ∃ family, queueFamilies device !! Z.to_nat k = Some family
                    ∧ presentSupport family = true)
  ∧ (isComplete (findQueueFamilies device) = true
     ↔ (∃ family, family ∈ queueFamilies device
                  ∧ has_flag (queueFlags family) VK_QUEUE_GRAPHICS_BIT = true)
       ∧ (∃ family, family ∈ queueFamilies device ∧ presentSupport family = true)).
Proof.
  split_and!; [| | apply findQueueFamilies_complete];
    apply (findQueueFamilies_loop_sound (queueFamilies device) []);
    split; intros k Hk; discriminate Hk.
Qed.

(** X17: a device supports the required extensions exactly when it lists
    the swap chain extension; how often and where in the list does not
    matter. *)
Theorem checkDeviceExtensionSupport_swapchain (device : VkPhysicalDevice) :
  checkDeviceExtensionSupport device = true
  ↔ "VK_KHR_swapchain" ∈ availableExtensions device.
Proof.
  rewrite checkDeviceExtensionSupport_true. unfold has_required_extensions.
  unfold deviceExtensions, VK_KHR_SWAPCHAIN_EXTENSION_NAME. split.
  - intros Hall. apply Hall. by apply list_elem_of_singleton.
  - intros Hin e He. by apply list_elem_of_singleton in He as ->.
Qed.

(** The candidates are kept in the order of their scores. *)
Definition by_score {V : Type} (candidates : list (Z * V)) : Prop :=
  ∀ i j x y, candidates !! i = Some x → candidates !! j = Some y →
             (i ≤ j)%nat → x.1 ≤ y.1.

Lemma by_score_cons {V : Type} (c : Z * V) (rest : list (Z * V)) :
  by_score (c :: rest) ↔ Forall (λ x, c.1 ≤ x.1) rest ∧ by_score rest.
Proof.
  split.
  - intros Hs. split.
    + apply Forall_lookup. intros i x Hx. by apply (Hs 0%nat (S i) c x); [| | lia].
    + intros i j x y Hx Hy Hij. apply (Hs (S i) (S j) x y); [done | done | lia].
  - intros [Hall Hs] i j x y Hx Hy Hij.
    destruct i as [| i], j as [| j]; cbn in Hx, Hy.
    + injection Hx as <-. injection Hy as <-. lia.
    + injection Hx as <-. rewrite Forall_lookup in Hall. by eapply Hall.
    + lia.
    + apply (Hs i j); [done | done | lia].
Qed.

Lemma multimap_insert_last {V : Type} (candidates : list (Z * V)) (entry : Z * V) :
  by_score candidates →
  by_score (multimap_insert candidates entry)
  ∧ last (multimap_insert candidates entry)
    = match last candidates with
      | Some best => if decide (entry.1 < best.1) then Some best else Some entry
      | None => Some entry
      end.
Proof.
  induction candidates as [| c rest IH]; intros Hs.
  - cbn. split; [| done]. apply by_score_cons. split; [done |].
    intros i j x y Hx. done.
  - apply by_score_cons in Hs as [Hall Hs]. destruct (IH Hs) as [IHs IHl].
    cbn [multimap_insert]. case_decide as Hlt.
    + split.
      * apply by_score_cons. split; [| by apply by_score_cons].
        constructor; [lia |]. eapply Forall_impl; [exact Hall |]. cbn. lia.
      * change (last (entry :: c :: rest)) with (last (c :: rest)).
        destruct (last (c :: rest)) as [best |] eqn:Hbest;
          [| by apply last_None in Hbest].
        rewrite decide_True; [done |].
        destruct rest as [| c' rest'].
        -- injection Hbest as <-. done.
        -- change (last (c :: c' :: rest')) with (last (c' :: rest')) in Hbest.
           apply last_Some in Hbest as [front Hfront].
           assert (best ∈ c' :: rest') as Hin
             by (rewrite Hfront; apply elem_of_app; right; apply list_elem_of_here).
           rewrite Forall_forall in Hall. specialize (Hall best Hin). lia.
    + split.
      * apply by_score_cons. split; [| done].
        assert (∀ l, Forall (λ x : Z * V, c.1 ≤ x.1) l →
                     Forall (λ x : Z * V, c.1 ≤ x.1) (multimap_insert l entry)) as Hins.
        { intros l Hl. apply multimap_insert_Forall; [done | lia]. }
        by apply Hins.
      * destruct rest as [| c' rest'].
        -- cbn. by rewrite decide_False.
        -- change (last (c :: c' :: rest')) with (last (c' :: rest')).
           rewrite <- IHl.
           destruct (multimap_insert (c' :: rest') entry) as [| m ms] eqn:Hm; [| done].
           cbn in Hm. by case_decide.
Qed.

(** The best candidate after each device: a device takes the place of the
    best one so far unless its score is lower. *)
Definition best_so_far (best : option VkPhysicalDevice) (device : VkPhysicalDevice)
    : option VkPhysicalDevice :=
  match best with
  | Some b =>
      if decide (rateDeviceSuitability device < rateDeviceSuitability b)
      then Some b else Some device
  | None => Some device
  end.

Lemma candidates_last (devices : list VkPhysicalDevice) :
  ∀ candidates : list (Z * VkPhysicalDevice),
    by_score candidates →
    Forall (λ c, c.1 = rateDeviceSuitability c.2) candidates →
    let candidates' :=
      foldl (λ candidates device,
               multimap_insert candidates (rateDeviceSuitability device, device))
        candidates devices in
    Forall (λ c, c.1 = rateDeviceSuitability c.2) candidates'
    ∧ snd <$> last candidates' = foldl best_so_far (snd <$> last candidates) devices.
Proof.
  induction devices as [| d devices IH]; intros candidates Hs Hall; [done |].
  cbn [foldl].
  destruct (multimap_insert_last candidates (rateDeviceSuitability d, d) Hs)
    as [Hs' Hlast].
  assert (Forall (λ c, c.1 = rateDeviceSuitability c.2)
            (multimap_insert candidates (rateDeviceSuitability d, d))) as Hall'
    by (by apply multimap_insert_Forall).
  destruct (IH _ Hs' Hall') as [Hall'' Hfold].
  split; [done |]. cbv zeta in Hfold. rewrite Hfold. f_equal.
  rewrite Hlast. destruct (last candidates) as [[s b] |] eqn:Hl; [| done].
  cbn [fmap option_fmap option_map snd fst best_so_far].
  assert (s = rateDeviceSuitability b) as ->.
  { apply last_Some in Hl as [front Hfront]. rewrite Hfront in Hall.
    apply Forall_app in Hall as [_ Hall]. by rewrite Forall_singleton in Hall. }
  by destruct (decide (rateDeviceSuitability d < rateDeviceSuitability b)).
Qed.

Lemma best_so_far_spec (devices : list VkPhysicalDevice) :
  ∀ (visited : list VkPhysicalDevice) (best : option VkPhysicalDevice),
    (match best with
     | Some b =>
         ∃ pre post, visited = pre ++ b :: post
           ∧ Forall (λ d, rateDeviceSuitability d ≤ rateDeviceSuitability b) pre
           ∧ Forall (λ d, rateDeviceSuitability d < rateDeviceSuitability b) post
     | None => visited = []
     end) →
    match foldl best_so_far best devices with
    | Some b =>
        ∃ pre post, visited ++ devices = pre ++ b :: post
          ∧ Forall (λ d, rateDeviceSuitability d ≤ rateDeviceSuitability b) pre
          ∧ Forall (λ d, rateDeviceSuitability d < rateDeviceSuitability b) post
    | None => visited ++ devices = []
    end.
Proof.
  induction devices as [| d devices IH]; intros visited best Hbest.
  - cbn [foldl]. by rewrite app_nil_r.
  - cbn [foldl].
    replace (visited ++ d :: devices) with ((visited ++ [d]) ++ devices)
      by (by rewrite <- app_assoc).
    apply IH. destruct best as [b |]; cbn [best_so_far].
    + destruct Hbest as (pre & post & -> & Hpre & Hpost). case_decide as Hlt.
      * exists pre, (post ++ [d]). split; [by rewrite <- app_assoc |].
        split; [done |]. apply Forall_app. split; [done |]. by constructor.
      * exists (pre ++ b :: post), []. split; [done |]. split; [| done].
        apply Forall_app. split.
        -- eapply Forall_impl; [exact Hpre |]. cbn. lia.
        -- constructor; [lia |]. eapply Forall_impl; [exact Hpost |]. cbn. lia.
    + subst visited. exists [], []. done.
Qed.

Lemma rateDeviceSuitability_values (device : VkPhysicalDevice) :
  rateDeviceSuitability device = 0
  ∨ rateDeviceSuitability device = 1 + deviceTypeBonus (deviceType device).
Proof. rewrite rateDeviceSuitability_closed. destruct (_ && _); [by right | by left]. Qed.

(** X18: [pickPhysicalDevice] returns a device of the list whose score is
    positive and the highest of all; of several devices with the highest
    score it takes the one that is listed last.  So a discrete GPU that
    qualifies is preferred to every device of another type.  With no
    device at all and with no device of positive score it throws, each
    with its own message. *)
Theorem pickPhysicalDevice_best (devices : list VkPhysicalDevice) :
  (∀ device,
     pickPhysicalDevice devices = Returns device →
     0 < rateDeviceSuitability device
     ∧ (∃ pre post,
          devices = pre ++ device :: post
          ∧ Forall (λ d, rateDeviceSuitability d ≤ rateDeviceSuitability device) pre
          ∧ Forall (λ d, rateDeviceSuitability d < rateDeviceSuitability device) post)
     ∧ ((∃ d, d ∈ devices ∧ 0 < rateDeviceSuitability d
              ∧ deviceType d = VK_PHYSICAL_DEVICE_TYPE_DISCRETE_GPU) →
        deviceType device = VK_PHYSICAL_DEVICE_TYPE_DISCRETE_GPU))
  ∧ (devices = [] →
     pickPhysicalDevice devices
     = Throws (love_Exception "failed to find GPUs with Vulkan support"))
  ∧ (devices ≠ [] →
     (∀ d, d ∈ devices → rateDeviceSuitability d = 0) →
     pickPhysicalDevice devices
     = Throws (love_Exception "failed to find a suitable gpu"))
  ∧ ((∃ d, d ∈ devices ∧ 0 < rateDeviceSuitability d) →
     ∃ device, pickPhysicalDevice devices = Returns device).
Proof.
  assert (Hlast : devices ≠ [] →
    ∃ b pre post,
      snd <$> rbegin (foldl (λ candidates device,
                 multimap_insert candidates (rateDeviceSuitability device, device))
               [] devices) = Some b
      ∧ (∀ s b', rbegin (foldl (λ candidates device,
                 multimap_insert candidates (rateDeviceSuitability device, device))
               [] devices) = Some (s, b') → s = rateDeviceSuitability b')
      ∧ devices = pre ++ b :: post
      ∧ Forall (λ d, rateDeviceSuitability d ≤ rateDeviceSuitability b) pre
      ∧ Forall (λ d, rateDeviceSuitability d < rateDeviceSuitability b) post).
  { intros Hne.
    destruct (candidates_last devices []) as [Hall Hfold].
    { intros i j x y Hx. done. }
    { done. }
    cbv zeta in Hall, Hfold. cbn [last fmap option_fmap option_map] in Hfold.
    pose proof (best_so_far_spec devices [] None eq_refl) as Hspec.
    cbn [app] in Hspec. unfold rbegin.
    destruct (foldl best_so_far None devices) as [b |]; [| done].
    destruct Hspec as (pre & post & Hd & Hpre & Hpost).
    exists b, pre, post. split_and!; try done.
    intros s b' Hl. apply last_Some in Hl as [front Hfront].
    rewrite Hfront in Hall. apply Forall_app in Hall as [_ Hall].
    by rewrite Forall_singleton in Hall. }
  split_and!.
  - intros device Hpick. unfold pickPhysicalDevice in Hpick.
    case_decide as Hlen; [done |].
    destruct Hlast as (b & pre & post & Hb & Hscore & Hd & Hpre & Hpost).
    { by intros ->. }
    destruct (rbegin _) as [[s b'] |] eqn:Hr; [| done].
    specialize (Hscore s b' eq_refl) as ->. injection Hb as ->.
    case_decide as Hpos; [| done]. injection Hpick as ->.
    split; [lia |]. split; [by exists pre, post |].
    intros (d & Hin & Hdpos & Hdtype).
    assert (rateDeviceSuitability d ≤ rateDeviceSuitability device) as Hle.
    { rewrite Hd in Hin. apply elem_of_app in Hin as [Hin | Hin].
      - rewrite Forall_forall in Hpre. by apply Hpre.
      - apply elem_of_cons in Hin as [-> | Hin]; [lia |].
        rewrite Forall_forall in Hpost. specialize (Hpost d Hin). lia. }
    destruct (rateDeviceSuitability_values d) as [Hz | Hv]; [lia |].
    destruct (rateDeviceSuitability_values device) as [Hz' | Hv']; [lia |].
    rewrite Hv, Hv', Hdtype in Hle. by destruct (deviceType device).
  - intros ->. done.
  - intros Hne Hzero. unfold pickPhysicalDevice.
    rewrite decide_False by (by destruct devices).
    destruct Hlast as (b & pre & post & Hb & Hscore & Hd & Hpre & Hpost); [done |].
    destruct (rbegin _) as [[s b'] |] eqn:Hr; [| done].
    specialize (Hscore s b' eq_refl) as ->.
    rewrite decide_False; [done |].
    rewrite Hzero; [lia |]. injection Hb as ->. rewrite Hd. set_solver.
  - intros (d & Hin & Hdpos). unfold pickPhysicalDevice.
    rewrite decide_False by (destruct devices; [by apply elem_of_nil in Hin | done]).
    destruct Hlast as (b & pre & post & Hb & Hscore & Hd & Hpre & Hpost).
    { intros ->. by apply elem_of_nil in Hin. }
    destruct (rbegin _) as [[s b'] |] eqn:Hr; [| done].
    specialize (Hscore s b' eq_refl) as ->. injection Hb as ->.
    exists b. rewrite decide_True; [done |].
    rewrite Hd in Hin. apply elem_of_app in Hin as [Hin | Hin].
    + rewrite Forall_forall in Hpre. specialize (Hpre d Hin). lia.
    + apply elem_of_cons in Hin as [-> | Hin]; [lia |].
      rewrite Forall_forall in Hpost. specialize (Hpost d Hin). lia.
Qed.

(** ** The swap chain *)

(** X19: of the surface formats on offer, [chooseSwapSurfaceFormat] takes
    8-bit BGRA with the sRGB colour space when it is among them, and the
    first format otherwise. *)
Theorem chooseSwapSurfaceFormat_preferred (availableFormats : list VkSurfaceFormatKHR) :
  availableFormats ≠ [] →
  let chosen := chooseSwapSurfaceFormat availableFormats in
  let preferred (f : VkSurfaceFormatKHR) :=
    format f = VK_FORMAT_B8G8R8A8_UNORM
    ∧ colorSpace f = VK_COLOR_SPACE_SRGB_NONLINEAR_KHR in
  chosen ∈ availableFormats
  ∧ ((∃ f, f ∈ availableFormats ∧ preferred f) → preferred chosen)
  ∧ ((∀ f, f ∈ availableFormats → ¬ preferred f) →
     availableFormats !! 0%nat = Some chosen).
Proof.
  intros Hne. cbv zeta. unfold chooseSwapSurfaceFormat.
  assert (Hloop : ∀ l,
    match chooseSwapSurfaceFormat_loop l with
    | Some f => f ∈ l ∧ format f = VK_FORMAT_B8G8R8A8_UNORM
                ∧ colorSpace f = VK_COLOR_SPACE_SRGB_NONLINEAR_KHR
    | None => ∀ f, f ∈ l → ¬ (format f = VK_FORMAT_B8G8R8A8_UNORM
                              ∧ colorSpace f = VK_COLOR_SPACE_SRGB_NONLINEAR_KHR)
    end).
  { induction l as [| x l IH]; cbn [chooseSwapSurfaceFormat_loop].
    - intros f Hf. by apply elem_of_nil in Hf.
    - destruct (bool_decide (format x = _) && bool_decide (colorSpace x = _)) eqn:Hx.
      + apply andb_true_iff in Hx as [H1 H2].
        apply bool_decide_eq_true in H1, H2. split; [apply list_elem_of_here | done].
      + destruct (chooseSwapSurfaceFormat_loop l) as [f |].
        * destruct IH as (? & ? & ?). split; [by apply list_elem_of_further | done].
        * intros f Hf. apply elem_of_cons in Hf as [-> | Hf]; [| by apply IH].
          intros [H1 H2]. apply andb_false_iff in Hx as [Hx | Hx];
            apply bool_decide_eq_false in Hx; done. }
  specialize (Hloop availableFormats).
  destruct (chooseSwapSurfaceFormat_loop availableFormats) as [f |].
  - destruct Hloop as (Hin & Hf & Hc). split_and!; [done | done |].
    intros Hnone. exfalso. by apply (Hnone f).
  - destruct availableFormats as [| x l]; [done |].
    unfold at_index. cbn. split_and!; [apply list_elem_of_here | | done].
    intros (f & Hin & Hp). exfalso. by apply (Hloop f).
Qed.



(** The four caches are as before, and the trace has grown. *)
Definition caches_kept (g g' : Graphics) : Prop :=
  renderPasses g' = renderPasses g
  ∧ framebuffers g' = framebuffers g
  ∧ graphicsPipelines g' = graphicsPipelines g
  ∧ samplers g' = samplers g
  ∧ ∃ events, trace g' = trace g ++ events.

#[global] Instance caches_kept_preorder : PreOrder caches_kept.
Proof.
  split.
  - intros g. split_and!; try done. exists []. by rewrite app_nil_r.
  - intros g1 g2 g3 (R1 & F1 & P1 & S1 & e1 & T1) (R2 & F2 & P2 & S2 & e2 & T2).
    split_and!; try congruence. exists (e1 ++ e2). by rewrite T2, T1, app_assoc.
Qed.




(** The number of image views follows the number of images. *)
Definition views_follow (g g' : Graphics) : Prop :=
  swapChainImages (swapChain g') = swapChainImages (swapChain g)
  ∧ length (swapChainImageViews (swapChain g'))
    = length (swapChainImageViews (swapChain g)).

#[global] Instance views_follow_preorder : PreOrder views_follow.
Proof.
  split; [done |]. intros g1 g2 g3 [I1 L1] [I2 L2]. split; congruence.
Qed.

Section SwapChains.
Context `{LoveHeaders} `{Driver}.





End SwapChains.

(** ** Acquiring an image *)

(** Neither an acquisition nor a wait for the device. *)
Definition calm (e : Event) : Prop :=
  match e with
  | AcquireNextImage _ _ _ | DeviceWaitIdle => False
  | _ => True
  end.

Lemma acquisitions_app (e1 e2 : list Event) :
  acquisitions (e1 ++ e2) = acquisitions e1 ++ acquisitions e2.
Proof. unfold acquisitions. apply omap_app. Qed.

Lemma deviceWaits_app (e1 e2 : list Event) :
  deviceWaits (e1 ++ e2) = (deviceWaits e1 + deviceWaits e2)%nat.
Proof. unfold deviceWaits. by rewrite filter_app, length_app. Qed.

Lemma calm_counts (events : list Event) :
  Forall calm events → acquisitions events = [] ∧ deviceWaits events = 0%nat.
Proof.
  unfold acquisitions, deviceWaits.
  induction 1 as [| e events He _ [IH1 IH2]]; [done |].
  cbn [omap list_omap]. rewrite filter_cons, IH1.
  destruct e; try done; cbn; by rewrite ?IH2.
Qed.

(** The frame slot stays, and the trace grows by calm calls. *)
Definition calmly (g g' : Graphics) : Prop :=
  currentFrame g' = currentFrame g ∧ extends_by calm g g'.

#[global] Instance calmly_preorder : PreOrder calmly.
Proof.
  split.
  - intros g. split; [done | reflexivity].
  - intros g1 g2 g3 [F1 E1] [F2 E2]. split; [congruence | by etransitivity].
Qed.

Lemma calmly_emit (e : Event) (g : Graphics) :
  calm e → calmly g (set_trace (trace g ++ [e]) g).
Proof. intros He. split; [done |]. exists [e]. split; [done | by constructor]. Qed.

Lemma calmly_same (g g' : Graphics) :
  currentFrame g' = currentFrame g → trace g' = trace g → calmly g g'.
Proof. intros Hf Ht. split; [done |]. exists []. by rewrite app_nil_r. Qed.

Ltac solve_calmly :=
  preserves_structure;
  first [ by apply calmly_emit | by apply calmly_same | idtac ].

Section Acquire.
Context `{LoveHeaders} `{Driver}.

Lemma recreateSwapChain_calmly (g g' : Graphics) :
  recreateSwapChain g = Done () g' →
  currentFrame g' = currentFrame g
  ∧ ∃ events, trace g' = trace g ++ DeviceWaitIdle :: events ∧ Forall calm events.
Proof.
  unfold recreateSwapChain. rewrite bind_emit. intros Hd.
  apply (preserves_Done calmly) in Hd as [Hf (events & Ht & Hc)].
  - split; [done |]. exists events. split; [| done].
    rewrite Ht. cbn [trace set_trace]. by rewrite <- app_assoc.
  - unfold cleanupSwapChain, createSwapChain, createImageViews. solve_calmly.
Qed.

Lemma acquireNextImage_loop_inv (rounds : nat) :
  ∀ g g',
    acquireNextImage_loop rounds g = Done () g' →
    ∃ events (retries : nat) result,
      trace g' = trace g ++ events
      ∧ acquisitions events = replicate retries VK_ERROR_OUT_OF_DATE_KHR ++ [result]
      ∧ (result = VK_SUCCESS ∨ result = VK_SUBOPTIMAL_KHR)
      ∧ deviceWaits events = retries
      ∧ (retries < rounds)%nat
      ∧ last events = Some (AcquireNextImage (currentFrame g) result (imageIndex g'))
      ∧ currentFrame g' = currentFrame g.
Proof.
  induction rounds as [| rounds IH]; intros g g' Hd; [done |].
  cbn [acquireNextImage_loop] in Hd. rewrite bind_get in Hd.
  destruct (vkAcquireNextImageKHR (trace g)) as [result index].
  rewrite bind_emit in Hd. case_decide as Hout.
  - subst result. apply bind_Done in Hd as ([] & g1 & Hre & Hd).
    apply recreateSwapChain_calmly in Hre as [Hf1 (ev1 & Ht1 & Hc1)].
    cbn [currentFrame trace set_trace] in Hf1, Ht1.
    apply IH in Hd as (events & retries & result & Ht & Hacq & Hres & Hwaits & Hlt
                       & Hlast & Hf).
    destruct (calm_counts _ Hc1) as [Ha1 Hw1].
    exists (AcquireNextImage (currentFrame g) VK_ERROR_OUT_OF_DATE_KHR index
            :: DeviceWaitIdle :: ev1 ++ events), (S retries), result.
    split_and!.
    + rewrite Ht, Ht1. rewrite <- !app_assoc. reflexivity.
    + change (?a :: ?b :: ev1 ++ events) with ([a; b] ++ ev1 ++ events).
      rewrite !acquisitions_app, Ha1, Hacq. reflexivity.
    + done.
    + change (?a :: ?b :: ev1 ++ events) with ([a; b] ++ ev1 ++ events).
      rewrite !deviceWaits_app, Hw1, Hwaits. reflexivity.
    + lia.
    + rewrite Hf1 in Hlast.
      destruct events as [| e events]; [done |].
      change (?a :: ?b :: ev1 ++ e :: events) with (([a; b] ++ ev1) ++ e :: events).
      by rewrite last_app, Hlast.
    + congruence.
  - case_decide as Herr; [done |]. injection Hd as <-.
    exists [AcquireNextImage (currentFrame g) result index], 0%nat, result.
    split_and!; try done; [| cbn; lia].
    destruct (decide (result = VK_SUCCESS)); [by left |].
    destruct (decide (result = VK_SUBOPTIMAL_KHR)); [by right |].
    exfalso. by apply Herr.
Qed.

(** X22: when the loop around [vkAcquireNextImageKHR] returns, every
    acquisition but the last has found the swap chain out of date, and the
    swap chain has been recreated as many times as that has happened; the
    last acquisition has succeeded, possibly with a suboptimal swap chain,
    and its image is the current one.  The frame slot is the same.  Every
    other result of an acquisition throws, and the loop has no limit of its
    own: with a driver that finds the swap chain out of date every time it
    never returns. *)
Theorem acquireNextImage_loop_retries (rounds : nat) (g : Graphics) :
  (∀ g',
     acquireNextImage_loop rounds g = Done () g' →
     ∃ events (retries : nat) result,
       trace g' = trace g ++ events
       ∧ acquisitions events = replicate retries VK_ERROR_OUT_OF_DATE_KHR ++ [result]
       ∧ (result = VK_SUCCESS ∨ result = VK_SUBOPTIMAL_KHR)
       ∧ deviceWaits events = retries
       ∧ (retries < rounds)%nat
       ∧ last events = Some (AcquireNextImage (currentFrame g) result (imageIndex g'))
       ∧ currentFrame g' = currentFrame g)
  ∧ (∀ result,
       (vkAcquireNextImageKHR (trace g)).1 = result →
       result ≠ VK_ERROR_OUT_OF_DATE_KHR → result ≠ VK_SUCCESS →
       result ≠ VK_SUBOPTIMAL_KHR →
       acquireNextImage_loop (S rounds) g
       = Thrown (love_Exception "failed to acquire swap chain image")
           (set_trace
              (trace g ++ [AcquireNextImage (currentFrame g) result
                             (vkAcquireNextImageKHR (trace g)).2]) g))
  ∧ ((∀ calls, (vkAcquireNextImageKHR calls).1 = VK_ERROR_OUT_OF_DATE_KHR) →
     ∀ g', acquireNextImage_loop rounds g ≠ Done () g').
Proof.
  split_and!.
  - apply acquireNextImage_loop_inv.
  - intros result Hr H1 H2 H3. cbn [acquireNextImage_loop]. rewrite bind_get.
    destruct (vkAcquireNextImageKHR (trace g)) as [result' index]. cbn in Hr.
    subst result'. rewrite bind_emit.
    rewrite decide_False by done. by rewrite decide_True.
  - intros Hstale. revert g. induction rounds as [| rounds IH]; intros g g'; [done |].
    cbn [acquireNextImage_loop]. rewrite bind_get.
    specialize (Hstale (trace g)) as Hs.
    destruct (vkAcquireNextImageKHR (trace g)) as [result index]. cbn in Hs.
    subst result. rewrite bind_emit, decide_True by done.
    rewrite bind_unfold. destruct (recreateSwapChain _) as [[] g1 | |]; [| done | done].
    apply IH.
Qed.
End Acquire.

(** ** The caches over the calls of the client *)

(** Every entry of the four caches is still there, with the same handle. *)
Definition caches_grow (g g' : Graphics) : Prop :=
  renderPasses g ⊆ renderPasses g'
  ∧ framebuffers g ⊆ framebuffers g'
  ∧ graphicsPipelines g ⊆ graphicsPipelines g'
  ∧ samplers g ⊆ samplers g'.

#[global] Instance caches_grow_preorder : PreOrder caches_grow.
Proof.
  split.
  - intros g. by split_and!.
  - intros g1 g2 g3 (R1 & F1 & P1 & S1) (R2 & F2 & P2 & S2).
    split_and!; by etransitivity.
Qed.

Lemma caches_grow_same (g g' : Graphics) :
  renderPasses g' = renderPasses g → framebuffers g' = framebuffers g →
  graphicsPipelines g' = graphicsPipelines g → samplers g' = samplers g →
  caches_grow g g'.
Proof. intros HR HF HP HS. unfold caches_grow. by rewrite HR, HF, HP, HS. Qed.

Create HintDb caches.

Ltac solve_caches_grow :=
  preserves_structure;
  first [ by apply caches_grow_same | by eauto with caches | idtac ].

Section CachesGrow.
Context `{LoveHeaders} `{Driver}.

Lemma flushBatchedDraws_grow : preserves caches_grow flushBatchedDraws.
Proof. unfold flushBatchedDraws. solve_caches_grow. Qed.
#[local] Hint Resolve flushBatchedDraws_grow : caches.

Lemma createFramebuffer_grow c : preserves caches_grow (createFramebuffer c).
Proof. unfold createFramebuffer. solve_caches_grow. Qed.

Lemma createRenderPass_grow c : preserves caches_grow (createRenderPass c).
Proof. unfold createRenderPass. solve_caches_grow. Qed.

Lemma createSampler_grow s : preserves caches_grow (createSampler s).
Proof. unfold createSampler. solve_caches_grow. Qed.

Lemma createGraphicsPipeline_grow c : preserves caches_grow (createGraphicsPipeline c).
Proof. unfold createGraphicsPipeline. solve_caches_grow. Qed.

Lemma getFramebuffer_grow c : preserves caches_grow (getFramebuffer c).
Proof.
  intros g. destruct (framebuffers g !! c) as [h |] eqn:Hl.
  - by rewrite (getFramebuffer_hit c h g Hl).
  - rewrite (getFramebuffer_miss c g Hl). cbv zeta.
    case_decide; [by apply caches_grow_same |].
    split_and!; try done. cbn. by apply insert_subseteq.
Qed.
#[local] Hint Resolve getFramebuffer_grow : caches.

Lemma getCachedSampler_grow s : preserves caches_grow (getCachedSampler s).
Proof.
  intros g. destruct (samplers g !! s) as [h |] eqn:Hl.
  - by rewrite (getCachedSampler_hit s h g Hl).
  - rewrite (getCachedSampler_miss s g Hl). cbv zeta.
    case_decide; [by apply caches_grow_same |].
    split_and!; try done. cbn. by apply insert_subseteq.
Qed.
#[local] Hint Resolve getCachedSampler_grow : caches.

Lemma preserves_step {A : Type} (m : M A) (g g1 : Graphics) :
  caches_grow g g1 → preserves caches_grow m →
  match m g1 with
  | Done _ g' => caches_grow g g'
  | Thrown _ g' => caches_grow g g'
  | Unfinished => True
  end.
Proof.
  intros Hg Hm. specialize (Hm g1).
  destruct (m g1) as [a g2 | e g2 |]; [| | done]; by etransitivity.
Qed.

Lemma ensureGraphicsPipelineConfiguration_grow c :
  preserves caches_grow (ensureGraphicsPipelineConfiguration c).
Proof.
  intros g. unfold ensureGraphicsPipelineConfiguration. rewrite bind_get.
  destruct (graphicsPipelines g !! c) as [p |] eqn:Hl.
  - apply preserves_step; [reflexivity |]. solve_caches_grow.
  - rewrite bind_unfold, createGraphicsPipeline_unfold. cbv zeta.
    case_decide; [by apply caches_grow_same |].
    rewrite bind_modify. cbv beta.
    apply preserves_step; [| solve_caches_grow].
    split_and!; try done. cbn. by apply insert_subseteq.
Qed.
#[local] Hint Resolve ensureGraphicsPipelineConfiguration_grow : caches.

Lemma startRenderPass_grow t w h : preserves caches_grow (startRenderPass t w h).
Proof.
  intros g. unfold startRenderPass. rewrite bind_get. cbv zeta.
  rewrite bind_modify. cbv beta. rewrite bind_unfold.
  set (cfg := {| frameBufferFormat := _ |}).
  destruct (renderPasses g !! cfg) as [rp |] eqn:Hl.
  - cbn [mret M_ret].
    apply preserves_step; [by apply caches_grow_same |]. solve_caches_grow.
  - rewrite bind_unfold, createRenderPass_unfold. cbv zeta.
    case_decide; [by apply caches_grow_same |].
    rewrite bind_modify. cbn [mret M_ret].
    apply preserves_step; [| solve_caches_grow].
    split_and!; try done. cbn. by apply insert_subseteq.
Qed.
#[local] Hint Resolve startRenderPass_grow : caches.

Lemma endRenderPass_grow : preserves caches_grow endRenderPass.
Proof. unfold endRenderPass. solve_caches_grow. Qed.
#[local] Hint Resolve endRenderPass_grow : caches.

Lemma setRenderTargetsInternal_grow rts w h :
  preserves caches_grow (setRenderTargetsInternal rts w h).
Proof. unfold setRenderTargetsInternal. solve_caches_grow. Qed.

Lemma recreateSwapChain_grow : preserves caches_grow recreateSwapChain.
Proof.
  unfold recreateSwapChain, cleanupSwapChain, createSwapChain, createImageViews.
  solve_caches_grow.
Qed.
#[local] Hint Resolve recreateSwapChain_grow : caches.

Lemma prepareDraw_grow a b t p c : preserves caches_grow (prepareDraw a b t p c).
Proof. unfold prepareDraw, getCurrentBuiltinUniformData. solve_caches_grow. Qed.
#[local] Hint Resolve prepareDraw_grow : caches.

Lemma drawQuads_loop_grow rounds :
  ∀ count quadindex baseVertex,
    preserves caches_grow (drawQuads_loop rounds count quadindex baseVertex).
Proof.
  induction rounds as [| rounds IH]; intros count quadindex baseVertex;
    cbn [drawQuads_loop]; solve_caches_grow.
Qed.
#[local] Hint Resolve drawQuads_loop_grow : caches.

Lemma acquireNextImage_loop_grow rounds :
  preserves caches_grow (acquireNextImage_loop rounds).
Proof.
  induction rounds as [| rounds IH]; cbn [acquireNextImage_loop]; solve_caches_grow.
Qed.
#[local] Hint Resolve acquireNextImage_loop_grow : caches.

Lemma startRecordingGraphicsCommands_grow rounds :
  preserves caches_grow (startRecordingGraphicsCommands rounds).
Proof. unfold startRecordingGraphicsCommands. solve_caches_grow. Qed.
#[local] Hint Resolve startRecordingGraphicsCommands_grow : caches.

Lemma present_grow rounds : preserves caches_grow (present rounds).
Proof.
  unfold present, endRecordingGraphicsCommands, updatedBatchedDrawBuffers.
  solve_caches_grow.
Qed.

Lemma call_grow (c : Call) : preserves caches_grow (call c).
Proof.
  destruct c; cbn [call].
  - unfold draw. solve_caches_grow.
  - unfold draw_indexed. solve_caches_grow.
  - unfold drawQuads. solve_caches_grow.
  - unfold setFrontFaceWinding. solve_caches_grow.
  - unfold setColorMask. solve_caches_grow.
  - unfold setBlendState. solve_caches_grow.
  - unfold setPointSize. solve_caches_grow.
  - unfold setColor. solve_caches_grow.
  - unfold setScissor. solve_caches_grow.
  - unfold setScissor_off. solve_caches_grow.
  - unfold setWireframe. solve_caches_grow.
  - apply setRenderTargetsInternal_grow.
  - solve_caches_grow.
  - unfold queueCleanUp. solve_caches_grow.
  - apply present_grow.
Qed.

(** X23: no call of the client takes an entry out of a cache or replaces
    its handle: after any sequence of calls, whether it has returned or
    thrown, every render pass, framebuffer, pipeline and sampler that was
    cached is still cached under its configuration, with the same handle. *)
Theorem caches_never_forget (cs : list Call) (g : Graphics) :
  match calls cs g with
  | Done _ g' | Thrown _ g' =>
      (∀ c h, renderPasses g !! c = Some h → renderPasses g' !! c = Some h)
      ∧ (∀ c h, framebuffers g !! c = Some h → framebuffers g' !! c = Some h)
      ∧ (∀ c h, graphicsPipelines g !! c = Some h →
                graphicsPipelines g' !! c = Some h)
      ∧ (∀ c h, samplers g !! c = Some h → samplers g' !! c = Some h)
  | Unfinished => True
  end.
Proof.
  assert (preserves caches_grow (calls cs)) as Hcs.
  { unfold calls. apply (preserves_for_each caches_grow). apply call_grow. }
  specialize (Hcs g).
  destruct (calls cs g) as [[] g' | e g' |]; [| | done];
    destruct Hcs as (HR & HF & HP & HS);
    split_and!; intros c h Hl; by eapply lookup_weaken.
Qed.
End CachesGrow.

(** ** Render passes *)

Section RenderPasses.
Context `{LoveHeaders} `{Driver}.

Lemma getFramebuffer_Done_inv (c : FramebufferConfiguration) (h : VkFramebuffer)
    (g g1 : Graphics) :
  getFramebuffer c g = Done h g1 →
  framebuffers g1 !! c = Some h
  ∧ g1 = set_framebuffers (framebuffers g1) (set_trace (trace g1) g)
  ∧ ∃ events, trace g1 = trace g ++ events
              ∧ Forall (λ e, ∃ r f, e = CreateFramebuffer c r f) events.
Proof.
  destruct (framebuffers g !! c) as [h0 |] eqn:Hl.
  - rewrite (getFramebuffer_hit c h0 g Hl). intros [= <- <-].
    split_and!; [done | by destruct g |]. exists []. by rewrite app_nil_r.
  - rewrite (getFramebuffer_miss c g Hl). cbv zeta. case_decide; [done |].
    intros [= <- <-]. split_and!; [apply lookup_insert_eq | by destruct g |].
    eexists. split; [reflexivity |]. constructor; [by eexists _, _ | done].
Qed.

(** What [startRenderPass] has done when it returns. *)
Lemma startRenderPass_inv (texture : option Texture) (w h : Z)
    (g g' : Graphics) :
  startRenderPass texture w h g = Done () g' →
  let configuration := {|
    frameBufferFormat :=
      match texture with
      | Some t => tex_internalFormat t
      | None => swapChainImageFormat (swapChain g)
      end |} in
  renderPasses g' !! configuration = Some (currentRenderPass g')
  ∧ (∀ renderPass, renderPasses g !! configuration = Some renderPass →
                   currentRenderPass g' = renderPass ∧ renderPasses g' = renderPasses g)
  ∧ currentGraphicsPipeline g' = VK_NULL_HANDLE
  ∧ renderTargetTexture g' = texture
  ∧ currentViewportWidth g' = float_of_uint32 w
  ∧ currentViewportHeight g' = float_of_uint32 h
  ∧ ∃ imageView framebuffer before,
      match texture with
      | Some t => imageView = tex_renderTargetHandle t
      | None => swapChainImageViews (swapChain g) !! imageIndex g = Some imageView
      end
      ∧ framebuffers g'
          !! {| fb_renderPass := currentRenderPass g'; fb_imageView := imageView;
                fb_width := w; fb_height := h |} = Some framebuffer
      ∧ trace g'
        = trace g ++ before
          ++ match texture with
             | Some t =>
                 [CmdTransitionImageLayout (currentFrame g) (tex_handle t)
                    VK_IMAGE_LAYOUT_SHADER_READ_ONLY_OPTIMAL
                    VK_IMAGE_LAYOUT_COLOR_ATTACHMENT_OPTIMAL]
             | None => []
             end
          ++ [CmdBeginRenderPass (currentFrame g) (currentRenderPass g') framebuffer w h]
      ∧ Forall (λ e, (∃ c r p, e = CreateRenderPass c r p)
                     ∨ (∃ c r f, e = CreateFramebuffer c r f)) before.
Proof.
  intros Hd. cbv zeta. unfold startRenderPass in Hd.
  rewrite bind_get in Hd. cbv zeta in Hd. rewrite bind_modify in Hd.
  set (cfg := {| frameBufferFormat := _ |}) in *.
  apply bind_Done in Hd as (rp & g1 & Hrp & Hd).
  (* the render pass *)
  assert (renderPasses g1 !! cfg = Some rp
          ∧ (∀ rp0, renderPasses g !! cfg = Some rp0 →
                    rp = rp0 ∧ renderPasses g1 = renderPasses g)
          ∧ g1 = set_renderPasses (renderPasses g1)
                   (set_trace (trace g1) (set_renderTargetTexture texture g))
          ∧ ∃ ev1, trace g1 = trace g ++ ev1
                   ∧ Forall (λ e, (∃ c r p, e = CreateRenderPass c r p)
                                  ∨ (∃ c r f, e = CreateFramebuffer c r f)) ev1)
    as (Hrp1 & Hrp0 & Hg1 & ev1 & Ht1 & Hev1).
  { destruct (renderPasses g !! cfg) as [rp0 |] eqn:Hl.
    - injection Hrp as <- <-.
      split_and!; [exact Hl | by intros ? [= <-] | by destruct g |].
      exists []. split; [| done]. cbn. by rewrite app_nil_r.
    - rewrite bind_unfold, createRenderPass_unfold in Hrp. cbv zeta in Hrp.
      case_decide; [done |]. rewrite bind_modify in Hrp. injection Hrp as <- <-.
      split_and!; [apply lookup_insert_eq | done | by destruct g |].
      eexists. split; [reflexivity |]. constructor; [| done]. left. by eexists _, _, _. }
  clear Hrp.
  (* the image view *)
  apply bind_Done in Hd as (imageView & g2 & Hview & Hd).
  assert (g2 = g1
          ∧ match texture with
            | Some t => imageView = tex_renderTargetHandle t
            | None => swapChainImageViews (swapChain g) !! imageIndex g = Some imageView
            end) as [-> Hview'].
  { destruct texture as [t |].
    - by injection Hview as <- <-.
    - rewrite bind_get in Hview. apply vector_at_inv in Hview as [-> Hview].
      split; [done |]. rewrite Hg1 in Hview. by destruct g. }
  clear Hview.
  (* the framebuffer *)
  apply bind_Done in Hd as (fb & g3 & Hfb & Hd).
  apply getFramebuffer_Done_inv in Hfb as (Hfb3 & Hg3 & ev3 & Ht3 & Hev3).
  (* the transition and the begin *)
  assert (∃ g4,
    (currentFrame g3 < MAX_FRAMES_IN_FLIGHT)%nat
    ∧ g' = set_currentViewport (float_of_uint32 w, float_of_uint32 h)
             (set_currentGraphicsPipeline VK_NULL_HANDLE
                (set_currentRenderPass rp
                   (set_trace
                      (trace g3
                       ++ match texture with
                          | Some t =>
                              [CmdTransitionImageLayout (currentFrame g3) (tex_handle t)
                                 VK_IMAGE_LAYOUT_SHADER_READ_ONLY_OPTIMAL
                                 VK_IMAGE_LAYOUT_COLOR_ATTACHMENT_OPTIMAL]
                          | None => []
                          end
                       ++ [CmdBeginRenderPass (currentFrame g3) rp fb w h]) g4)))
    ∧ g4 = g3) as (g4 & Hslot & -> & ->).
  { exists g3. destruct texture as [t |].
    - cbv beta iota in Hd. minv Hd. minv Hcall. destruct a.
      injection Hcall as <-. injection Hd as <-. split_and!; [done | | done].
      cbn [trace set_trace currentFrame]. rewrite <- app_assoc. by destruct g3.
    - cbv beta iota in Hd. rewrite bind_ret in Hd. minv Hd. injection Hd as <-.
      by split_and!. }
  assert (currentFrame g3 = currentFrame g) as Hf3.
  { rewrite Hg3, Hg1. by destruct g. }
  cbn [renderPasses framebuffers currentRenderPass currentGraphicsPipeline
       renderTargetTexture currentViewportWidth currentViewportHeight trace
       set_currentViewport set_currentGraphicsPipeline set_currentRenderPass
       set_trace fst snd].
  assert (renderPasses g3 = renderPasses g1) as HR3 by (rewrite Hg3; by destruct g1).
  split_and!.
  - by rewrite HR3.
  - intros rp0 Hrp0'. destruct (Hrp0 rp0 Hrp0') as [-> HR]. split; [done | congruence].
  - done.
  - rewrite Hg3, Hg1. by destruct g.
  - done.
  - done.
  - exists imageView, fb, (ev1 ++ ev3). split_and!; [done | done | |].
    + rewrite Ht3, Ht1, Hf3. by rewrite <- !app_assoc.
    + apply Forall_app. split; [done |].
      eapply Forall_impl; [exact Hev3 |]. cbn. intros e (r & f & ->). right. eauto.
Qed.

(** X24: when [startRenderPass] returns, the render pass for the format of
    the target is cached and is the current one (the cached one is taken
    when there was one); the framebuffer for this render pass, the image
    view of the target and the given size is cached, and the last call
    recorded is the begin of the render pass with that framebuffer, for a
    texture preceded by the transition of its image to a colour attachment;
    no pipeline counts as bound any more, and the viewport has the given
    size. *)
Theorem startRenderPass_begins (texture : option Texture) (w h : Z)
    (g g' : Graphics) :
  startRenderPass texture w h g = Done () g' →
  let configuration := {|
    frameBufferFormat :=
      match texture with
      | Some t => tex_internalFormat t
      | None => swapChainImageFormat (swapChain g)
      end |} in
  renderPasses g' !! configuration = Some (currentRenderPass g')
  ∧ (∀ renderPass, renderPasses g !! configuration = Some renderPass →
                   currentRenderPass g' = renderPass ∧ renderPasses g' = renderPasses g)
  ∧ currentGraphicsPipeline g' = VK_NULL_HANDLE
  ∧ renderTargetTexture g' = texture
  ∧ currentViewportWidth g' = float_of_uint32 w
  ∧ currentViewportHeight g' = float_of_uint32 h
  ∧ ∃ imageView framebuffer before,
      match texture with
      | Some t => imageView = tex_renderTargetHandle t
      | None => swapChainImageViews (swapChain g) !! imageIndex g = Some imageView
      end
      ∧ framebuffers g'
          !! {| fb_renderPass := currentRenderPass g'; fb_imageView := imageView;
                fb_width := w; fb_height := h |} = Some framebuffer
      ∧ trace g'
        = trace g ++ before
          ++ match texture with
             | Some t =>
                 [CmdTransitionImageLayout (currentFrame g) (tex_handle t)
                    VK_IMAGE_LAYOUT_SHADER_READ_ONLY_OPTIMAL
                    VK_IMAGE_LAYOUT_COLOR_ATTACHMENT_OPTIMAL]
             | None => []
             end
          ++ [CmdBeginRenderPass (currentFrame g) (currentRenderPass g') framebuffer w h]
      ∧ Forall (λ e, (∃ c r p, e = CreateRenderPass c r p)
                     ∨ (∃ c r f, e = CreateFramebuffer c r f)) before.
Proof. apply startRenderPass_inv. Qed.

(** [endRenderPass] within the ring of frame slots. *)
Lemma endRenderPass_Done (g : Graphics) :
  (currentFrame g < MAX_FRAMES_IN_FLIGHT)%nat →
  ∃ g',
    endRenderPass g = Done () g'
    ∧ currentRenderPass g' = VK_NULL_HANDLE
    ∧ renderTargetTexture g' = None
    ∧ trace g'
      = trace g ++ CmdEndRenderPass (currentFrame g)
          :: match renderTargetTexture g with
             | Some t =>
                 [CmdTransitionImageLayout (currentFrame g) (tex_handle t)
                    VK_IMAGE_LAYOUT_COLOR_ATTACHMENT_OPTIMAL
                    VK_IMAGE_LAYOUT_SHADER_READ_ONLY_OPTIMAL]
             | None => []
             end
    ∧ g' = set_renderTargetTexture None
             (set_currentRenderPass VK_NULL_HANDLE (set_trace (trace g') g)).
Proof.
  intros Hslot. unfold endRenderPass.
  rewrite bind_Done_l with (1 := at_currentFrame_Done g Hslot).
  rewrite bind_emit, bind_modify, bind_get.
  cbn [renderTargetTexture set_currentRenderPass set_trace].
  destruct (renderTargetTexture g) as [t |] eqn:Ht.
  - rewrite bind_Done_l with (a := currentFrame g)
      (g1 := set_currentRenderPass VK_NULL_HANDLE
               (set_trace (trace g ++ [CmdEndRenderPass (currentFrame g)]) g))
      by (by apply at_currentFrame_Done_eq).
    rewrite bind_emit. eexists. split; [reflexivity |].
    cbn [trace set_trace set_currentRenderPass set_renderTargetTexture
         currentRenderPass renderTargetTexture].
    split_and!; [done | done | by rewrite <- app_assoc | by destruct g].
  - eexists. split; [reflexivity |].
    cbn [trace set_trace set_currentRenderPass currentRenderPass renderTargetTexture].
    split_and!; [done | done | done |]. destruct g; cbn in *. by rewrite Ht.
Qed.

Lemma endRenderPass_outside (g : Graphics) :
  ¬ (currentFrame g < MAX_FRAMES_IN_FLIGHT)%nat →
  endRenderPass g = Thrown std_out_of_range g.
Proof.
  intros Hslot. unfold endRenderPass, at_currentFrame.
  rewrite bind_unfold, bind_get. by rewrite decide_False.
Qed.

(** X25: [endRenderPass] records the end of the render pass and clears the
    current render pass; when a texture was the target it records the
    transition of its image back to a shader resource and forgets the
    target.  Outside the ring of frame slots it throws. *)
Theorem endRenderPass_ends (g : Graphics) :
  ((currentFrame g < MAX_FRAMES_IN_FLIGHT)%nat →
   ∃ g',
     endRenderPass g = Done () g'
     ∧ currentRenderPass g' = VK_NULL_HANDLE
     ∧ renderTargetTexture g' = None
     ∧ trace g'
       = trace g ++ CmdEndRenderPass (currentFrame g)
           :: match renderTargetTexture g with
              | Some t =>
                  [CmdTransitionImageLayout (currentFrame g) (tex_handle t)
                     VK_IMAGE_LAYOUT_COLOR_ATTACHMENT_OPTIMAL
                     VK_IMAGE_LAYOUT_SHADER_READ_ONLY_OPTIMAL]
              | None => []
              end
     ∧ g' = set_renderTargetTexture None
              (set_currentRenderPass VK_NULL_HANDLE (set_trace (trace g') g)))
  ∧ (¬ (currentFrame g < MAX_FRAMES_IN_FLIGHT)%nat →
     endRenderPass g = Thrown std_out_of_range g).
Proof. split; [apply endRenderPass_Done | apply endRenderPass_outside]. Qed.

(** X26: [setRenderTargetsInternal] ends the render pass under way and
    begins one on the first of the given targets, and on the screen when
    there is none; the targets after the first are not looked at.  When it
    returns, the trace has grown by the end of the old render pass, for an
    old texture target the transition of its image back to a shader
    resource, the creations of what was not cached, for a new texture
    target the transition of its image to a colour attachment, and the
    begin of the new render pass; the pass has the given pixel size for a
    texture and the extent of the swap chain for the screen, and no
    pipeline counts as bound any more. *)
Theorem setRenderTargetsInternal_switches (rts : list Texture)
    (pixelw pixelh : Z) (g g' : Graphics) :
  setRenderTargetsInternal rts pixelw pixelh g = Done () g' →
  let w := match rts with
           | [] => (swapChainExtent (swapChain g)).1
           | _ :: _ => to_uint32 pixelw
           end in
  let h := match rts with
           | [] => (swapChainExtent (swapChain g)).2
           | _ :: _ => to_uint32 pixelh
           end in
  renderTargetTexture g' = head rts
  ∧ currentGraphicsPipeline g' = VK_NULL_HANDLE
  ∧ currentViewportWidth g' = float_of_uint32 w
  ∧ currentViewportHeight g' = float_of_uint32 h
  ∧ renderPasses g'
      !! {| frameBufferFormat :=
              match head rts with
              | Some t => tex_internalFormat t
              | None => swapChainImageFormat (swapChain g)
              end |} = Some (currentRenderPass g')
  ∧ ∃ framebuffer created,
      trace g'
      = trace g
        ++ CmdEndRenderPass (currentFrame g)
           :: match renderTargetTexture g with
              | Some t =>
                  [CmdTransitionImageLayout (currentFrame g) (tex_handle t)
                     VK_IMAGE_LAYOUT_COLOR_ATTACHMENT_OPTIMAL
                     VK_IMAGE_LAYOUT_SHADER_READ_ONLY_OPTIMAL]
              | None => []
              end
        ++ created
        ++ match head rts with
           | Some t =>
               [CmdTransitionImageLayout (currentFrame g) (tex_handle t)
                  VK_IMAGE_LAYOUT_SHADER_READ_ONLY_OPTIMAL
                  VK_IMAGE_LAYOUT_COLOR_ATTACHMENT_OPTIMAL]
           | None => []
           end
        ++ [CmdBeginRenderPass (currentFrame g) (currentRenderPass g')
              framebuffer w h]
      ∧ Forall (λ e, (∃ c r p, e = CreateRenderPass c r p)
                     ∨ (∃ c r f, e = CreateFramebuffer c r f)) created.
Proof.
  intros Hd. cbv zeta. unfold setRenderTargetsInternal in Hd.
  apply bind_Done in Hd as ([] & g1 & Hend & Hd).
  destruct (decide (currentFrame g < MAX_FRAMES_IN_FLIGHT)%nat) as [Hslot | Hslot];
    [| by rewrite endRenderPass_outside in Hend].
  destruct (endRenderPass_Done g Hslot) as (g1' & Hend' & _ & _ & Ht1 & Hg1).
  rewrite Hend in Hend'. injection Hend' as <-.
  assert (currentFrame g1 = currentFrame g ∧ swapChain g1 = swapChain g
          ∧ imageIndex g1 = imageIndex g) as (Hf1 & Hs1 & Hi1).
  { rewrite Hg1. by destruct g. }
  assert (startRenderPass (head rts)
            match rts with
            | [] => (swapChainExtent (swapChain g)).1
            | _ :: _ => to_uint32 pixelw
            end
            match rts with
            | [] => (swapChainExtent (swapChain g)).2
            | _ :: _ => to_uint32 pixelh
            end g1 = Done () g') as Hstart.
  { destruct rts as [| t rest]; cbn [head].
    - rewrite bind_get in Hd. by rewrite Hs1 in Hd.
    - exact Hd. }
  clear Hd. apply startRenderPass_inv in Hstart. cbv zeta in Hstart.
  destruct Hstart as (Hrp & _ & Hp & Htex & Hvw & Hvh & view & fb & before
                      & _ & _ & Ht & Hbefore).
  rewrite Hs1 in Hrp. rewrite Hf1 in Ht.
  split_and!; [done | done | done | done | done |].
  exists fb, before. split; [| done].
  rewrite Ht, Ht1. rewrite <- !app_assoc. cbn [app]. by rewrite <- ?app_assoc.
Qed.
End RenderPasses.

(** ** Recording a frame *)

Section Recording.
Context `{LoveHeaders} `{Driver}.

(** [startRenderPass] leaves the image index and the swap chain alone. *)
Lemma startRenderPass_keeps_image (texture : option Texture) (w h : Z) :
  preserves (keeps (λ g, (imageIndex g, swapChain g))) (startRenderPass texture w h).
Proof.
  unfold startRenderPass, getFramebuffer, createFramebuffer, createRenderPass.
  preserves_structure; unfold keeps; try done;
    match goal with g : Graphics |- _ => by destruct g end.
Qed.

(** X13: when [startRecordingGraphicsCommands] returns, it has first waited
    for the fence of the current frame slot and then acquired an image,
    with one recreation of the swap chain for every acquisition that found
    it out of date; after the acquisition that handed out the image, and
    not before, it has called the clean-ups queued in the slot, each once and
    in the order in which they were queued; only then have the two command
    buffers of the slot begun recording, followed by the transition of the
    acquired image and the begin of the render pass to the screen.  The
    queue of the slot is empty afterwards, the queues of the other slots
    are as before, and the frame slot is the same. *)
Theorem startRecordingGraphicsCommands_runs_cleanups (rounds : nat) (g g' : Graphics) :
  startRecordingGraphicsCommands rounds g = Done () g' →
  ∃ queue retried result framebuffer created,
    cleanUpFunctions g !! currentFrame g = Some queue
    ∧ trace g'
      = trace g
        ++ WaitForFences (currentFrame g) :: retried
        ++ AcquireNextImage (currentFrame g) result (imageIndex g')
           :: map CleanUpFn queue
        ++ BeginCommandBuffer false (currentFrame g) VK_SUCCESS
           :: BeginCommandBuffer true (currentFrame g) VK_SUCCESS
           :: CmdTransitionImageLayout (currentFrame g)
                (at_index VK_NULL_HANDLE (swapChainImages (swapChain g'))
                   (Z.of_nat (imageIndex g')))
                VK_IMAGE_LAYOUT_UNDEFINED VK_IMAGE_LAYOUT_COLOR_ATTACHMENT_OPTIMAL
           :: created
        ++ [CmdBeginRenderPass (currentFrame g) (currentRenderPass g') framebuffer
              (swapChainExtent (swapChain g')).1 (swapChainExtent (swapChain g')).2;
            ResetShaderSwitches]
    ∧ (result = VK_SUCCESS ∨ result = VK_SUBOPTIMAL_KHR)
    ∧ Forall quiet retried
    ∧ Forall (λ r, r = VK_ERROR_OUT_OF_DATE_KHR) (acquisitions retried)
    ∧ deviceWaits retried = length (acquisitions retried)
    ∧ Forall (λ e, (∃ c r p, e = CreateRenderPass c r p)
                   ∨ (∃ c r f, e = CreateFramebuffer c r f)) created
    ∧ cleanUpFunctions g' = <[currentFrame g := []]> (cleanUpFunctions g)
    ∧ currentFrame g' = currentFrame g
    ∧ active g' = active g.
Proof.
  intros Hd. unfold startRecordingGraphicsCommands in Hd.
  rewrite bind_get, bind_emit in Hd.
  apply bind_Done in Hd as ([] & g1 & Hacq & Hd).
  pose proof (preserves_Done _ _ _ _ _ (acquireNextImage_loop_undisturbed rounds) Hacq)
    as (Hf1 & Hc1 & Ha1 & ev1 & Ht1 & Hq1).
  apply acquireNextImage_loop_inv in Hacq
    as (events & retries & result & Ht1' & Hacqs & Hres & Hwaits & _ & Hlast & _).
  cbn [currentFrame cleanUpFunctions active trace set_trace] in Hf1, Hc1, Ha1, Ht1,
    Ht1', Hlast.
  assert (events = ev1) as ->.
  { rewrite Ht1 in Ht1'. by apply app_inv_head in Ht1'. }
  apply last_Some in Hlast as [retried ->].
  apply Forall_app in Hq1 as [Hq1 _].
  rewrite acquisitions_app in Hacqs. cbn in Hacqs.
  rewrite deviceWaits_app in Hwaits.
  change (deviceWaits [AcquireNextImage _ _ _]) with 0%nat in Hwaits.
  apply app_inj_tail in Hacqs as [Hacqs _].
  rewrite bind_get in Hd.
  apply bind_Done in Hd as (queue & g1' & Hat & Hd).
  apply vector_at_inv in Hat as (-> & Hat).
  rewrite bind_unfold, for_each_emit, bind_get in Hd.
  cbn [currentFrame cleanUpFunctions set_trace] in Hd.
  rewrite bind_unfold in Hd. unfold vector_at at 1 in Hd. rewrite Hat in Hd.
  cbn [mret M_ret] in Hd. rewrite bind_modify in Hd.
  cbn [currentFrame cleanUpFunctions set_trace] in Hd.
  apply bind_Done in Hd as (cb & g2 & Hcb & Hd).
  apply at_currentFrame_inv in Hcb as (-> & -> & Hslot).
  cbn [currentFrame set_cleanUpFunctions set_trace] in Hd, Hslot.
  rewrite bind_get, bind_emit in Hd.
  case_decide as Hr1; [done |].
  apply bind_Done in Hd as (cb & g2 & Hcb & Hd).
  apply at_currentFrame_inv in Hcb as (-> & -> & _).
  cbn [currentFrame set_cleanUpFunctions set_trace] in Hd.
  rewrite bind_get, bind_emit in Hd.
  case_decide as Hr2; [done |].
  apply bind_Done in Hd as (cb & g2 & Hcb & Hd).
  apply at_currentFrame_inv in Hcb as (-> & -> & _).
  rewrite bind_get, bind_emit in Hd.
  apply bind_Done in Hd as ([] & g3 & Hsrp & Hd).
  pose proof (preserves_Done _ _ _ _ _ (startRenderPass_undisturbed _ _ _) Hsrp)
    as (Hf3 & Hc3 & Ha3 & _).
  pose proof (preserves_Done _ _ _ _ _ (startRenderPass_keeps_image _ _ _) Hsrp)
    as Hk3.
  unfold keeps in Hk3.
  apply startRenderPass_inv in Hsrp
    as (_ & _ & _ & _ & _ & _ & view & fb & created & _ & _ & Ht3 & Hcreated).
  cbn [currentFrame cleanUpFunctions active trace set_trace set_cleanUpFunctions
       imageIndex swapChain app]
    in Hf3, Hc3, Ha3, Hk3, Ht3.
  injection Hk3 as Hi3 Hs3.
  injection Hd as <-.
  cbn [currentFrame cleanUpFunctions active trace set_trace imageIndex swapChain
       currentRenderPass].
  exists queue, retried, result, fb, created.
  split_and!.
  - by rewrite <- Hf1, <- Hc1.
  - cbn [trace set_trace cleanUpFunctions currentFrame set_cleanUpFunctions]
      in Hr1, Hr2.
    rewrite Hr1 in Hr2. rewrite Ht3, Hr1, Hr2, Ht1, Hf1, Hi3, Hs3.
    rewrite <- !app_assoc. cbn [app]. rewrite <- ?app_assoc. reflexivity.
  - done.
  - done.
  - rewrite Hacqs. by apply Forall_replicate.
  - rewrite Hacqs, length_replicate. lia.
  - done.
  - by rewrite Hc3, Hc1, Hf1.
  - by rewrite Hf3.
  - by rewrite Ha3.
Qed.
End Recording.

(** ** Sized pixel formats *)

(** X27: [getSizedFormat] replaces the two unsized formats by sized ones
    and leaves every other format as it is: the result is never an unsized
    format, a second application changes nothing, and the two flags have
    no influence. *)
Theorem getSizedFormat_sized (isGammaCorrect : bool) (format : PixelFormat)
    (rendertarget readable : bool) :
  let sized := getSizedFormat isGammaCorrect format rendertarget readable in
  sized ≠ PIXELFORMAT_NORMAL
  ∧ sized ≠ PIXELFORMAT_HDR
  ∧ (∀ gamma' rendertarget' readable',
       getSizedFormat gamma' sized rendertarget' readable' = sized)
  ∧ (format ≠ PIXELFORMAT_NORMAL → format ≠ PIXELFORMAT_HDR → sized = format)
  ∧ (∀ rendertarget' readable',
       getSizedFormat isGammaCorrect format rendertarget' readable' = sized)
  ∧ (format = PIXELFORMAT_NORMAL →
     sized = if isGammaCorrect then PIXELFORMAT_RGBA8_UNORM_sRGB
             else PIXELFORMAT_RGBA8_UNORM).
Proof.
  cbv zeta. destruct format, isGammaCorrect; cbn; split_and!; try done.
Qed.

(** ** The mouse *)

Lemma wrap_int_idemp_sub (a b : Z) : wrap_int (wrap_int a - b) = wrap_int (a - b).
Proof.
  unfold wrap_int. f_equal.
  replace ((a + 2 ^ 31) `mod` 2 ^ 32 - 2 ^ 31 - b + 2 ^ 31)
    with ((a + 2 ^ 31) `mod` 2 ^ 32 - b) by lia.
  replace (a - b + 2 ^ 31) with (a + 2 ^ 31 - b) by lia.
  apply Zminus_mod_idemp_l.
Qed.

Section MouseProperties.
Context `{SDLHeaders}.

(** X28: [isDown] says whether one of the given buttons is down.  Buttons
    are numbered from 1; numbers that are not positive are skipped; love's
    button 2 is SDL's right button and love's button 3 is SDL's middle
    button, every other number is SDL's own.  The order of the buttons and
    repetitions do not matter. *)
Theorem Mouse_isDown_some_button (buttonstate : Z) (buttons : list Z) :
  (Mouse_isDown buttonstate buttons = true
   ↔ ∃ button, button ∈ buttons ∧ 0 < button
               ∧ has_flag buttonstate (SDL_BUTTON (Mouse_isDown_button button)) = true)
  ∧ Mouse_isDown buttonstate [2] = has_flag buttonstate (SDL_BUTTON SDL_BUTTON_RIGHT)
  ∧ Mouse_isDown buttonstate [3] = has_flag buttonstate (SDL_BUTTON SDL_BUTTON_MIDDLE)
  ∧ (∀ more, Mouse_isDown buttonstate (buttons ++ more)
             = Mouse_isDown buttonstate buttons || Mouse_isDown buttonstate more)
  ∧ (∀ others, (∀ button, button ∈ buttons ↔ button ∈ others) →
               Mouse_isDown buttonstate others = Mouse_isDown buttonstate buttons).
Proof.
  assert (Hiff : ∀ l,
    Mouse_isDown buttonstate l = true
    ↔ ∃ button, button ∈ l ∧ 0 < button
                ∧ has_flag buttonstate (SDL_BUTTON (Mouse_isDown_button button)) = true).
  { induction l as [| b l IH]; cbn [Mouse_isDown].
    - split; [done | intros (b & Hb & _); by apply elem_of_nil in Hb].
    - destruct (Z.leb_spec b 0) as [Hle | Hgt].
      + rewrite IH. split.
        * intros (b' & Hin & Hb'). exists b'. split; [by right | done].
        * intros (b' & Hin & Hpos & Hb'). exists b'. split; [| done].
          apply elem_of_cons in Hin as [-> | Hin]; [lia | done].
      + cbv zeta.
        destruct (has_flag buttonstate (SDL_BUTTON (Mouse_isDown_button b))) eqn:Hb.
        * split; [intros _ | done]. exists b. split; [by left | done].
        * rewrite IH. split.
          -- intros (b' & Hin & Hb'). exists b'. split; [by right | done].
          -- intros (b' & Hin & Hpos & Hb'). exists b'. split; [| done].
             apply elem_of_cons in Hin as [-> | Hin]; [congruence | done]. }
  split_and!.
  - apply Hiff.
  - cbn. by destruct (has_flag _ _).
  - cbn. by destruct (has_flag _ _).
  - intros more. apply eq_true_iff_eq. rewrite orb_true_iff, !Hiff. split.
    + intros (b & Hin & Hb). apply elem_of_app in Hin as [Hin | Hin]; eauto.
    + intros [(b & Hin & Hb) | (b & Hin & Hb)]; exists b;
        (split; [apply elem_of_app; eauto | done]).
  - intros others Hsame. apply eq_true_iff_eq. rewrite !Hiff.
    split; intros (b & Hin & Hb); exists b; (split; [by apply Hsame | done]).
Qed.

Lemma origins_app (coordinate : SDL_Rect → Z) (l1 l2 : list SDL_Rect) :
  origins coordinate (l1 ++ l2) = origins coordinate l1 + origins coordinate l2.
Proof. unfold origins. induction l1 as [| r l1 IH]; cbn; [done | rewrite IH; lia]. Qed.

Lemma Mouse_getGlobalPosition_loop_found (globalx globaly : Z)
    (before : list SDL_Rect) (rect : SDL_Rect) (after : list SDL_Rect) :
  Forall (λ r, SDL_PointInRect (globalx, globaly) r = false) before →
  SDL_PointInRect (globalx, globaly) rect = true →
  ∀ displayindex mx my,
    0 ≤ displayindex →
    displayindex + Z.of_nat (length before) ≤ INT_MAX →
    Mouse_getGlobalPosition_loop globalx globaly (before ++ rect :: after)
      displayindex mx my
    = (wrap_int (mx - origins rect_x (before ++ [rect])),
       wrap_int (my - origins rect_y (before ++ [rect])),
       displayindex + Z.of_nat (length before)).
Proof.
  intros Hbefore Hrect.
  induction Hbefore as [| r before Hr _ IH]; intros displayindex mx my H0 Hmax.
  - cbn [app Mouse_getGlobalPosition_loop length]. cbv zeta. rewrite Hrect.
    cbn [origins foldr]. rewrite !Z.add_0_r. done.
  - cbn [app Mouse_getGlobalPosition_loop]. cbv zeta. rewrite Hr.
    cbn [length] in Hmax.
    rewrite (wrap_int_small (displayindex + 1)) by (unfold INT_MIN, INT_MAX in *; lia).
    rewrite IH by lia. rewrite !wrap_int_idemp_sub.
    cbn [origins foldr length]. fold (origins rect_x (before ++ [rect])).
    fold (origins rect_y (before ++ [rect])).
    f_equal; [f_equal; f_equal; lia | lia].
Qed.

Lemma Mouse_getGlobalPosition_loop_none (globalx globaly : Z) (bounds : list SDL_Rect) :
  Forall (λ r, SDL_PointInRect (globalx, globaly) r = false) bounds →
  ∀ displayindex mx my,
    0 ≤ displayindex →
    displayindex + Z.of_nat (length bounds) ≤ INT_MAX →
    Mouse_getGlobalPosition_loop globalx globaly bounds displayindex mx my
    = (if decide (bounds = []) then mx else wrap_int (mx - origins rect_x bounds),
       if decide (bounds = []) then my else wrap_int (my - origins rect_y bounds),
       displayindex + Z.of_nat (length bounds)).
Proof.
  induction 1 as [| r bounds Hr _ IH]; intros displayindex mx my H0 Hmax.
  - cbn. by rewrite Z.add_0_r.
  - cbn [Mouse_getGlobalPosition_loop]. cbv zeta. rewrite Hr.
    cbn [length] in Hmax.
    rewrite (wrap_int_small (displayindex + 1)) by (unfold INT_MIN, INT_MAX in *; lia).
    rewrite IH by lia. rewrite !(decide_False (P := r :: bounds = [])) by done.
    cbn [origins foldr length]. fold (origins rect_x bounds). fold (origins rect_y bounds).
    destruct (decide (bounds = [])) as [-> | Hne].
    + cbn [origins foldr length]. rewrite !Z.add_0_r. f_equal; lia.
    + rewrite !wrap_int_idemp_sub. f_equal; [f_equal; f_equal; lia | lia].
Qed.

(** X29: [getGlobalPosition] reports the first display whose bounds hold
    the pointer, and display 0 when none does or there is no display.  The
    coordinates it reports are the global ones less the origins of all the
    displays it has visited, the reported one included, as far as [int]
    can hold the differences: for a pointer on display 0 they are relative
    to that display; for a pointer on a later display the origins of the
    displays before it are subtracted as well. *)
Theorem Mouse_getGlobalPosition_display (globalx globaly : Z)
    (bounds : list SDL_Rect) :
  (∀ before rect after,
     bounds = before ++ rect :: after →
     Z.of_nat (length bounds) ≤ INT_MAX →
     Forall (λ r, SDL_PointInRect (globalx, globaly) r = false) before →
     SDL_PointInRect (globalx, globaly) rect = true →
     Mouse_getGlobalPosition globalx globaly bounds
     = (wrap_int (globalx - origins rect_x (before ++ [rect])),
        wrap_int (globaly - origins rect_y (before ++ [rect])),
        Z.of_nat (length before)))
  ∧ (bounds ≠ [] →
     Z.of_nat (length bounds) ≤ INT_MAX →
     Forall (λ r, SDL_PointInRect (globalx, globaly) r = false) bounds →
     Mouse_getGlobalPosition globalx globaly bounds
     = (wrap_int (globalx - origins rect_x bounds),
        wrap_int (globaly - origins rect_y bounds), 0))
  ∧ (bounds = [] → Mouse_getGlobalPosition globalx globaly bounds = (globalx, globaly, 0)).
Proof.
  split_and!.
  - intros before rect after -> Hmax Hbefore Hrect. unfold Mouse_getGlobalPosition.
    rewrite length_app in *. cbn [length] in *.
    rewrite (Mouse_getGlobalPosition_loop_found _ _ _ _ _ Hbefore Hrect) by lia.
    rewrite Z.add_0_l.
    destruct (Z.leb_spec (Z.of_nat (length before + S (length after)))
                (Z.of_nat (length before))); [lia | done].
  - intros Hne Hmax Hnone. unfold Mouse_getGlobalPosition.
    rewrite (Mouse_getGlobalPosition_loop_none _ _ _ Hnone) by lia.
    rewrite !decide_False by done. rewrite Z.add_0_l.
    destruct (Z.leb_spec (Z.of_nat (length bounds)) (Z.of_nat (length bounds)));
      [done | lia].
  - intros ->. reflexivity.
Qed.
End MouseProperties.

(** ** Creating the swap chain *)

Section CreateSwapChain.
Context `{LoveHeaders} `{Driver}.

Lemma createSwapChain_unfold (g : Graphics) :
  createSwapChain g =
    let createInfo := createSwapChain_createInfo g in
    let result := vkCreateSwapchainKHR (trace g) createInfo in
    let g1 := set_trace (trace g ++ [CreateSwapchain createInfo result]) g in
    if decide (result ≠ VK_SUCCESS)
    then Thrown (love_Exception "failed to create swap chain") g1
    else
      Done ()
        (set_swapChain
           (set_swapChainExtent (sci_imageExtent createInfo)
              (set_swapChainImageFormat (sci_imageFormat createInfo)
                 (set_swapChainImages (vkGetSwapchainImagesKHR (trace g1))
                    (swapChain g1)))) g1).
Proof.
  unfold createSwapChain, createSwapChain_createInfo. rewrite bind_get. cbv zeta.
  rewrite bind_emit. case_decide; [done |]. by rewrite bind_get.
Qed.

(** X30: [createSwapChain] asks for one image more than the minimum of the
    surface, but for no more than its maximum when it has one; for the
    format, the present mode and the extent that the three choosers give,
    the extent with width and height exchanged when the surface is rotated
    by 90 or 270 degrees.  When the driver builds the swap chain, its
    images, format and extent are stored and the image views are left as
    they are; when it does not, the function throws and the members of the
    swap chain keep their values. *)
Theorem createSwapChain_request (g : Graphics) :
  let support := querySwapChainSupport (trace g) in
  let caps := capabilities support in
  let chosen := chooseSwapExtent caps (SDL_Vulkan_GetDrawableSize (trace g)) in
  let rotated :=
    has_flag (currentTransform caps) VK_SURFACE_TRANSFORM_ROTATE_90_BIT_KHR
    || has_flag (currentTransform caps) VK_SURFACE_TRANSFORM_ROTATE_270_BIT_KHR in
  ∃ createInfo result,
    result = vkCreateSwapchainKHR (trace g) createInfo
    ∧ (0 < maxImageCount caps → sci_minImageCount createInfo ≤ maxImageCount caps)
    ∧ (0 ≤ minImageCount caps < UINT32_MAX →
       maxImageCount caps = 0 ∨ minImageCount caps < maxImageCount caps →
       sci_minImageCount createInfo = minImageCount caps + 1)
    ∧ sci_imageFormat createInfo
      = format (chooseSwapSurfaceFormat (support_formats support))
    ∧ sci_imageColorSpace createInfo
      = colorSpace (chooseSwapSurfaceFormat (support_formats support))
    ∧ sci_presentMode createInfo
      = chooseSwapPresentMode (Vulkan_vsync g) (support_presentModes support)
    ∧ sci_preTransform createInfo = currentTransform caps
    ∧ sci_imageExtent createInfo
      = (if rotated then (chosen.2, chosen.1) else chosen)
    ∧ (result = VK_SUCCESS →
       ∃ g',
         createSwapChain g = Done () g'
         ∧ trace g' = trace g ++ [CreateSwapchain createInfo VK_SUCCESS]
         ∧ swapChainImages (swapChain g') = vkGetSwapchainImagesKHR (trace g')
         ∧ swapChainImageFormat (swapChain g') = sci_imageFormat createInfo
         ∧ swapChainExtent (swapChain g') = sci_imageExtent createInfo
         ∧ swapChainImageViews (swapChain g') = swapChainImageViews (swapChain g)
         ∧ g' = set_swapChain (swapChain g') (set_trace (trace g') g))
    ∧ (result ≠ VK_SUCCESS →
       createSwapChain g
       = Thrown (love_Exception "failed to create swap chain")
           (set_trace (trace g ++ [CreateSwapchain createInfo result]) g)).
Proof.
  cbv zeta.
  exists (createSwapChain_createInfo g),
    (vkCreateSwapchainKHR (trace g) (createSwapChain_createInfo g)).
  split; [reflexivity |].
  rewrite createSwapChain_unfold. cbv zeta.
  split_and!; try reflexivity.
  - intros Hmax. unfold createSwapChain_createInfo. cbv zeta. cbn [sci_minImageCount].
    set (most := maxImageCount _) in *. set (count := to_uint32 _).
    destruct (Z.ltb_spec 0 most); [| lia].
    cbn [andb]. destruct (Z.ltb_spec most count); lia.
  - intros Hmin Hroom. unfold createSwapChain_createInfo. cbv zeta.
    cbn [sci_minImageCount].
    assert (to_uint32 (minImageCount (capabilities (querySwapChainSupport (trace g))) + 1)
            = minImageCount (capabilities (querySwapChainSupport (trace g))) + 1) as ->.
    { unfold to_uint32. apply Z.mod_small. unfold UINT32_MAX in Hmin. lia. }
    set (most := maxImageCount _) in *. set (least := minImageCount _) in *.
    destruct (Z.ltb_spec 0 most); [| done].
    cbn [andb]. destruct (Z.ltb_spec most (least + 1)) as [Hlt | Hge]; [lia | done].
  - intros Hok. rewrite Hok. rewrite decide_False by (by intros []).
    eexists. split; [reflexivity |].
    cbn [trace set_trace swapChain set_swapChain swapChainImages swapChainImageFormat
         swapChainExtent swapChainImageViews set_swapChainExtent
         set_swapChainImageFormat set_swapChainImages].
    split_and!; try done.
  - intros Hfail. by rewrite decide_True.
Qed.
End CreateSwapChain.

(** ** The properties at work on the sample backend *)

Lemma sample_ensure :
  ∃ g', @ensureGraphicsPipelineConfiguration love_headers ideal_driver
          sample_configuration sample_backend = Done () g'.
Proof.
  eexists. eapply @ensure_miss.
  - apply lookup_empty.
  - cbn; unfold MAX_FRAMES_IN_FLIGHT; lia.
  - reflexivity.
Qed.

Lemma ensureGraphicsPipelineConfiguration_caches_witness :
  ∃ g',
    @ensureGraphicsPipelineConfiguration love_headers ideal_driver
      sample_configuration sample_backend = Done () g'
    ∧ bound sample_configuration g'
    ∧ @ensureGraphicsPipelineConfiguration love_headers ideal_driver
        sample_configuration g' = Done () g'.
Proof.
  destruct sample_ensure as [g' Hd]. exists g'. split; [exact Hd |].
  destruct (@ensureGraphicsPipelineConfiguration_caches love_headers ideal_driver
              sample_configuration sample_backend g' Hd) as (Hb & _ & _ & Hagain & _).
  split; [exact Hb | exact Hagain].
Defined.

Section RunDraws.
Context `{LoveHeaders} `{Driver}.

Lemma draw_unfold (cmd : DrawCommand) (g g1 : Graphics) :
  prepareDraw (dc_attributes cmd) (dc_buffers cmd) (dc_texture cmd)
    (dc_primitiveType cmd) (dc_cullMode cmd) g = Done () g1 →
  draw cmd g
  = Done ()
      (set_trace
         (trace g1
          ++ [CmdDraw (currentFrame g1) (to_uint32 (dc_vertexCount cmd))
                (to_uint32 (dc_instanceCount cmd)) (to_uint32 (dc_vertexStart cmd)) 0])
         g1).
Proof.
  intros Hp. unfold draw. rewrite bind_Done_l with (1 := Hp).
  rewrite bind_Done_l
    with (1 := at_currentFrame_Done g1 (prepareDraw_Done_slot _ _ _ _ _ _ _ Hp)).
  reflexivity.
Qed.

(** A draw whose pipeline is not cached, and a second draw like it. *)
Lemma two_draws (cmd : DrawCommand) (g : Graphics) (p : VkPipeline) :
  let configuration :=
    prepareDraw_configuration g (dc_attributes cmd) (dc_primitiveType cmd)
      (dc_cullMode cmd) in
  graphicsPipelines g !! configuration = None →
  (currentFrame g < MAX_FRAMES_IN_FLIGHT)%nat →
  vkCreateGraphicsPipelines
    (trace g ++ prepareDraw_before g (dc_attributes cmd) (dc_texture cmd))
    (pipelineInfo g configuration) = (VK_SUCCESS, p) →
  ∃ g', calls [Call_draw cmd; Call_draw cmd] g = Done () g'.
Proof.
  intros configuration Hl Hslot Hreply.
  assert (∃ g1, prepareDraw (dc_attributes cmd) (dc_buffers cmd) (dc_texture cmd)
                  (dc_primitiveType cmd) (dc_cullMode cmd) g = Done () g1
                ∧ bound configuration g1
                ∧ differs_in_pipeline g g1) as (g1 & Hp1 & Hb1 & Hd1).
  { eexists. split; [| split].
    - eapply prepareDraw_unfold.
      + eapply ensure_miss; [exact Hl | exact Hslot |].
        replace (pipelineInfo (set_trace _ g) _) with (pipelineInfo g configuration)
          by (by destruct g).
        exact Hreply.
      + exact Hslot.
    - unfold bound. cbn. apply lookup_insert_eq.
    - by destruct g. }
  pose proof (draw_unfold cmd g g1 Hp1) as Hdraw1.
  match type of Hdraw1 with
  | _ = Done () ?s => remember s as g2 eqn:Hg2
  end.
  assert (bound configuration g2) as Hb2 by (subst g2; by destruct g1).
  assert (differs_in_pipeline g g2) as Hd2.
  { unfold differs_in_pipeline in *. subst g2. rewrite Hd1. by destruct g. }
  assert (currentFrame g2 = currentFrame g) as Hf2 by (rewrite Hd2; by destruct g).
  clear Hg2.
  assert (∃ g3, prepareDraw (dc_attributes cmd) (dc_buffers cmd) (dc_texture cmd)
                  (dc_primitiveType cmd) (dc_cullMode cmd) g2 = Done () g3)
    as (g3 & Hp3).
  { eexists. eapply prepareDraw_unfold.
    - eapply ensure_hit_same.
      rewrite (prepareDraw_configuration_differs g g2) by done.
      unfold bound in Hb2. by destruct g2.
    - cbn [currentFrame set_trace]. by rewrite Hf2. }
  pose proof (draw_unfold cmd g2 g3 Hp3) as Hdraw3.
  eexists. unfold calls. cbn [for_each call].
  rewrite bind_Done_l with (1 := Hdraw1).
  rewrite bind_Done_l with (1 := Hdraw3).
  reflexivity.
Qed.
End RunDraws.

Lemma sample_two_draws :
  ∃ g', @calls love_headers ideal_driver [Call_draw sample_draw; Call_draw sample_draw]
          sample_backend = Done () g'.
Proof.
  eapply (@two_draws love_headers ideal_driver sample_draw sample_backend).
  - apply lookup_empty.
  - cbn; unfold MAX_FRAMES_IN_FLIGHT; lia.
  - reflexivity.
Qed.

Lemma draws_bind_pipeline_once_witness :
  ∃ g' events,
    @calls love_headers ideal_driver [Call_draw sample_draw; Call_draw sample_draw]
      sample_backend = Done () g'
    ∧ trace g' = trace sample_backend ++ events
    ∧ (pipelineBinds events ≤ 1)%nat
    ∧ (pipelineBuilds events ≤ 1)%nat.
Proof.
  destruct sample_two_draws as [g' Hd].
  destruct (@draws_bind_pipeline_once love_headers ideal_driver
              [Call_draw sample_draw; Call_draw sample_draw] sample_configuration
              sample_backend g')
    as (events & Ht & Hbinds & Hbuilds & _).
  - constructor; [reflexivity |]. constructor; [reflexivity |]. constructor.
  - exact Hd.
  - exists g', events. split; [exact Hd |]. split; [exact Ht |].
    split; [exact Hbinds | exact Hbuilds].
Defined.

Lemma setters_flush_first_witness :
  ∃ g',
    @call love_headers ideal_driver (Call_setWireframe true) sample_pending = Done () g'
    ∧ trace g' = trace sample_pending ++ flush_calls sample_pending
    ∧ batchedDrawState_pending g' = 0%nat
    ∧ states_back g' = set_wireframe true (states_back sample_pending)
    ∧ g' = set_states_back (states_back g')
             (set_batchedDrawState_pending 0 (set_trace (trace g') sample_pending)).
Proof.
  apply (@setters_flush_first love_headers ideal_driver (Call_setWireframe true)
           (set_wireframe true) sample_pending).
  reflexivity.
Defined.

Lemma createVulkanVertexFormat_well_formed_witness :
  NoDup (map vb_binding (@createVulkanVertexFormat love_headers layout_position).1)
  ∧ Z.of_nat (@ATTRIB_COLOR love_headers)
      ∈ map va_location (@createVulkanVertexFormat love_headers layout_position).2.
Proof.
  destruct (@createVulkanVertexFormat_well_formed love_headers layout_position)
    as (Hbindings & _ & _ & _ & Hcolor).
  - cbn. lia.
  - split; [exact Hbindings | exact Hcolor].
Defined.

Lemma createVulkanVertexFormat_constant_color_witness :
  ∃ bindings,
    (@createVulkanVertexFormat love_headers layout_position).1
    = bindings ++ [ {| vb_binding := 1; vb_stride := 0;
                       vb_inputRate := VK_VERTEX_INPUT_RATE_VERTEX |} ].
Proof.
  destruct (@createVulkanVertexFormat_constant_color love_headers layout_position)
    as (bindings & highest & _ & _ & _ & _ & _ & Hat & _ & Heq); [cbn; lia |].
  exists bindings. rewrite Heq.
  change (@hasColorAttribute love_headers layout_position) with false.
  cbn [fst].
  assert (highest = 0) as ->; [| reflexivity].
  destruct Hat as [Hat | (i & Hi & Hat)]; [exact Hat |].
  change (@enabledSlots love_headers layout_position) with [0%nat] in Hi.
  apply list_elem_of_singleton in Hi. subst i. symmetry. exact Hat.
Defined.


Lemma sample_startRecording :
  ∃ g', @startRecordingGraphicsCommands ideal_driver 1 sample_queued = Done () g'.
Proof. vm_compute. eexists. reflexivity. Qed.

Lemma startRecordingGraphicsCommands_runs_cleanups_witness :
  ∃ g' retried result rest,
    @startRecordingGraphicsCommands ideal_driver 1 sample_queued = Done () g'
    ∧ trace g'
      = trace sample_queued
        ++ WaitForFences 0 :: retried
        ++ AcquireNextImage 0 result (imageIndex g')
           :: map CleanUpFn [7; 8]%nat
        ++ BeginCommandBuffer false 0 VK_SUCCESS
           :: BeginCommandBuffer true 0 VK_SUCCESS :: rest
    ∧ cleanUpFunctions g' = [[]; [9%nat]].
Proof.
  destruct sample_startRecording as [g' Hd].
  destruct (@startRecordingGraphicsCommands_runs_cleanups ideal_driver 1
              sample_queued g' Hd)
    as (queue & retried & result & framebuffer & created & Hq & Ht & _ & _ & _ & _
        & _ & Hc & _).
  injection Hq as <-.
  exists g', retried, result. eexists.
  split; [exact Hd |]. split; [exact Ht | exact Hc].
Defined.

Lemma sample_present :
  ∃ g', @present ideal_driver 1 sample_queued = Done () g'.
Proof. vm_compute. eexists. reflexivity. Qed.

Lemma present_advances_frame_witness :
  ∃ g' before rest,
    @present ideal_driver 1 sample_queued = Done () g'
    ∧ trace g'
      = trace sample_queued ++ before ++ map CleanUpFn [9%nat]
          ++ BeginCommandBuffer false 1 VK_SUCCESS
          :: BeginCommandBuffer true 1 VK_SUCCESS :: rest
    ∧ QueueSubmit 0 VK_SUCCESS ∈ before
    ∧ currentFrame g' = 1%nat
    ∧ cleanUpFunctions g' = [[7; 8]; []]%nat.
Proof.
  destruct sample_present as [g' Hd].
  destruct (@present_advances_frame ideal_driver 1 sample_queued g' eq_refl Hd)
    as (queue & before & rest & _ & Hq & Ht & _ & Hsubmit & _ & Hc & Hf & _).
  injection Hq as <-.
  exists g', before, rest. split; [exact Hd |]. split; [exact Ht |].
  split; [exact Hsubmit |]. split; [exact Hf | exact Hc].
Defined.

Lemma sample_presents :
  ∃ g', @calls love_headers ideal_driver
          (Call_queueCleanUp 5%nat :: [Call_setWireframe true]
             ++ Call_present 1 :: [Call_setColor white] ++ [Call_present 1])
          sample_queued = Done () g'.
Proof. vm_compute. eexists. reflexivity. Qed.

Lemma cleanUp_runs_at_second_present_witness :
  ∃ g' g1 events1 events2,
    @calls love_headers ideal_driver
      (Call_queueCleanUp 5%nat :: [Call_setWireframe true]
         ++ Call_present 1 :: [Call_setColor white] ++ [Call_present 1])
      sample_queued = Done () g'
    ∧ trace g1 = trace sample_queued ++ events1
    ∧ cleanUpCalls events1 = [9%nat]
    ∧ trace g' = trace g1 ++ events2
    ∧ cleanUpCalls events2 = [7; 8; 5]%nat
    ∧ cleanUpFunctions g' = [[]; []].
Proof.
  destruct sample_presents as [g' Hd].
  destruct (@cleanUp_runs_at_second_present love_headers ideal_driver 5%nat 1 1
              [Call_setWireframe true] [Call_setColor white] sample_queued g')
    as (queue & other & g1 & events1 & events2 & Hq & Ho & _ & _ & Ht1 & Hc1 & _
        & Ht2 & Hc2 & _ & Hc).
  - reflexivity.
  - constructor; [split; reflexivity | constructor].
  - constructor; [split; reflexivity | constructor].
  - exact Hd.
  - injection Hq as <-. injection Ho as <-.
    exists g', g1, events1, events2.
    split; [exact Hd |]. split; [exact Ht1 |]. split; [exact Hc1 |].
    split; [exact Ht2 |]. split; [exact Hc2 | exact Hc].
Defined.

Lemma chooseSwapSurfaceFormat_preferred_witness :
  chooseSwapSurfaceFormat sample_formats ∈ sample_formats
  ∧ format (chooseSwapSurfaceFormat sample_formats) = VK_FORMAT_B8G8R8A8_UNORM.
Proof.
  destruct (chooseSwapSurfaceFormat_preferred sample_formats) as (Hin & Hpreferred & _).
  - discriminate.
  - split; [exact Hin |]. apply Hpreferred.
    exists {| format := 44; colorSpace := 0 |}. split; [| split; reflexivity].
    apply list_elem_of_further, list_elem_of_here.
Defined.



Lemma sample_startRenderPass :
  ∃ g', @startRenderPass ideal_driver None 800 600 sample_backend = Done () g'.
Proof. vm_compute. eexists. reflexivity. Qed.

Lemma startRenderPass_begins_witness :
  ∃ g',
    @startRenderPass ideal_driver None 800 600 sample_backend = Done () g'
    ∧ renderPasses g' !! {| frameBufferFormat := 44 |} = Some (currentRenderPass g')
    ∧ currentGraphicsPipeline g' = VK_NULL_HANDLE
    ∧ renderTargetTexture g' = None.
Proof.
  destruct sample_startRenderPass as [g' Hd]. exists g'. split; [exact Hd |].
  destruct (@startRenderPass_begins ideal_driver None 800 600 sample_backend g' Hd)
    as (Hrp & _ & Hp & Ht & _).
  split; [exact Hrp |]. split; [exact Hp | exact Ht].
Defined.

Lemma sample_setRenderTargetsInternal :
  ∃ g', @setRenderTargetsInternal ideal_driver [sample_canvas] 256 128 sample_rendering
        = Done () g'.
Proof. vm_compute. eexists. reflexivity. Qed.

Lemma setRenderTargetsInternal_switches_witness :
  ∃ g',
    @setRenderTargetsInternal ideal_driver [sample_canvas] 256 128 sample_rendering
      = Done () g'
    ∧ renderTargetTexture g' = Some sample_canvas
    ∧ currentGraphicsPipeline g' = VK_NULL_HANDLE.
Proof.
  destruct sample_setRenderTargetsInternal as [g' Hd]. exists g'.
  split; [exact Hd |].
  destruct (@setRenderTargetsInternal_switches ideal_driver
              [sample_canvas] 256 128 sample_rendering g' Hd)
    as (Ht & Hp & _).
  split; [exact Ht | exact Hp].
Defined.
